(** * gen_news.py: the news aggregation pipeline

    A shallow embedding of the pipeline of [gen_news.py] (fetchers,
    per-source cap, enrichment selection, translation batching, time
    normalisation, freshness cutoff and final sort), and the properties
    of it that the specification states.

    Conventions.
    - A Python [str] is a list of Unicode code points ([N]), so that
      [length] is Python's [len] and the ellipsis U+2026 counts as one
      character.
    - Code that can raise returns an [outcome]; [try ... except] is
      [try_except].
    - What comes from the network or from a library outside the
      repository (HTTP responses, feedparser entries, the BeautifulSoup
      tree, html.unescape, str.lower, the translator, the date parsers of
      the standard library) is a [Variable] of the section that uses it. *)

From Stdlib Require Import ZArith NArith Lia String Ascii.
From stdpp Require Import base list gmap sorting.

Open Scope nat_scope.
Set Warnings "-register-all".

(** ** Strings *)

Abbreviation str := (list N).

(** An ASCII literal as a Python string. *)
Definition u (s : string) : str :=
  (fun a => N_of_ascii a) <$> list_ascii_of_string s.

Definition ELLIPSIS : N := 8230%N.
Definition SPACE : N := 32%N.
Definition LT : N := 60%N.
Definition GT : N := 62%N.
Definition SLASH : N := 47%N.

(** [str.isspace] on one character, which is also [\s] of [re] on [str]
    patterns. *)
Definition isspace (c : N) : bool :=
  ((9 <=? c) && (c <=? 13) || (28 <=? c) && (c <=? 32)
   || (c =? 133) || (c =? 160) || (c =? 5760)
   || (8192 <=? c) && (c <=? 8202)
   || (c =? 8232) || (c =? 8233) || (c =? 8239) || (c =? 8287)
   || (c =? 12288))%N.

Definition str_eqb (a b : str) : bool := bool_decide (a = b).

(** [not s] for a string. *)
Definition is_empty (s : str) : bool :=
  match s with [] => true | _ => false end.

(** [a.startswith(p)] *)
Fixpoint startswith (a p : str) : bool :=
  match p, a with
  | [], _ => true
  | _ :: _, [] => false
  | y :: p', x :: a' => (x =? y)%N && startswith a' p'
  end.

(** [s.lstrip()], [s.rstrip()] and [s.strip()] with no argument. *)
Fixpoint lstrip (s : str) : str :=
  match s with
  | c :: s' => if isspace c then lstrip s' else s
  | [] => []
  end.
Definition rstrip (s : str) : str := rev (lstrip (rev s)).
Definition strip (s : str) : str := rstrip (lstrip s).

(** [s.lstrip("/")] and [s.rstrip("/")]. *)
Fixpoint lstrip_slash (s : str) : str :=
  match s with
  | c :: s' => if (c =? SLASH)%N then lstrip_slash s' else s
  | [] => []
  end.
Definition rstrip_slash (s : str) : str := rev (lstrip_slash (rev s)).

(** ** Exceptions *)

(** The exceptions the modelled code can meet; all of them are subclasses
    of [Exception]. *)
Inductive exn :=
  | ValueError | TypeError | KeyError | AttributeError | OverflowError
  | RequestException | OtherException.

Inductive outcome (A : Type) :=
  | Return (a : A)
  | Raise (e : exn).
Arguments Return {A} a.
Arguments Raise {A} e.

#[global] Instance outcome_ret : MRet outcome := fun A a => Return a.
#[global] Instance outcome_bind : MBind outcome := fun A B k m =>
  match m with
  | Return a => k a
  | Raise e => Raise e
  end.

(** [try: body except Exception as exc: handler exc] *)
Definition try_except {A} (body : outcome A) (handler : exn -> outcome A)
  : outcome A :=
  match body with
  | Return a => Return a
  | Raise e => handler e
  end.

(** A loop body run over a list, stopping at the first exception. *)
Fixpoint for_each {A S} (body : S -> A -> outcome S) (l : list A) (s : S)
  : outcome S :=
  match l with
  | [] => Return s
  | x :: l' => s' ← body s x; for_each body l' s'
  end.

(** ** [_truncate] and [_clean] *)

Definition _truncate (text : str) (n : nat) : str :=
  if n <? length text then take n text ++ [ELLIPSIS] else text.

(** [re.sub(r"<[^>]+>", "", text)].  [pending = Some buf] when a '<' has
    been read and then the characters [rev buf], none of them '>'. *)
Fixpoint sub_tags (pending : option str) (s : str) : str :=
  match s with
  | [] =>
      match pending with
      | None => []
      | Some buf => LT :: rev buf
      end
  | c :: s' =>
      match pending with
      | None => if (c =? LT)%N then sub_tags (Some []) s' else c :: sub_tags None s'
      | Some buf =>
          if (c =? GT)%N
          then match buf with
               | [] => LT :: GT :: sub_tags None s'
               | _ => sub_tags None s'
               end
          else sub_tags (Some (c :: buf)) s'
      end
  end.

(** [re.sub(r"\s+", " ", text)] *)
Fixpoint sub_spaces (in_run : bool) (s : str) : str :=
  match s with
  | [] => []
  | c :: s' =>
      if isspace c
      then if in_run then sub_spaces true s' else SPACE :: sub_spaces true s'
      else c :: sub_spaces false s'
  end.

(** ** Python values, items and source configurations *)

(** A value decoded from JSON, as [resp.json()] returns it.  A float is
    kept as mantissa and decimal exponent; only its truth value is used.
    A dict is the list of its entries, keys distinct. *)
Inductive pyval :=
  | PNone
  | PBool (b : bool)
  | PInt (z : Z)
  | PFloat (m e : Z)
  | PStr (s : str)
  | PList (l : list pyval)
  | PDict (kvs : list (str * pyval)).

(** Truth value of a Python value ([if v], [v or w]). *)
Definition truthy (v : pyval) : bool :=
  match v with
  | PNone => false
  | PBool b => b
  | PInt z => negb (z =? 0)%Z
  | PFloat m _ => negb (m =? 0)%Z
  | PStr s => negb (is_empty s)
  | PList l => match l with [] => false | _ => true end
  | PDict kvs => match kvs with [] => false | _ => true end
  end.

Fixpoint assoc (k : str) (kvs : list (str * pyval)) : option pyval :=
  match kvs with
  | [] => None
  | (k', v) :: rest => if str_eqb k k' then Some v else assoc k rest
  end.

(** [d.get(k, dflt)]; only a dict has a [get]. *)
Definition py_get (d : pyval) (k : str) (dflt : pyval) : outcome pyval :=
  match d with
  | PDict kvs => Return (default dflt (assoc k kvs))
  | _ => Raise AttributeError
  end.

(** The values a [for] loop over [v] visits. *)
Definition py_iter (v : pyval) : outcome (list pyval) :=
  match v with
  | PList l => Return l
  | PDict kvs => Return ((fun kv => PStr (fst kv)) <$> kvs)
  | PStr s => Return ((fun c => PStr [c]) <$> s)
  | _ => Raise TypeError
  end.

(** A news item: the dict the fetchers build.  Every field but [link] is a
    [str] by construction; [link] is whatever the feed or the API gave. *)
Record item := {
  category : str;
  title : str;
  summary : str;
  source : str;
  link : pyval;
  time : str }.

Record selectors_t := {
  sel_article : str;
  sel_title : str;
  sel_summary : str;
  sel_time : str }.

(** One entry of [SOURCES].  [alt_urls] is empty when the key is absent
    ([source.get("alt_urls", [])]); [selectors] is [None] when the key is
    absent ([source["selectors"]] raises KeyError then). *)
Record source_config := {
  src_name : str;
  src_category : str;
  src_method : str;
  src_url : str;
  src_alt_urls : list str;
  src_selectors : option selectors_t }.

Definition MAX_ITEMS_PER_SOURCE : nat := 5.

(** An entry of a parsed feed; a field is [None] when the entry has no
    such key. *)
Record entry := {
  e_title : option str;
  e_summary : option str;
  e_description : option str;
  e_link : option str;
  e_published : option str;
  e_updated : option str }.

(** Three items whose summaries have 4000, 1000 and 3000 characters. *)
Definition ex_item (summary : str) : item :=
  {| category := u "market"; title := u "Crude"; summary := summary;
     source := u "Example"; link := PStr []; time := [] |}.

Section GenNews.

(** ** The fetchers *)

(** [html.unescape] *)
Variable unescape : str -> str.

Definition _clean (text : str) : str :=
  if is_empty text then []
  else strip (sub_spaces false (unescape (sub_tags None text))).

(** [_clean] on a decoded JSON value: a falsy value gives the empty
    string, a string is cleaned, on anything else [re.sub] raises
    TypeError. *)
Definition _clean_val (v : pyval) : outcome str :=
  if negb (truthy v) then Return []
  else match v with
       | PStr s => Return (_clean s)
       | _ => Raise TypeError
       end.

(** *** RSS *)

(** [_fetch_url(url)], [raise_for_status()] and
    [feedparser.parse(resp.content).entries]. *)
Variable fetch_feed : str -> outcome (list entry).

(** The walk over the primary and the alternative URLs; [entries] is the
    variable of that name, kept when an attempt raises. *)
Fixpoint rss_entries (urls : list str) (entries : list entry) : list entry :=
  match urls with
  | [] => entries
  | url :: rest =>
      match fetch_feed url with
      | Return es =>
          let entries' := take MAX_ITEMS_PER_SOURCE es in
          match entries' with
          | [] => rss_entries rest entries'
          | _ => entries'
          end
      | Raise _ => rss_entries rest entries
      end
  end.

Definition rss_pub (e : entry) : str :=
  match e_published e with
  | Some p => p
  | None => match e_updated e with
            | Some p => p
            | None => []
            end
  end.

Definition rss_item (src : source_config) (e : entry) : item :=
  {| category := src_category src;
     title := _clean (default [] (e_title e));
     summary :=
       _truncate (_clean (default (default [] (e_description e)) (e_summary e))) 500;
     source := src_name src;
     link := PStr (default [] (e_link e));
     time := rss_pub e |}.

Definition _fetch_rss (src : source_config) : list item :=
  rss_item src <$> rss_entries (src_url src :: src_alt_urls src) [].

(** *** HTML scrape *)

(** The parsed page and its elements, with the BeautifulSoup operations
    the fetcher uses. *)
Variables Soup Tag : Type.
(** [_fetch_url(url)], [raise_for_status()], [BeautifulSoup(..., "lxml")] *)
Variable fetch_page : str -> outcome Soup.
(** [soup.select(css)] *)
Variable select : Soup -> str -> list Tag.
(** [el.select_one(css)] *)
Variable select_one : Tag -> str -> option Tag.
(** [el.get_text()] and [el.get_text(strip=True)] *)
Variable get_text : Tag -> str.
Variable get_text_strip : Tag -> str.
(** [el.name == "a"] *)
Variable is_a : Tag -> bool.
(** [el.get("href", "")] *)
Variable get_href : Tag -> str.
(** [el.find("a")] *)
Variable find_a : Tag -> option Tag.

Definition scrape_link (src : source_config) (title_el : Tag) : str :=
  let link :=
    if is_a title_el then get_href title_el
    else match find_a title_el with
         | Some a => get_href a
         | None => []
         end in
  if negb (is_empty link) && negb (startswith link (u "http"))
  then rstrip_slash (src_url src) ++ u "/" ++ lstrip_slash link
  else link.

(** One turn of the loop over [articles]: the item appended, or [None]
    on [continue]. *)
Definition scrape_article (src : source_config) (sel : selectors_t) (art : Tag)
  : option item :=
  let title_el := if negb (is_a art) then select_one art (sel_title sel) else Some art in
  let title := match title_el with
               | Some el => _clean (get_text el)
               | None => []
               end in
  if is_empty title then None
  else
    let link := match title_el with
                | Some el => scrape_link src el
                | None => []
                end in
    let summary_el := if negb (is_a art) then select_one art (sel_summary sel) else None in
    let summary := match summary_el with
                   | Some el => _truncate (_clean (get_text el)) 500
                   | None => []
                   end in
    let time_el := if negb (is_a art) then select_one art (sel_time sel) else None in
    let pub_time := match time_el with
                    | Some el => _clean (get_text el)
                    | None => []
                    end in
    Some {| category := src_category src;
            title := _truncate title 80;
            summary := summary;
            source := src_name src;
            link := PStr link;
            time := pub_time |}.

Definition scrape_articles (soup : Soup) (sel : selectors_t) : list Tag :=
  match take MAX_ITEMS_PER_SOURCE (select soup (sel_article sel)) with
  | [] =>
      take MAX_ITEMS_PER_SOURCE
        (List.filter (fun a => negb (is_empty (get_text_strip a)))
           (select soup (u "a[href]")))
  | articles => articles
  end.

Definition _fetch_scrape (src : source_config) : outcome (list item) :=
  soup ← fetch_page (src_url src);
  sel ← match src_selectors src with
        | Some sel => Return sel
        | None => Raise KeyError
        end;
  Return (omap (scrape_article src sel) (scrape_articles soup sel)).

(** *** The telegraph API *)

(** [_fetch_url(url)], [raise_for_status()], [resp.json()] *)
Variable fetch_json : str -> outcome pyval.
(** [time.strftime("%Y-%m-%d %H:%M", time.localtime(ctime))] *)
Variable strftime_localtime : pyval -> outcome str.

(** [a or b] on strings *)
Definition str_or (a b : str) : str := if is_empty a then b else a.

(** One turn of the loop over [roll_data]. *)
Definition cls_item (src : source_config) (it : pyval) : outcome (option item) :=
  c ← py_get it (u "content") (PStr []);
  content ← _clean_val c;
  t ← py_get it (u "title") (PStr []);
  title ← _clean_val t;
  d ← py_get it (u "depth_extends") PNone;
  let depth := if truthy d then d else PDict [] in
  depth_title ← match depth with
                | PDict _ => dt ← py_get depth (u "title") (PStr []); _clean_val dt
                | _ => Return []
                end;
  link ← py_get it (u "shareurl") (PStr []);
  ctime ← py_get it (u "ctime") (PInt 0);
  pub_time ← (if truthy ctime then strftime_localtime ctime else Return []);
  let display_title := str_or depth_title (str_or title (take 60 content)) in
  if is_empty display_title then Return None
  else
    let summary := if negb (str_eqb content display_title)
                   then _truncate content 500 else [] in
    Return (Some {| category := src_category src;
                    title := _truncate display_title 80;
                    summary := summary;
                    source := src_name src;
                    link := link;
                    time := pub_time |}).

Fixpoint cls_loop (src : source_config) (roll_data : list pyval) (results : list item)
  : outcome (list item) :=
  match roll_data with
  | [] => Return results
  | it :: rest =>
      r ← cls_item src it;
      cls_loop src rest (match r with Some n => results ++ [n] | None => results end)
  end.

Definition _fetch_cls_api (src : source_config) : outcome (list item) :=
  data ← fetch_json (src_url src);
  d ← py_get data (u "data") (PDict []);
  roll ← py_get d (u "roll_data") (PList []);
  roll_data ← py_iter roll;
  cls_loop src roll_data [].

(** *** The unified entry point *)

Definition fetch_dispatch (src : source_config) : outcome (list item) :=
  if str_eqb (src_method src) (u "rss") then Return (_fetch_rss src)
  else if str_eqb (src_method src) (u "cls_api") then _fetch_cls_api src
  else _fetch_scrape src.

Definition fetch_source (src : source_config) : outcome (list item) :=
  try_except (fetch_dispatch src) (fun _ => Return []).

(** ** Weak summaries and the per-source cap *)

(** [str.lower] *)
Variable lower : str -> str.

Definition _is_summary_useless (title summary : str) : bool :=
  if is_empty summary || (length summary <? 150) then true
  else
    let s_lower := strip (lower summary) in
    let t_lower := strip (lower title) in
    if startswith s_lower (take 30 t_lower) then true else false.

(** One turn of the loop over [filtered]; the state is [source_count]
    and [limited]. *)
Definition cap_step (st : gmap str nat * list item) (n : item)
  : gmap str nat * list item :=
  let src := source n in
  let source_count := <[src := default 0 (st.1 !! src) + 1]> st.1 in
  if bool_decide (default 0 (source_count !! src) <= MAX_ITEMS_PER_SOURCE)
  then (source_count, st.2 ++ [n])
  else (source_count, st.2).

Definition per_source_cap (filtered : list item) : list item :=
  (foldl cap_step (∅, []) filtered).2.

(** ** Enrichment *)

Definition set_summary (s : str) (n : item) : item :=
  {| category := category n; title := title n; summary := s;
     source := source n; link := link n; time := time n |}.

(** [_fetch_og_description(n["link"])] for the item at a position of
    [filtered]: the text the article page or the search fallback gave,
    empty when every tier failed. *)
Variable _fetch_og_description : nat -> pyval -> str.

Definition needs_enrich (n : item) : bool :=
  _is_summary_useless (title n) (summary n) && truthy (link n).

(** The indices of [need_enrich] in [filtered]. *)
Definition need_enrich (filtered : list item) : list nat :=
  List.filter (fun i => match filtered !! i with
                        | Some n => needs_enrich n
                        | None => false
                        end) (seq 0 (length filtered)).

(** The body run for one completed future. *)
Definition apply_desc (desc : str) (n : item) : item :=
  if negb (is_empty desc) && (length (summary n) <? length desc)
  then set_summary (_truncate desc 500) n
  else n.

(** Every future updates its own item, so the order in which they
    complete does not show in the result. *)
Definition enrich (filtered : list item) : list item :=
  imap (fun i n => if needs_enrich n
                   then apply_desc (_fetch_og_description i (link n)) n
                   else n) filtered.

(** ** Translation *)

Definition is_zh (c : N) : bool := ((19968 <=? c) && (c <=? 40959))%N.

(** [zh_count / max(len(text), 1) > 0.2], as the comparison of integers
    it amounts to for every length a string can have. *)
Definition _is_chinese (text : str) : bool :=
  if is_empty text then true
  else Nat.max (length text) 1 <? 5 * length (List.filter is_zh text).

(** [translator.translate_batch(batch_texts)] at its k-th call: the list
    of translations ([None] where the provider gave none), or a raised
    failure for the whole batch. *)
Variable translate_batch : nat -> list str -> outcome (list (option str)).

(** The variables of [_translate_summaries]; [calls] records the batches
    handed to the translator, in order. *)
Record tstate := {
  items : list item;
  batch_texts : list str;
  batch_indices : list nat;
  batch_char_count : nat;
  translated_count : nat;
  calls : list (list str) }.

Definition to_translate (items : list item) : list (nat * str) :=
  omap (fun p : nat * item =>
          let s := summary p.2 in
          if negb (is_empty s) && negb (_is_chinese s) then Some (p.1, s) else None)
       (imap (fun i n => (i, n)) items).

Definition apply_result (st : list item * nat) (p : nat * option str)
  : list item * nat :=
  match p.2 with
  | Some result =>
      if negb (is_empty result) && (10 <? length result)
      then (alter (set_summary (_truncate result 500)) p.1 st.1, st.2 + 1)
      else st
  | None => st
  end.

Definition _flush_batch (st : tstate) : tstate :=
  match batch_texts st with
  | [] => st
  | _ =>
      let calls' := calls st ++ [batch_texts st] in
      match translate_batch (length (calls st)) (batch_texts st) with
      | Return results =>
          let r := foldl apply_result (items st, translated_count st)
                     (zip (batch_indices st) results) in
          {| items := r.1; batch_texts := batch_texts st;
             batch_indices := batch_indices st;
             batch_char_count := batch_char_count st;
             translated_count := r.2; calls := calls' |}
      | Raise _ =>
          {| items := items st; batch_texts := batch_texts st;
             batch_indices := batch_indices st;
             batch_char_count := batch_char_count st;
             translated_count := translated_count st; calls := calls' |}
      end
  end.

(** One turn of the loop over [to_translate]. *)
Definition batch_step (st : tstate) (p : nat * str) : tstate :=
  let st1 :=
    if (4500 <? batch_char_count st + length p.2)
       && negb (match batch_texts st with [] => true | _ => false end)
    then
      let f := _flush_batch st in
      {| items := items f; batch_texts := []; batch_indices := [];
         batch_char_count := 0; translated_count := translated_count f;
         calls := calls f |}
    else st in
  {| items := items st1;
     batch_texts := batch_texts st1 ++ [p.2];
     batch_indices := batch_indices st1 ++ [p.1];
     batch_char_count := batch_char_count st1 + length p.2;
     translated_count := translated_count st1;
     calls := calls st1 |}.

Definition tstate_init (its : list item) : tstate :=
  {| items := its; batch_texts := []; batch_indices := [];
     batch_char_count := 0; translated_count := 0; calls := [] |}.

Definition _translate_summaries (its : list item) : tstate :=
  match to_translate its with
  | [] => tstate_init its
  | todo => _flush_batch (foldl batch_step (tstate_init its) todo)
  end.

(** ** Time normalisation *)

(** A [datetime]; [tzinfo] is the UTC offset in microseconds, [None] for
    a naive value. *)
Record datetime := {
  year : Z;
  month : Z;
  day : Z;
  hour : Z;
  minute : Z;
  second : Z;
  microsecond : Z;
  tzinfo : option Z }.

Definition is_leap (y : Z) : bool :=
  ((y mod 4 =? 0) && (negb (y mod 100 =? 0) || (y mod 400 =? 0)))%Z.

Definition days_in_month (y m : Z) : Z :=
  (if m =? 2 then (if is_leap y then 29 else 28)
   else if (m =? 4) || (m =? 6) || (m =? 9) || (m =? 11) then 30 else 31)%Z.

Definition days_before_year (y : Z) : Z :=
  (let y1 := y - 1 in y1 * 365 + y1 / 4 - y1 / 100 + y1 / 400)%Z.

Definition days_before_month (y m : Z) : Z :=
  foldr (fun k acc => days_in_month y k + acc)%Z 0%Z (seqZ 1 (m - 1)).

(** [dt.toordinal()] *)
Definition toordinal (dt : datetime) : Z :=
  (days_before_year (year dt) + days_before_month (year dt) (month dt) + day dt)%Z.

(** The point in time an aware [datetime] denotes, in microseconds since
    0001-01-01T00:00:00 UTC.  Aware values compare by it. *)
Definition instant (dt : datetime) : Z :=
  ((((toordinal dt - 1) * 86400 + hour dt * 3600 + minute dt * 60 + second dt)
    * 1000000 + microsecond dt) - default 0 (tzinfo dt))%Z.

(** [dt.replace(tzinfo=timezone.utc)] *)
Definition replace_tzinfo_utc (dt : datetime) : datetime :=
  {| year := year dt; month := month dt; day := day dt; hour := hour dt;
     minute := minute dt; second := second dt; microsecond := microsecond dt;
     tzinfo := Some 0%Z |}.

(** [if dt.tzinfo is None: dt = dt.replace(tzinfo=timezone.utc)] *)
Definition assume_utc (dt : datetime) : datetime :=
  match tzinfo dt with
  | None => replace_tzinfo_utc dt
  | Some _ => dt
  end.

(** [datetime(y, m, d, tzinfo=timezone.utc)] *)
Definition datetime_utc (y m d : Z) : outcome datetime :=
  if ((1 <=? y) && (y <=? 9999) && (1 <=? m) && (m <=? 12)
      && (1 <=? d) && (d <=? days_in_month y m))%Z
  then Return {| year := y; month := m; day := d; hour := 0; minute := 0;
                 second := 0; microsecond := 0; tzinfo := Some 0%Z |}
  else Raise ValueError.

(** [dt.replace(hour=h, minute=mi)] *)
Definition replace_hour_minute (dt : datetime) (h mi : Z) : outcome datetime :=
  if ((0 <=? h) && (h <=? 23) && (0 <=? mi) && (mi <=? 59))%Z
  then Return {| year := year dt; month := month dt; day := day dt; hour := h;
                 minute := mi; second := second dt;
                 microsecond := microsecond dt; tzinfo := tzinfo dt |}
  else Raise ValueError.

(** [datetime.min.replace(tzinfo=timezone.utc)] *)
Definition datetime_min_utc : datetime :=
  {| year := 1; month := 1; day := 1; hour := 0; minute := 0; second := 0;
     microsecond := 0; tzinfo := Some 0%Z |}.

Definition _TIME_FORMATS : list str :=
  [ u "%Y-%m-%d %H:%M";
    u "%Y-%m-%d %H:%M:%S";
    u "%Y-%m-%dT%H:%M:%S";
    u "%Y-%m-%dT%H:%M:%SZ";
    u "%Y-%m-%dT%H:%M:%S%z";
    u "%b %d, %Y";
    u "%B %d, %Y";
    u "%d %b %Y";
    u "%d %B %Y";
    u "%Y/%m/%d %H:%M" ].

(** [email.utils.parsedate_to_datetime] and [datetime.strptime] *)
Variable parsedate_to_datetime : str -> outcome datetime.
Variable strptime : str -> str -> outcome datetime.
(** The value of a decimal digit: [Some d] on the characters [\d]
    matches, which are those [int] reads. *)
Variable digit_value : N -> option Z.

(** [\d{2}] at the head of [s]: the number read and what follows. *)
Definition two_digits (s : str) : option (Z * str) :=
  match s with
  | c1 :: c2 :: rest =>
      match digit_value c1, digit_value c2 with
      | Some d1, Some d2 => Some (10 * d1 + d2, rest)%Z
      | _, _ => None
      end
  | _ => None
  end.

(** [\d] at the head of [s]. *)
Definition one_digit (s : str) : option (Z * str) :=
  match s with
  | c1 :: rest =>
      match digit_value c1 with
      | Some d1 => Some (d1, rest)
      | None => None
      end
  | [] => None
  end.

(** [\d{4}] at the head of [s]. *)
Definition four_digits (s : str) : option (Z * str) :=
  match two_digits s with
  | Some (hi, rest) =>
      match two_digits rest with
      | Some (lo, rest') => Some (100 * hi + lo, rest')%Z
      | None => None
      end
  | None => None
  end.

(** The ways [\d{1,2}] can match at the head of [s], in the order the
    greedy matcher tries them. *)
Definition digits_1_2 (s : str) : list (Z * str) :=
  match two_digits s with
  | Some r => [r]
  | None => []
  end ++
  match one_digit s with
  | Some r => [r]
  | None => []
  end.

Definition is_date_sep1 (c : N) : bool := ((c =? 24180) || (c =? 45) || (c =? 47))%N.
Definition is_date_sep2 (c : N) : bool := ((c =? 26376) || (c =? 45) || (c =? 47))%N.
Definition COLON : N := 58%N.

(** The first of the alternatives [alts] the continuation [k] accepts. *)
Fixpoint first_match {A B} (k : A -> option B) (alts : list A) : option B :=
  match alts with
  | [] => None
  | a :: rest =>
      match k a with
      | Some b => Some b
      | None => first_match k rest
      end
  end.

(** The date pattern, year, separator, month, separator, day, matched at
    the head of [s]: the three groups as integers. *)
Definition match_date_here (s : str) : option (Z * Z * Z) :=
  match four_digits s with
  | Some (y, c :: rest) =>
      if is_date_sep1 c
      then first_match
             (fun g2 : Z * str =>
                match g2.2 with
                | c' :: rest' =>
                    if is_date_sep2 c'
                    then match digits_1_2 rest' with
                         | g3 :: _ => Some (y, g2.1, g3.1)
                         | [] => None
                         end
                    else None
                | [] => None
                end)
             (digits_1_2 rest)
      else None
  | _ => None
  end.

(** The hour and minute pattern matched at the head of [s]. *)
Definition match_hm_here (s : str) : option (Z * Z) :=
  first_match
    (fun g1 : Z * str =>
       match g1.2 with
       | c :: rest =>
           if (c =? COLON)%N
           then match two_digits rest with
                | Some (mi, _) => Some (g1.1, mi)
                | None => None
                end
           else None
       | [] => None
       end)
    (digits_1_2 s).

(** [re.search]: the match at the leftmost position that has one. *)
Fixpoint re_search {B} (here : str -> option B) (s : str) : option B :=
  match here s with
  | Some b => Some b
  | None =>
      match s with
      | [] => None
      | _ :: s' => re_search here s'
      end
  end.

(** The loop over [_TIME_FORMATS]; only ValueError is caught. *)
Fixpoint try_formats (time_str : str) (fmts : list str) : outcome (option datetime) :=
  match fmts with
  | [] => Return None
  | fmt :: rest =>
      match strptime time_str fmt with
      | Return dt => Return (Some (assume_utc dt))
      | Raise ValueError => try_formats time_str rest
      | Raise e => Raise e
      end
  end.

(** The third tier: a date found by the pattern, with the hour and the
    minute when a pair is found too. *)
Definition parse_by_pattern (time_str : str) : outcome (option datetime) :=
  match re_search match_date_here time_str with
  | Some (y, m, d) =>
      match (dt ← datetime_utc y m d;
             match re_search match_hm_here time_str with
             | Some (h, mi) => replace_hour_minute dt h mi
             | None => Return dt
             end) with
      | Return dt => Return (Some dt)
      | Raise ValueError => Return None
      | Raise e => Raise e
      end
  | None => Return None
  end.

Definition _parse_time (time_str : str) : outcome (option datetime) :=
  if is_empty time_str then Return None
  else
    let time_str := strip time_str in
    match parsedate_to_datetime time_str with
    | Return dt => Return (Some (assume_utc dt))
    | Raise _ =>
        r ← try_formats time_str _TIME_FORMATS;
        match r with
        | Some dt => Return (Some dt)
        | None => parse_by_pattern time_str
        end
    end.

(** ** The aggregation pipeline *)

(** An item once [n["_dt"]] is set. *)
Record dated := {
  news : item;
  _dt : option datetime }.

Definition weeks (k : Z) : Z := (k * 7 * 86400 * 1000000)%Z.
Definition days (k : Z) : Z := (k * 86400 * 1000000)%Z.

(** [datetime.now(timezone.utc) - timedelta(weeks=2)], as instants. *)
Definition cutoff_of (now : Z) : Z := (now - weeks 2)%Z.

(** [n["_dt"] is None or n["_dt"] >= cutoff] *)
Definition is_fresh (cutoff : Z) (n : dated) : bool :=
  match _dt n with
  | None => true
  | Some dt => (cutoff <=? instant dt)%Z
  end.

(** [n["_dt"] or datetime.min.replace(tzinfo=timezone.utc)], as an
    instant. *)
Definition sort_key (n : dated) : Z :=
  match _dt n with
  | Some dt => instant dt
  | None => instant datetime_min_utc
  end.

(** [list.sort(key=..., reverse=True)]: the stable sort by descending
    key, written as an insertion sort.  An element goes in front of the
    first one whose key is not greater than its own, so elements of equal
    keys keep the order they came in. *)
Fixpoint insert_desc (x : dated) (l : list dated) : list dated :=
  match l with
  | [] => [x]
  | y :: l' => if (sort_key x <? sort_key y)%Z then y :: insert_desc x l' else x :: l
  end.

Definition sort_desc (l : list dated) : list dated := foldr insert_desc [] l.

(** The last two stages: freshness cutoff, then sort. *)
Definition cutoff_and_sort (now : Z) (l : list dated) : list dated :=
  sort_desc (List.filter (is_fresh (cutoff_of now)) l).

(** The keyword search over the title and the summary. *)
Variable _matches_keywords : item -> bool.
(** The order in which the fetch tasks complete: the sources, permuted. *)
Variable as_completed : list source_config -> list source_config.
(** The instant of [datetime.now(timezone.utc)]. *)
Variable now : Z.

Definition set_dt (n : item) : outcome dated :=
  dt ← _parse_time (time n); Return {| news := n; _dt := dt |}.

Definition fetch_all (sources : list source_config) : outcome (list dated) :=
  all_news ← for_each (fun all_news s => its ← fetch_source s; Return (all_news ++ its))
                      (as_completed sources) [];
  let filtered := List.filter _matches_keywords all_news in
  let filtered := per_source_cap filtered in
  let filtered := enrich filtered in
  let filtered := items (_translate_summaries filtered) in
  filtered ← mapM set_dt filtered;
  Return (cutoff_and_sort now filtered).

(** ** The description of an article *)

(** [needle in hay] on strings. *)
Fixpoint contains (needle hay : str) : bool :=
  startswith hay needle
  || match hay with
     | [] => false
     | _ :: hay' => contains needle hay'
     end.

(** [sep.join(parts)] for the one-character separator [sep]. *)
Fixpoint join (sep : N) (parts : list str) : str :=
  match parts with
  | [] => []
  | [p] => p
  | p :: rest => p ++ sep :: join sep rest
  end.

(** [s.split(c)[0]] *)
Fixpoint before_char (c : N) (s : str) : str :=
  match s with
  | [] => []
  | x :: s' => if (x =? c)%N then [] else x :: before_char c s'
  end.

(** [new_decoderv1(url, interval=0.5)] of googlenewsdecoder. *)
Variable new_decoderv1 : str -> outcome pyval.

Definition _resolve_google_news_url (url : str) : pyval :=
  if negb (contains (u "news.google.com") url) then PStr url
  else
    match (result ← new_decoderv1 url;
           status ← py_get result (u "status") PNone;
           if truthy status
           then decoded ← py_get result (u "decoded_url") PNone;
                Return (if truthy decoded then Some decoded else None)
           else Return None) with
    | Return (Some decoded) => decoded
    | _ => PStr url
    end.

(** [requests.get(real_url, headers=HEADERS, timeout=10,
    allow_redirects=True)], [raise_for_status()] and
    [BeautifulSoup(resp.content, "lxml")], for the page of the article
    and for the page of the search. *)
Variable get_article : pyval -> outcome Soup.
Variable get_search : str -> outcome Soup.

(** [soup.find("meta", attr=value)] *)
Variable find_meta : Soup -> str -> str -> option Tag.

(** The [content] attribute of a tag, when it has one. *)
Variable get_content : Tag -> option str.

(** [requests.utils.quote] *)
Variable quote : str -> outcome str.

Definition google_generic : str := u "comprehensive up-to-date news coverage".
Definition js_block : str := u "please enable js".

Definition not_generic (text : str) : bool :=
  negb (contains google_generic (lower text))
  && negb (contains js_block (lower text)).

(** What one [meta] tag offers: its cleaned content, when the tag is
    there, its content is not blank, and the text passes the filter. *)
Definition meta_desc (tag : option Tag) : option str :=
  match tag with
  | Some t =>
      let content := default [] (get_content t) in
      if negb (is_empty (strip content))
      then let desc := _clean content in
           if not_generic desc && (30 <? length desc) then Some desc else None
      else None
  | None => None
  end.

(** The loop that gathers texts until they hold 400 characters:
    [acc] is the list gathered so far, [keep] the test a text has to
    pass. *)
Fixpoint gather_texts (keep : str -> bool) (acc : list str) (tags : list Tag)
  : list str :=
  match tags with
  | [] => acc
  | t :: rest =>
      let text := _clean (get_text t) in
      if keep text
      then let acc' := acc ++ [text] in
           if 400 <=? sum_list_with length acc' then acc'
           else gather_texts keep acc' rest
      else gather_texts keep acc rest
  end.

(** The rest of the [try] body once [best_meta] is settled; [None] when
    it returns nothing. *)
Definition after_meta (soup : Soup) (best_meta : str) : option str :=
  let paragraphs :=
    gather_texts (fun text => (40 <? length text) && not_generic text) []
      (select soup
         (u "article p, .content p, .entry-content p, .articleHeader ~ p, main p, p")) in
  let combined := join SPACE paragraphs in
  if negb (bool_decide (paragraphs = [])) && (length best_meta <? length combined)
  then Some combined
  else if negb (is_empty best_meta) then Some best_meta
  else None.

Definition page_description (soup : Soup) : option str :=
  match meta_desc (find_meta soup (u "property") (u "og:description")) with
  | Some desc => if 150 <=? length desc then Some desc else after_meta soup desc
  | None =>
      match meta_desc (find_meta soup (u "name") (u "description")) with
      | Some desc => if 150 <=? length desc then Some desc else after_meta soup desc
      | None => after_meta soup []
      end
  end.

Definition _fetch_ddg_snippet (url : str) : str :=
  match (query ← match _resolve_google_news_url url with
                 | PStr real_url => Return (before_char 63%N real_url)
                 | _ => Raise AttributeError
                 end;
         quoted_query ← quote query;
         soup ← get_search (u "https://html.duckduckgo.com/html/?q=" ++ quoted_query);
         Return (gather_texts (fun text => 40 <? length text) []
                   (select soup (u ".result__snippet")))) with
  | Return ((_ :: _) as snippets) => join SPACE snippets
  | _ => []
  end.

(** [_fetch_og_description(url)] for a string: the function whose answers
    [enrich] takes through the variable of that name. *)
Definition _fetch_og_description_str (url : str) : str :=
  match (soup ← get_article (_resolve_google_news_url url);
         Return (page_description soup)) with
  | Return (Some desc) => desc
  | _ => _fetch_ddg_snippet url
  end.

(** ** Rendering a card *)

Definition QUOTE : N := 34%N.
Definition APOSTROPHE : N := 39%N.
Definition AMPERSAND : N := 38%N.
Definition NEWLINE : N := 10%N.

(** [s.replace(c, r)] for a single character [c]. *)
Fixpoint replace_char (c : N) (r : str) (s : str) : str :=
  match s with
  | [] => []
  | x :: s' => (if (x =? c)%N then r else [x]) ++ replace_char c r s'
  end.

(** [html.escape(s)], with its default [quote=True]: the five
    replacements in the order the library makes them. *)
Definition html_escape (s : str) : str :=
  replace_char APOSTROPHE (u "&#x27;")
    (replace_char QUOTE (u "&quot;")
       (replace_char GT (u "&gt;")
          (replace_char LT (u "&lt;")
             (replace_char AMPERSAND (u "&amp;") s)))).

(** [html.escape(v)] on a value: only a string has the [replace] it
    calls. *)
Definition html_escape_val (v : pyval) : outcome str :=
  match v with
  | PStr s => Return (html_escape s)
  | _ => Raise AttributeError
  end.

Definition CATEGORY_COLORS : list (str * (str * str)) :=
  [ ([22269; 38469]%N, (u "#fce4ec", u "#c62828"));
    ([36130; 32463]%N, (u "#fff3e0", u "#e65100"));
    ([24066; 22330]%N, (u "#e8eaf6", u "#283593"));
    ([34892; 19994]%N, (u "#e8f5e9", u "#2e7d32"));
    ([27833; 20215]%N, (u "#fff8e1", u "#f57f17"));
    ([22825; 28982; 27668]%N, (u "#e0f7fa", u "#00695c"));
    ([32508; 21512]%N, (u "#f3e5f5", u "#6a1b9a")) ].

(** [CATEGORY_COLORS.get(cat, dflt)] *)
Fixpoint colors_get (cat : str) (table : list (str * (str * str))) (dflt : str * str)
  : str * str :=
  match table with
  | [] => dflt
  | (k, v) :: rest => if str_eqb cat k then v else colors_get cat rest dflt
  end.

(** A text between double quotes. *)
Definition quoted (s : str) : str := [QUOTE] ++ s ++ [QUOTE].

Definition _category_badge (cat : str) : str :=
  let c := colors_get cat CATEGORY_COLORS (u "#eeeeee", u "#333333") in
  u "<span class=" ++ quoted (u "badge") ++ u " style="
    ++ quoted (u "background:" ++ c.1 ++ u ";color:" ++ c.2) ++ u ">"
    ++ html_escape cat ++ u "</span>".

Definition _news_card (n : item) : outcome str :=
  let title_e := html_escape (title n) in
  let summary_e := html_escape (summary n) in
  let source_e := html_escape (source n) in
  let time_e := html_escape (time n) in
  title_html ← (if truthy (link n)
                then l ← html_escape_val (link n);
                     Return (u "<a href=" ++ quoted l ++ u " target="
                               ++ quoted (u "_blank") ++ u " rel="
                               ++ quoted (u "noopener") ++ u ">"
                               ++ title_e ++ u "</a>")
                else Return title_e);
  let meta := if is_empty time_e then source_e
              else source_e ++ [32; 183; 32]%N ++ time_e in
  let badge := _category_badge (category n) in
  Return (u "    <article class=" ++ quoted (u "card") ++ u ">" ++ [NEWLINE]
            ++ u "      <div class=" ++ quoted (u "card-header") ++ u ">" ++ [NEWLINE]
            ++ u "        " ++ badge ++ [NEWLINE]
            ++ u "        <span class=" ++ quoted (u "meta") ++ u ">" ++ meta
            ++ u "</span>" ++ [NEWLINE]
            ++ u "      </div>" ++ [NEWLINE]
            ++ u "      <h3 class=" ++ quoted (u "card-title") ++ u ">" ++ title_html
            ++ u "</h3>" ++ [NEWLINE]
            ++ u "      <p class=" ++ quoted (u "card-summary") ++ u ">" ++ summary_e
            ++ u "</p>" ++ [NEWLINE]
            ++ u "    </article>").

(** How often the character [c] occurs in [s]. *)
Definition count (c : N) (s : str) : nat := length (List.filter (N.eqb c) s).

(** ** A small world to run the pipeline in

    Concrete stand-ins for the network and the libraries: four endpoints
    (a feed, a page, a well-formed API payload, a malformed one), date
    parsers that reject everything, so that the pattern tier decides,
    and a translator that is down. *)

Definition toy_unescape (s : str) : str := s.

(** Lower-casing of the ASCII letters. *)
Definition toy_lower (s : str) : str :=
  (fun c => if ((65 <=? c) && (c <=? 90))%N then (c + 32)%N else c) <$> s.

Definition toy_digit_value (c : N) : option Z :=
  if ((48 <=? c) && (c <=? 57))%N then Some (Z.of_N c - 48)%Z else None.

Definition toy_selectors : selectors_t :=
  {| sel_article := u ".item"; sel_title := u "h4 a";
     sel_summary := u ".excerpt"; sel_time := u ".date" |}.

Definition toy_source (name method url : string) : source_config :=
  {| src_name := u name; src_category := u "market"; src_method := u method;
     src_url := u url; src_alt_urls := []; src_selectors := Some toy_selectors |}.

Definition toy_rss : source_config := toy_source "Feed" "rss" "https://toy.example/rss".
Definition toy_untitled : source_config :=
  toy_source "Untitled" "rss" "https://toy.example/untitled".
Definition toy_scrape : source_config :=
  toy_source "Page" "scrape" "https://toy.example/news/".
Definition toy_api : source_config :=
  toy_source "Wire" "cls_api" "https://toy.example/api".
Definition toy_bad_api : source_config :=
  toy_source "Broken" "cls_api" "https://toy.example/bad".

(** A feed entry that has a summary and a link but no title. *)
Definition untitled_entry : entry :=
  {| e_title := None;
     e_summary := Some (u "Brent crude climbs as OPEC holds output");
     e_description := None;
     e_link := Some (u "https://toy.example/a");
     e_published := None;
     e_updated := None |}.

Definition toy_entry (title published : string) : entry :=
  {| e_title := Some (u title);
     e_summary := Some (u "Oil <b>prices</b>   moved");
     e_description := None;
     e_link := Some (u "https://toy.example/b");
     e_published := Some (u published);
     e_updated := None |}.

Definition toy_fetch_feed (url : str) : outcome (list entry) :=
  if str_eqb url (u "https://toy.example/rss")
  then Return [ toy_entry "Oil steady" "2026-10-30 08:15";
                toy_entry "Gas undated" "soon";
                toy_entry "Crude up" "2026-11-03 09:30";
                toy_entry "Old crude story" "2026-01-05 12:00" ]
  else if str_eqb url (u "https://toy.example/untitled")
  then Return [untitled_entry]
  else Raise RequestException.

(** The page: one article container (0) with a title link (1) of 81
    characters and an excerpt (2) of 501. *)
Definition toy_fetch_page (url : str) : outcome unit :=
  if str_eqb url (u "https://toy.example/news/") then Return tt
  else Raise RequestException.
Definition toy_select (_ : unit) (css : str) : list nat :=
  if str_eqb css (u ".item") then [0] else [].
Definition toy_select_one (el : nat) (css : str) : option nat :=
  match el with
  | 0 => if str_eqb css (u "h4 a") then Some 1
         else if str_eqb css (u ".excerpt") then Some 2 else None
  | _ => None
  end.
Definition toy_get_text (el : nat) : str :=
  match el with
  | 1 => replicate 81 111%N
  | 2 => replicate 501 105%N
  | _ => []
  end.
Definition toy_is_a (el : nat) : bool := Nat.eqb el 1.
Definition toy_get_href (el : nat) : str := u "story/1".
Definition toy_find_a (el : nat) : option nat := None.

Definition toy_fetch_json (url : str) : outcome pyval :=
  if str_eqb url (u "https://toy.example/api")
  then Return
         (PDict [(u "data",
                  PDict [(u "roll_data",
                          PList [ PDict [(u "content", PStr (u "LNG cargo diverted to Asia"));
                                         (u "shareurl", PStr (u "https://toy.example/c"));
                                         (u "ctime", PInt 1793700000)];
                                  PDict [(u "content", PStr []); (u "title", PNone)] ])])])
  else if str_eqb url (u "https://toy.example/bad")
  then Return (PList [])
  else Raise RequestException.
Definition toy_strftime_localtime (ctime : pyval) : outcome str :=
  Return (u "2026-11-02 21:20").

Definition toy_fetch_og_description (i : nat) (url : pyval) : str := [].
Definition toy_translate_batch (k : nat) (texts : list str)
  : outcome (list (option str)) := Raise RequestException.
Definition toy_parsedate (s : str) : outcome datetime := Raise ValueError.
Definition toy_strptime (s fmt : str) : outcome datetime := Raise ValueError.
Definition toy_matches_keywords (n : item) : bool := true.
Definition toy_as_completed (l : list source_config) : list source_config := l.

(** 2026-11-04T00:00:00Z, and the days 13 and 15 days before it. *)
Definition midnight_utc (y m d : Z) : datetime :=
  {| year := y; month := m; day := d; hour := 0; minute := 0; second := 0;
     microsecond := 0; tzinfo := Some 0%Z |}.
Definition toy_now : Z := instant (midnight_utc 2026 11 4).
Definition toy_dated (t : option datetime) : dated :=
  {| news := ex_item []; _dt := t |}.

(** A feed source whose primary URL is down and whose alternative is the
    feed of the small world. *)
Definition toy_fallback : source_config :=
  {| src_name := u "Fallback"; src_category := u "market"; src_method := u "rss";
     src_url := u "https://toy.example/down";
     src_alt_urls := [u "https://toy.example/rss"];
     src_selectors := None |}.

(** A page source whose URL nobody answers. *)
Definition toy_dead_page : source_config :=
  toy_source "Gone" "scrape" "https://toy.example/gone".

(** An item with markup in every text and in its address. *)
Definition toy_card_item : item :=
  {| category := u "<i>market</i>";
     title := u "Oil & <b>gas</b>";
     summary := u "Brent > 90, says 'trader' <script>";
     source := u "A<B";
     link := PStr (u "https://toy.example/?a=1&b=<2>");
     time := u "2026-11-03 09:30" |}.

(** A payload whose second entry is a string, not an object. *)
Definition toy_fetch_json_mixed (url : str) : outcome pyval :=
  Return
    (PDict [(u "data",
             PDict [(u "roll_data",
                     PList [ PDict [(u "content", PStr (u "LNG cargo diverted to Asia"))];
                             PStr (u "maintenance") ])])]).

(** A feed source none of whose URLs answers. *)
Definition toy_dead_feed : source_config :=
  toy_source "Down" "rss" "https://toy.example/down".

(** A translator that answers every text with the same phrase. *)
Definition toy_translate_fixed (k : nat) (texts : list str)
  : outcome (list (option str)) :=
  Return ((fun _ => Some (u "translated summary")) <$> texts).

(** ** Notions the statements use *)

(** The bound every stored summary meets: 500 characters and the
    ellipsis. *)
Definition summary_ok (n : item) : Prop := length (summary n) <= 501.

(** [sum(len(t) for t in batch)] *)
Definition total_chars (batch : list str) : nat := sum_list_with length batch.

(** The batches the loop of [_translate_summaries] hands over, as a
    function of the texts alone: [cur] and [cnt] are [batch_texts] and
    [batch_char_count]. *)
Fixpoint batches_from (cur : list str) (cnt : nat) (todo : list str)
  : list (list str) :=
  match todo with
  | [] => match cur with [] => [] | _ => [cur] end
  | t :: rest =>
      if (4500 <? cnt + length t) && negb (match cur with [] => true | _ => false end)
      then cur :: batches_from [t] (length t) rest
      else batches_from (cur ++ [t]) (cnt + length t) rest
  end.

(** An item whose title is a non-empty text cut at 80 characters, and
    one whose summary is a text cut at 500. *)
Definition truncated_title (n : item) : Prop :=
  exists t : str, t <> [] /\ title n = _truncate t 80.
Definition truncated_summary (n : item) : Prop :=
  exists s : str, summary n = _truncate s 500.

Definition aware (dt : datetime) : Prop := tzinfo dt <> None.

(** What the documentation of [datetime.strptime] promises about a
    string it cannot parse. *)
Definition strptime_raises_only_ValueError : Prop :=
  forall s fmt e, strptime s fmt = Raise e -> e = ValueError.

(** The order the sort leaves: keys do not increase. *)
Definition key_ge (a b : dated) : Prop := (sort_key b <= sort_key a)%Z.

(** What the last two stages leave: known times first, in non-increasing
    order, then the unknown ones. *)
Definition ordered_by_time (final : list dated) : Prop :=
  forall i j a b,
    i < j -> final !! i = Some a -> final !! j = Some b ->
    (_dt a = None -> _dt b = None)
    /\ (forall ta tb, _dt a = Some ta -> _dt b = Some tb ->
                     (instant tb <= instant ta)%Z).

(** What [_parse_time] may hand back: the unknown sentinel or an aware
    timestamp. *)
Definition aware_or_unknown (r : option datetime) : Prop :=
  match r with
  | Some dt => aware dt
  | None => True
  end.


(** What [sub_tags] has in hand: nothing, or a '<' and the characters
    read after it. *)
Definition pending_length (pending : option str) : nat :=
  match pending with
  | None => 0
  | Some buf => S (length buf)
  end.

(** A text in which white space is normalised: the only white space is
    the plain space, never two in a row, none at either end. *)
Definition ws_normal (s : str) : Prop :=
  (forall c, c ∈ s -> isspace c = true -> c = SPACE)
  /\ (forall a x y b, s = a ++ x :: y :: b -> isspace x = true -> isspace y = false)
  /\ (forall c rest, s = c :: rest -> isspace c = false)
  /\ (forall pre c, s = pre ++ [c] -> isspace c = false).

(** A feed URL that gives nothing: the request fails or the feed has no
    entry. *)
Definition feed_gives_nothing (url : str) : Prop :=
  (exists e, fetch_feed url = Raise e) \/ fetch_feed url = Return [].

(** An item that carries the name and the category of its source. *)
Definition tagged_with (src : source_config) (n : item) : Prop :=
  source n = src_name src /\ category n = src_category src.

(** Two items that agree on every field but the summary. *)
Definition same_but_summary (n n' : item) : Prop :=
  category n' = category n /\ title n' = title n /\ source n' = source n
  /\ link n' = link n /\ time n' = time n.

(** How translation may have changed the item at position [i]: the
    summary is as it was or, at a position of [cand], a translation of
    more than 10 characters cut at 500; the other fields are as they
    were. *)
Definition translated_from (cand : list nat) (i : nat) (n n' : item) : Prop :=
  same_but_summary n n'
  /\ (summary n' = summary n
      \/ (i ∈ cand /\ exists r : str, 10 < length r /\ summary n' = _truncate r 500)).

Definition translation_of (cand : list nat) (its l : list item) : Prop :=
  length l = length its
  /\ forall i n, its !! i = Some n ->
                 exists n', l !! i = Some n' /\ translated_from cand i n n'.

(** A calendar date and time of day that exist, at UTC, on the minute. *)
Definition valid_utc_minute (dt : datetime) : Prop :=
  (1 <= year dt <= 9999 /\ 1 <= month dt <= 12
   /\ 1 <= day dt <= days_in_month (year dt) (month dt)
   /\ 0 <= hour dt <= 23 /\ 0 <= minute dt <= 59
   /\ second dt = 0 /\ microsecond dt = 0)%Z
  /\ tzinfo dt = Some 0%Z.

(** The ASCII digit of value [d], and numbers written with two and with
    four digits, zero-padded. *)
Definition digit_char (d : Z) : N := Z.to_N (48 + d).
Definition two_digit_text (v : Z) : str :=
  [digit_char (v / 10); digit_char (v mod 10)].
Definition four_digit_text (v : Z) : str :=
  two_digit_text (v / 100) ++ two_digit_text (v mod 100).

(** A date and a time of day written year first with zero-padded fields,
    the way "%Y-%m-%d %H:%M" writes them, with separators [sep1] and
    [sep2] in the date and the text [mid] between the day and the hour. *)
Definition date_time_text (y m d : Z) (sep1 sep2 : N) (mid : str) (h mi : Z) : str :=
  four_digit_text y ++ sep1 :: two_digit_text m ++ sep2 :: two_digit_text d
  ++ mid ++ two_digit_text h ++ COLON :: two_digit_text mi.

(** [\d] and [int] read the ASCII digits. *)
Definition reads_ascii_digits : Prop :=
  forall d, (0 <= d <= 9)%Z -> digit_value (digit_char d) = Some d.

(** A text [_clean] returned, longer than 30 characters. *)
Definition cleaned_text (p : str) : Prop :=
  30 < length p /\ exists raw, p = _clean raw.

(** In the words of the specification: the resolved time of the item is
    known and strictly older than now minus two weeks. *)
Definition stale (now : Z) (n : dated) : Prop :=
  exists dt, _dt n = Some dt /\ (instant dt < now - weeks 2)%Z.

(** The summary [s'] is the answer of the translator for the text [s]:
    [s] stood at a position of a batch that was handed over, the call
    returned, its answer at that position is a text [r] of more than 10
    characters, and [s'] is [r] cut at 500.  [cs] are the batches handed
    over, in order. *)
Definition answered_by (cs : list (list str)) (s s' : str) : Prop :=
  exists k batch results j r,
    cs !! k = Some batch /\ translate_batch k batch = Return results
    /\ batch !! j = Some s /\ results !! j = Some (Some r)
    /\ 10 < length r /\ s' = _truncate r 500.

(** How translation may have changed the list: each summary is as it
    was or the answer of the translator for it; the other fields are as
    they were. *)
Definition translation_tied (cs : list (list str)) (its l : list item) : Prop :=
  length l = length its
  /\ forall i n, its !! i = Some n ->
       exists n', l !! i = Some n' /\ same_but_summary n n'
                  /\ (summary n' = summary n
                      \/ answered_by cs (summary n) (summary n')).

(** The texts and the indices of the batch in hand go together: the text
    at a position is the summary the item at the index of that position
    came with. *)
Definition batch_aligned (its : list item) (st : tstate) : Prop :=
  length (batch_indices st) = length (batch_texts st)
  /\ forall j i, batch_indices st !! j = Some i ->
       exists n, its !! i = Some n /\ batch_texts st !! j = Some (summary n).

(** ** Properties *)

Ltac outcome_cases H :=
  unfold mbind, outcome_bind in H;
  repeat match type of H with
         | context [match ?m with Return _ => _ | Raise _ => _ end] =>
             destruct m eqn:?; try discriminate H
         end.

(** *** [_truncate] *)

Lemma _truncate_short (text : str) n : length text <= n -> _truncate text n = text.
Proof.
  intros H. unfold _truncate.
  destruct (Nat.ltb_spec n (length text)); [lia | reflexivity].
Qed.

Lemma _truncate_long (text : str) n :
  n < length text -> _truncate text n = take n text ++ [ELLIPSIS].
Proof.
  intros H. unfold _truncate.
  destruct (Nat.ltb_spec n (length text)); [reflexivity | lia].
Qed.

Lemma _truncate_length (text : str) n : length (_truncate text n) <= S n.
Proof.
  destruct (Nat.le_gt_cases (length text) n) as [H | H].
  - rewrite _truncate_short by exact H. lia.
  - rewrite _truncate_long by exact H.
    rewrite length_app, length_take. simpl. lia.
Qed.

Lemma _truncate_nonempty (text : str) n : text <> [] -> _truncate text n <> [].
Proof.
  intros Hne. unfold _truncate. destruct (n <? length text).
  - intros H. apply (f_equal length) in H. rewrite length_app in H. simpl in H. lia.
  - exact Hne.
Qed.

Lemma is_empty_false (s : str) : is_empty s = false <-> s <> [].
Proof. destruct s; simpl; split; congruence. Qed.

Lemma is_empty_true (s : str) : is_empty s = true <-> s = [].
Proof. destruct s; simpl; split; congruence. Qed.

(** *** The per-source cap *)

Lemma cap_step_count (st : gmap str nat * list item) (n : item) (s : str) :
  default 0 ((cap_step st n).1 !! s)
  = default 0 (st.1 !! s) + (if bool_decide (source n = s) then 1 else 0).
Proof.
  unfold cap_step.
  assert (Hc : default 0 ((<[source n := default 0 (st.1 !! source n) + 1]> st.1) !! s)
               = default 0 (st.1 !! s) + (if bool_decide (source n = s) then 1 else 0)).
  { case_bool_decide as Hs.
    - subst s. rewrite lookup_insert_eq. reflexivity.
    - rewrite lookup_insert_ne by exact Hs. lia. }
  destruct (bool_decide (default 0 (_ !! source n) <= MAX_ITEMS_PER_SOURCE));
    exact Hc.
Qed.

Lemma cap_foldl_count (l : list item) (s : str) :
  default 0 ((foldl cap_step (∅, []) l).1 !! s)
  = length (filter (fun n => source n = s) l).
Proof.
  induction l as [| n l IH] using rev_ind.
  - simpl. rewrite lookup_empty. reflexivity.
  - rewrite foldl_snoc, cap_step_count, IH, filter_app, length_app.
    f_equal. case_bool_decide as Hs.
    + rewrite filter_cons_True by exact Hs. reflexivity.
    + rewrite filter_cons_False by exact Hs. reflexivity.
Qed.

Lemma per_source_cap_snoc (l : list item) (n : item) :
  per_source_cap (l ++ [n])
  = per_source_cap l
    ++ (if bool_decide (length (filter (fun m => source m = source n) l)
                        < MAX_ITEMS_PER_SOURCE)
        then [n] else []).
Proof.
  unfold per_source_cap. rewrite foldl_snoc.
  pose proof (cap_step_count (foldl cap_step (∅, []) l) n (source n)) as Hc.
  rewrite cap_foldl_count in Hc.
  rewrite bool_decide_eq_true_2 in Hc by reflexivity.
  unfold cap_step in *.
  destruct (bool_decide (default 0 (_ !! source n) <= MAX_ITEMS_PER_SOURCE)) eqn:Hd;
    simpl in *.
  - apply bool_decide_eq_true_1 in Hd.
    rewrite bool_decide_eq_true_2 by lia. reflexivity.
  - apply bool_decide_eq_false_1 in Hd.
    rewrite bool_decide_eq_false_2 by lia. rewrite app_nil_r. reflexivity.
Qed.

Lemma per_source_cap_sublist (l : list item) : per_source_cap l `sublist_of` l.
Proof.
  induction l as [| n l IH] using rev_ind.
  - reflexivity.
  - rewrite per_source_cap_snoc. apply sublist_app; [exact IH |].
    case_bool_decide; [reflexivity | apply sublist_nil_l].
Qed.

Lemma per_source_cap_filter (l : list item) (s : str) :
  filter (fun n => source n = s) (per_source_cap l)
  = take MAX_ITEMS_PER_SOURCE (filter (fun n => source n = s) l).
Proof.
  induction l as [| n l IH] using rev_ind.
  - reflexivity.
  - rewrite per_source_cap_snoc, !filter_app, IH, take_app.
    f_equal. destruct (decide (source n = s)) as [Hs | Hs].
    + subst s. rewrite (filter_cons_True _ n []) by reflexivity.
      rewrite filter_nil. case_bool_decide as Hlt.
      * rewrite filter_cons_True by reflexivity. rewrite filter_nil.
        destruct (MAX_ITEMS_PER_SOURCE - _) eqn:E; [lia | ].
        simpl. rewrite take_nil. reflexivity.
      * rewrite filter_nil.
        destruct (MAX_ITEMS_PER_SOURCE - _) eqn:E; [reflexivity | lia].
    + rewrite (filter_cons_False _ n []) by exact Hs. rewrite filter_nil, take_nil.
      case_bool_decide.
      * rewrite filter_cons_False by exact Hs. reflexivity.
      * reflexivity.
Qed.

(** C3. The per-source cap keeps, for every source name, the first five
    items of that source in arrival order and drops the later ones; what
    it keeps is a subsequence of its input; so eight items of one source
    come out as the first five of them. *)
Theorem per_source_cap_spec (filtered : list item) :
  per_source_cap filtered `sublist_of` filtered
  /\ (forall s : str,
        filter (fun n => source n = s) (per_source_cap filtered)
        = take 5 (filter (fun n => source n = s) filtered))
  /\ (forall s : str,
        Forall (fun n => source n = s) filtered ->
        length filtered = 8 ->
        per_source_cap filtered = take 5 filtered
        /\ length (per_source_cap filtered) = 5).
Proof.
  split; [apply per_source_cap_sublist |].
  split; [intros s; apply per_source_cap_filter |].
  intros s Hall Hlen.
  assert (Hf : forall l : list item,
             Forall (fun n => source n = s) l ->
             filter (fun n => source n = s) l = l).
  { intros l Hl. induction Hl as [| x l Hx Hl IH]; [reflexivity |].
    rewrite filter_cons_True by exact Hx. rewrite IH. reflexivity. }
  assert (Hcap : Forall (fun n => source n = s) (per_source_cap filtered)).
  { rewrite Forall_forall in *. intros x Hx. apply Hall.
    exact (sublist_subseteq _ _ (per_source_cap_sublist filtered) x Hx). }
  pose proof (per_source_cap_filter filtered s) as E.
  rewrite (Hf _ Hcap), (Hf _ Hall) in E.
  split; [exact E |].
  rewrite E, length_take. unfold MAX_ITEMS_PER_SOURCE. lia.
Qed.

(** *** The freshness cutoff and the final sort *)

Lemma insert_desc_perm (x : dated) (l : list dated) : insert_desc x l ≡ₚ x :: l.
Proof.
  induction l as [| y l IH]; simpl; [reflexivity |].
  destruct (sort_key x <? sort_key y)%Z; [| reflexivity].
  rewrite IH. apply Permutation_swap.
Qed.

Lemma sort_desc_perm (l : list dated) : sort_desc l ≡ₚ l.
Proof.
  induction l as [| x l IH]; simpl; [reflexivity |].
  rewrite insert_desc_perm, IH. reflexivity.
Qed.

Lemma insert_desc_sorted (x : dated) (l : list dated) :
  StronglySorted key_ge l -> StronglySorted key_ge (insert_desc x l).
Proof.
  induction 1 as [| y l Hl IH Hy]; simpl.
  - repeat constructor.
  - destruct (Z.ltb_spec (sort_key x) (sort_key y)) as [Hlt | Hge].
    + constructor; [exact IH |].
      rewrite insert_desc_perm. constructor; [unfold key_ge; lia | exact Hy].
    + constructor; [constructor; assumption |].
      constructor; [exact Hge |].
      eapply Forall_impl; [exact Hy |]. unfold key_ge. intros z Hz. lia.
Qed.

Lemma sort_desc_sorted (l : list dated) : StronglySorted key_ge (sort_desc l).
Proof.
  induction l as [| x l IH]; simpl; [constructor | apply insert_desc_sorted, IH].
Qed.

Lemma StronglySorted_lookup (l : list dated) i j a b :
  StronglySorted key_ge l -> i < j -> l !! i = Some a -> l !! j = Some b ->
  key_ge a b.
Proof.
  intros Hs Hij Ha Hb.
  rewrite <- (take_drop j l) in Hs.
  eapply StronglySorted_app_1_elem_of; [exact Hs | |].
  - apply list_elem_of_lookup. exists i. rewrite lookup_take_lt by exact Hij. exact Ha.
  - apply list_elem_of_lookup. exists 0. rewrite lookup_drop, Nat.add_0_r. exact Hb.
Qed.

(** The sort is stable: the elements of any one key keep the order they
    came in. *)
Lemma insert_desc_stable (k : Z) (x : dated) (l : list dated) :
  StronglySorted key_ge l ->
  filter (fun n => sort_key n = k) (insert_desc x l)
  = filter (fun n => sort_key n = k) (x :: l).
Proof.
  induction 1 as [| y l Hl IH Hy]; simpl; [reflexivity |].
  destruct (Z.ltb_spec (sort_key x) (sort_key y)) as [Hlt | Hge]; [| reflexivity].
  rewrite (filter_cons _ y), IH, !filter_cons.
  repeat case_decide; try reflexivity; lia.
Qed.

Lemma sort_desc_stable (k : Z) (l : list dated) :
  filter (fun n => sort_key n = k) (sort_desc l)
  = filter (fun n => sort_key n = k) l.
Proof.
  induction l as [| x l IH]; simpl; [reflexivity |].
  rewrite insert_desc_stable by apply sort_desc_sorted.
  destruct (decide (sort_key x = k)) as [Hx | Hx].
  - rewrite !(filter_cons_True _ x) by exact Hx. rewrite IH. reflexivity.
  - rewrite !(filter_cons_False _ x) by exact Hx. exact IH.
Qed.

Lemma instant_datetime_min_utc : instant datetime_min_utc = 0%Z.
Proof. reflexivity. Qed.

Lemma cutoff_and_sort_elem (t : Z) (l : list dated) (n : dated) :
  n ∈ cutoff_and_sort t l <-> n ∈ l /\ is_fresh (cutoff_of t) n = true.
Proof.
  unfold cutoff_and_sort. rewrite sort_desc_perm.
  rewrite !list_elem_of_In, filter_In. reflexivity.
Qed.

Lemma cutoff_and_sort_ordered (t : Z) (l : list dated) :
  (weeks 2 < t)%Z -> ordered_by_time (cutoff_and_sort t l).
Proof.
  intros Hnow i j a b Hij Ha Hb.
  assert (Hk : key_ge a b).
  { eapply StronglySorted_lookup; [apply sort_desc_sorted | exact Hij | exact Ha | exact Hb]. }
  assert (Hfb : is_fresh (cutoff_of t) b = true).
  { eapply cutoff_and_sort_elem, list_elem_of_lookup_2, Hb. }
  unfold key_ge, sort_key, is_fresh, cutoff_of in *.
  rewrite instant_datetime_min_utc in Hk.
  split.
  - intros Hna. rewrite Hna in Hk.
    destruct (_dt b) as [tb |]; [| reflexivity].
    apply Z.leb_le in Hfb. lia.
  - intros ta tb Hta Htb. rewrite Hta, Htb in Hk. exact Hk.
Qed.

Lemma is_fresh_not_stale (t : Z) (n : dated) :
  is_fresh (cutoff_of t) n = true <-> ~ stale t n.
Proof.
  unfold is_fresh, cutoff_of, stale. split.
  - intros Hf (dt & Hdt & Hlt). rewrite Hdt in Hf. apply Z.leb_le in Hf. lia.
  - intros Hn. destruct (_dt n) as [dt |]; [| reflexivity].
    apply Z.leb_le. destruct (Z.le_gt_cases (t - weeks 2) (instant dt));
      [assumption |]. exfalso. apply Hn. exists dt. split; [reflexivity | lia].
Qed.

Lemma is_fresh_false_stale (t : Z) (n : dated) :
  is_fresh (cutoff_of t) n = false <-> stale t n.
Proof.
  split.
  - intros Hf. destruct (_dt n) as [dt |] eqn:Hdt.
    + exists dt. split; [exact Hdt |].
      unfold is_fresh, cutoff_of in Hf. rewrite Hdt in Hf.
      apply Z.leb_gt in Hf. lia.
    + unfold is_fresh in Hf. rewrite Hdt in Hf. discriminate Hf.
  - intros Hs. destruct (is_fresh (cutoff_of t) n) eqn:Hf; [| reflexivity].
    apply is_fresh_not_stale in Hf. contradiction.
Qed.

Lemma List_filter_split {A} (f : A -> bool) (l : list A) :
  l ≡ₚ List.filter f l ++ List.filter (fun x => negb (f x)) l.
Proof.
  induction l as [| x l IH]; simpl; [reflexivity |].
  destruct (f x); simpl.
  - constructor. exact IH.
  - rewrite <- Permutation_middle. constructor. exact IH.
Qed.

Lemma List_filter_sublist {A} (f : A -> bool) (l : list A) :
  List.filter f l `sublist_of` l.
Proof.
  induction l as [| x l IH]; simpl; [reflexivity |].
  destruct (f x); [apply sublist_skip | apply sublist_cons]; exact IH.
Qed.

(** C5. The freshness stage of [fetch_all] drops exactly the items whose
    resolved time is known and strictly older than now minus two weeks:
    what comes out of the stage holds an item if and only if the item
    went in and is not of that kind; the list that went in splits into
    the items kept, each as often as it occurred, and the items dropped,
    all of that kind; an item dated now - 13 days stays, one dated
    now - 15 days goes, and an item of unknown time stays whatever the
    clock says; and the list [fetch_all] returns has been through the
    stage: it holds no item of that kind. *)
Theorem freshness_cutoff_spec (t : Z) (l : list dated) :
  (forall n : dated,
      n ∈ cutoff_and_sort t l
      <-> n ∈ l /\ ~ (exists dt, _dt n = Some dt /\ (instant dt < t - weeks 2)%Z))
  /\ (exists kept dropped,
        l ≡ₚ kept ++ dropped
        /\ cutoff_and_sort t l ≡ₚ kept
        /\ kept `sublist_of` l
        /\ Forall (fun n => ~ stale t n) kept
        /\ Forall (stale t) dropped)
  /\ (forall (n : dated) dt,
        n ∈ l -> _dt n = Some dt -> instant dt = (t - days 13)%Z ->
        n ∈ cutoff_and_sort t l)
  /\ (forall (n : dated) dt,
        _dt n = Some dt -> instant dt = (t - days 15)%Z ->
        n ∉ cutoff_and_sort t l)
  /\ (forall n : dated, n ∈ l -> _dt n = None -> n ∈ cutoff_and_sort t l)
  /\ (forall sources final,
        fetch_all sources = Return final ->
        Forall (fun n => ~ stale now n) final).
Proof.
  split; [| split; [| split; [| split; [| split]]]].
  - intros n. rewrite cutoff_and_sort_elem, is_fresh_not_stale. reflexivity.
  - exists (List.filter (is_fresh (cutoff_of t)) l),
           (List.filter (fun n => negb (is_fresh (cutoff_of t) n)) l).
    split; [apply List_filter_split |].
    split; [apply sort_desc_perm |].
    split; [apply List_filter_sublist |].
    split; apply Forall_forall; intros n Hn;
      apply list_elem_of_In, filter_In in Hn; destruct Hn as [_ Hf].
    + apply is_fresh_not_stale, Hf.
    + apply is_fresh_false_stale. apply negb_true_iff, Hf.
  - intros n dt Hin Hdt Hi. apply cutoff_and_sort_elem. split; [exact Hin |].
    unfold is_fresh, cutoff_of, weeks. unfold days in Hi.
    rewrite Hdt, Hi. apply Z.leb_le. lia.
  - intros n dt Hdt Hi Hin. apply cutoff_and_sort_elem in Hin as [_ Hf].
    unfold is_fresh, cutoff_of, weeks in Hf. unfold days in Hi.
    rewrite Hdt, Hi in Hf. apply Z.leb_le in Hf. lia.
  - intros n Hin Hdt. apply cutoff_and_sort_elem. split; [exact Hin |].
    unfold is_fresh. rewrite Hdt. reflexivity.
  - intros sources final H. unfold fetch_all in H. unfold mbind, outcome_bind in H.
    destruct (for_each _ _ _) as [all_news | e]; [| discriminate].
    destruct (mapM set_dt _) as [ds | e]; [| discriminate].
    injection H as <-. apply Forall_forall. intros n Hn.
    apply cutoff_and_sort_elem in Hn as [_ Hf]. apply is_fresh_not_stale, Hf.
Qed.

(** *** The fetchers *)

Lemma rss_item_summary (src : source_config) (e : entry) :
  truncated_summary (rss_item src e).
Proof. eexists. reflexivity. Qed.

Lemma scrape_article_item (src : source_config) (sel : selectors_t) (art : Tag) (n : item) :
  scrape_article src sel art = Some n -> truncated_title n /\ truncated_summary n.
Proof.
  unfold scrape_article.
  set (t := match (if negb (is_a art) then select_one art (sel_title sel) else Some art) with
            | Some el => _clean (get_text el)
            | None => []
            end).
  destruct (is_empty t) eqn:Ht; [discriminate |].
  intros [= <-]. split.
  - exists t. split; [apply is_empty_false, Ht | reflexivity].
  - simpl. destruct (if negb (is_a art) then select_one art (sel_summary sel) else None).
    + eexists. reflexivity.
    + exists []. reflexivity.
Qed.

Lemma _fetch_scrape_items (src : source_config) (l : list item) :
  _fetch_scrape src = Return l ->
  Forall (fun n => truncated_title n /\ truncated_summary n) l.
Proof.
  unfold _fetch_scrape. intros H. outcome_cases H.
  destruct (src_selectors src) as [sel |]; [| discriminate].
  simpl in H. injection H as <-.
  apply Forall_forall. intros n Hn.
  apply list_elem_of_omap in Hn. destruct Hn as (art & _ & Hart).
  eapply scrape_article_item, Hart.
Qed.

Lemma str_or_nonempty (a b : str) : str_or a b <> [] -> a <> [] \/ b <> [].
Proof. unfold str_or. destruct a; simpl; [right | left]; congruence. Qed.

Lemma cls_item_item (src : source_config) (it : pyval) (n : item) :
  cls_item src it = Return (Some n) -> truncated_title n /\ truncated_summary n.
Proof.
  unfold cls_item. intros H. outcome_cases H.
  match type of H with
  | (if is_empty ?d then _ else _) = _ => destruct (is_empty d) eqn:Hd; [discriminate |]
  end.
  injection H as <-. split.
  - eexists. split; [apply is_empty_false, Hd | reflexivity].
  - simpl. match goal with
           | |- context [if ?b then _ else _] => destruct b
           end.
    + eexists. reflexivity.
    + exists []. reflexivity.
Qed.

Lemma cls_loop_items (src : source_config) (roll_data : list pyval) (results l : list item) :
  Forall (fun n => truncated_title n /\ truncated_summary n) results ->
  cls_loop src roll_data results = Return l ->
  Forall (fun n => truncated_title n /\ truncated_summary n) l.
Proof.
  revert results. induction roll_data as [| it rest IH]; simpl; intros results Hr H.
  - injection H as <-. exact Hr.
  - unfold mbind, outcome_bind in H.
    destruct (cls_item src it) as [[n |] | e] eqn:Hit; [| | discriminate].
    + eapply IH; [| exact H].
      apply Forall_app. split; [exact Hr |].
      constructor; [eapply cls_item_item, Hit | constructor].
    + eapply IH; [exact Hr | exact H].
Qed.

Lemma _fetch_cls_api_items (src : source_config) (l : list item) :
  _fetch_cls_api src = Return l ->
  Forall (fun n => truncated_title n /\ truncated_summary n) l.
Proof.
  unfold _fetch_cls_api. intros H. outcome_cases H.
  eapply cls_loop_items; [constructor | exact H].
Qed.

Lemma truncated_title_nonempty (n : item) : truncated_title n -> title n <> [].
Proof. intros (t & Ht & ->). apply _truncate_nonempty, Ht. Qed.

Lemma truncated_title_length (n : item) : truncated_title n -> length (title n) <= 81.
Proof. intros (t & _ & ->). apply _truncate_length. Qed.

Lemma truncated_summary_ok (n : item) : truncated_summary n -> summary_ok n.
Proof. intros (t & Ht). unfold summary_ok. rewrite Ht. apply _truncate_length. Qed.

(** *** [fetch_source] *)

Lemma fetch_source_returns (src : source_config) :
  exists l, fetch_source src = Return l.
Proof.
  unfold fetch_source, try_except.
  destruct (fetch_dispatch src) as [l | e]; eexists; reflexivity.
Qed.

Lemma fetch_source_failure (src : source_config) (e : exn) :
  fetch_dispatch src = Raise e -> fetch_source src = Return [].
Proof. unfold fetch_source, try_except. intros ->. reflexivity. Qed.

Lemma rss_entries_all_fail (urls : list str) (entries : list entry) :
  Forall (fun url => exists e, fetch_feed url = Raise e) urls ->
  rss_entries urls entries = entries.
Proof.
  induction 1 as [| url urls [e He] _ IH]; simpl; [reflexivity |].
  rewrite He. exact IH.
Qed.

Lemma fetch_source_items (src : source_config) (l : list item) :
  fetch_source src = Return l -> Forall summary_ok l.
Proof.
  unfold fetch_source, try_except, fetch_dispatch.
  destruct (str_eqb (src_method src) (u "rss")).
  - intros [= <-]. apply Forall_forall. intros n Hn.
    unfold _fetch_rss in Hn. apply list_elem_of_fmap in Hn.
    destruct Hn as (e & -> & _). apply truncated_summary_ok, rss_item_summary.
  - destruct (str_eqb (src_method src) (u "cls_api")).
    + destruct (_fetch_cls_api src) as [l' | e] eqn:E; intros [= <-]; [| constructor].
      eapply Forall_impl; [eapply _fetch_cls_api_items, E |].
      intros n [_ Hn]. apply truncated_summary_ok, Hn.
    + destruct (_fetch_scrape src) as [l' | e] eqn:E; intros [= <-]; [| constructor].
      eapply Forall_impl; [eapply _fetch_scrape_items, E |].
      intros n [_ Hn]. apply truncated_summary_ok, Hn.
Qed.

(** *** [_parse_time] *)

Lemma assume_utc_aware (dt : datetime) : aware (assume_utc dt).
Proof.
  unfold assume_utc, aware. destruct (tzinfo dt) eqn:E; simpl; congruence.
Qed.

Lemma try_formats_returns (time_str : str) (fmts : list str) :
  strptime_raises_only_ValueError ->
  exists r, try_formats time_str fmts = Return r /\ aware_or_unknown r.
Proof.
  intros Hv. induction fmts as [| fmt rest IH]; simpl.
  - exists None. split; [reflexivity | exact I].
  - destruct (strptime time_str fmt) as [dt | e] eqn:E.
    + exists (Some (assume_utc dt)). split; [reflexivity | apply assume_utc_aware].
    + rewrite (Hv _ _ _ E). exact IH.
Qed.

Lemma datetime_utc_cases (y m d : Z) :
  datetime_utc y m d = Raise ValueError
  \/ exists dt, datetime_utc y m d = Return dt /\ aware dt.
Proof.
  unfold datetime_utc. destruct (_ && _); [right | left; reflexivity].
  eexists. split; [reflexivity | discriminate].
Qed.

Lemma replace_hour_minute_cases (dt : datetime) (h mi : Z) :
  aware dt ->
  replace_hour_minute dt h mi = Raise ValueError
  \/ exists dt', replace_hour_minute dt h mi = Return dt' /\ aware dt'.
Proof.
  intros Ha. unfold replace_hour_minute. destruct (_ && _); [right | left; reflexivity].
  eexists. split; [reflexivity | exact Ha].
Qed.

Lemma parse_by_pattern_returns (time_str : str) :
  exists r, parse_by_pattern time_str = Return r /\ aware_or_unknown r.
Proof.
  unfold parse_by_pattern.
  destruct (re_search match_date_here time_str) as [[[y m] d] |];
    [| exists None; split; [reflexivity | exact I]].
  destruct (datetime_utc_cases y m d) as [-> | (dt & -> & Ha)]; simpl.
  - exists None. split; [reflexivity | exact I].
  - destruct (re_search match_hm_here time_str) as [[h mi] |].
    + destruct (replace_hour_minute_cases dt h mi Ha) as [-> | (dt' & -> & Ha')].
      * exists None. split; [reflexivity | exact I].
      * exists (Some dt'). split; [reflexivity | exact Ha'].
    + exists (Some dt). split; [reflexivity | exact Ha].
Qed.

Lemma _parse_time_returns (time_str : str) :
  strptime_raises_only_ValueError ->
  exists r, _parse_time time_str = Return r /\ aware_or_unknown r.
Proof.
  intros Hv. unfold _parse_time.
  destruct (is_empty time_str); [exists None; split; [reflexivity | exact I] |].
  destruct (parsedate_to_datetime (strip time_str)) as [dt | e].
  - exists (Some (assume_utc dt)). split; [reflexivity | apply assume_utc_aware].
  - destruct (try_formats_returns (strip time_str) _TIME_FORMATS Hv) as ([dt |] & -> & Ha);
      simpl.
    + exists (Some dt). split; [reflexivity | exact Ha].
    + apply parse_by_pattern_returns.
Qed.

(** C6. On every input string [_parse_time] returns, and what it returns is
    the unknown sentinel or a timezone-aware timestamp; no exception
    leaves it, given that [strptime] raises nothing but ValueError on a
    string it cannot parse; and equal inputs give equal results. *)
Theorem _parse_time_total :
  strptime_raises_only_ValueError ->
  (forall time_str : str,
      exists r, _parse_time time_str = Return r /\ aware_or_unknown r)
  /\ (forall s1 s2 : str, s1 = s2 -> _parse_time s1 = _parse_time s2).
Proof.
  intros Hv. split.
  - intros time_str. apply _parse_time_returns, Hv.
  - intros s1 s2 ->. reflexivity.
Qed.

(** C8. [fetch_source] returns a list for every source configuration, and
    the empty list whenever the fetcher it calls fails: a request that
    raises, a payload that is not the expected dict, a missing selector
    table, or every feed URL failing. *)
Theorem fetch_source_never_raises (src : source_config) :
  (exists l, fetch_source src = Return l)
  /\ (forall e, fetch_dispatch src = Raise e -> fetch_source src = Return [])
  /\ (forall e, src_method src = u "cls_api" ->
                fetch_json (src_url src) = Raise e -> fetch_source src = Return [])
  /\ (forall v, src_method src = u "cls_api" ->
                fetch_json (src_url src) = Return v ->
                (forall kvs, v <> PDict kvs) -> fetch_source src = Return [])
  /\ (forall e, src_method src <> u "rss" -> src_method src <> u "cls_api" ->
                fetch_page (src_url src) = Raise e -> fetch_source src = Return [])
  /\ (src_method src <> u "rss" -> src_method src <> u "cls_api" ->
      src_selectors src = None -> fetch_source src = Return [])
  /\ (src_method src = u "rss" ->
      Forall (fun url => exists e, fetch_feed url = Raise e)
             (src_url src :: src_alt_urls src) ->
      fetch_source src = Return []).
Proof.
  split; [apply fetch_source_returns |].
  split; [apply fetch_source_failure |].
  unfold fetch_source, try_except, fetch_dispatch, str_eqb.
  repeat split.
  - intros e Hm He. rewrite Hm. simpl.
    unfold _fetch_cls_api. rewrite He. reflexivity.
  - intros v Hm Hv Hnd. rewrite Hm. simpl.
    unfold _fetch_cls_api. rewrite Hv. simpl.
    destruct v; try reflexivity. exfalso. eapply Hnd. reflexivity.
  - intros e H1 H2 He.
    rewrite !bool_decide_eq_false_2 by assumption.
    unfold _fetch_scrape. rewrite He. reflexivity.
  - intros H1 H2 Hs.
    rewrite !bool_decide_eq_false_2 by assumption.
    unfold _fetch_scrape. rewrite Hs.
    destruct (fetch_page (src_url src)); reflexivity.
  - intros Hm Hall. rewrite Hm. simpl.
    unfold _fetch_rss. rewrite rss_entries_all_fail by exact Hall. reflexivity.
Qed.

(** *** Translation batches *)

Lemma total_chars_app (a b : list str) :
  total_chars (a ++ b) = total_chars a + total_chars b.
Proof. apply sum_list_with_app. Qed.

Lemma total_chars_singleton (t : str) : total_chars [t] = length t.
Proof. unfold total_chars. simpl. lia. Qed.

Lemma _flush_batch_calls (st : tstate) :
  calls (_flush_batch st)
  = calls st ++ match batch_texts st with [] => [] | b => [b] end.
Proof.
  unfold _flush_batch. destruct (batch_texts st) as [| t b].
  - rewrite app_nil_r. reflexivity.
  - destruct (translate_batch _ _); reflexivity.
Qed.

Lemma batches_loop_calls (todo : list (nat * str)) (st : tstate) :
  calls (_flush_batch (foldl batch_step st todo))
  = calls st ++ batches_from (batch_texts st) (batch_char_count st) (todo.*2).
Proof.
  revert st. induction todo as [| p todo IH]; intros st.
  - simpl. rewrite _flush_batch_calls. destruct (batch_texts st); reflexivity.
  - simpl foldl. rewrite IH. clear IH. unfold batch_step. simpl.
    destruct (batch_texts st) as [| t0 b0] eqn:Hb.
    + rewrite andb_false_r. simpl. rewrite Hb. reflexivity.
    + rewrite andb_true_r.
      destruct (4500 <? batch_char_count st + length p.2); simpl.
      * rewrite _flush_batch_calls, Hb, <- app_assoc. reflexivity.
      * rewrite Hb. reflexivity.
Qed.

Lemma _translate_summaries_calls (its : list item) :
  calls (_translate_summaries its) = batches_from [] 0 ((to_translate its).*2).
Proof.
  unfold _translate_summaries.
  destruct (to_translate its) as [| p todo] eqn:E; [reflexivity |].
  rewrite batches_loop_calls. reflexivity.
Qed.

Lemma batches_from_concat (todo cur : list str) (cnt : nat) :
  concat (batches_from cur cnt todo) = cur ++ todo.
Proof.
  revert cur cnt. induction todo as [| t rest IH]; intros cur cnt; simpl.
  - destruct cur; simpl; rewrite ?app_nil_r; reflexivity.
  - destruct (_ && _); simpl.
    + rewrite IH. reflexivity.
    + rewrite IH, <- app_assoc. reflexivity.
Qed.

Lemma batches_from_budget (todo cur : list str) (cnt : nat) :
  cnt = total_chars cur ->
  (total_chars cur <= 4500 \/ exists t, cur = [t]) ->
  Forall (fun b => b <> [] /\ (total_chars b <= 4500 \/ exists t, b = [t]))
         (batches_from cur cnt todo).
Proof.
  revert cur cnt. induction todo as [| t rest IH]; intros cur cnt Hcnt Hcur; simpl.
  - destruct cur as [| c cur']; constructor; [| constructor].
    split; [discriminate | exact Hcur].
  - destruct cur as [| c cur'].
    + rewrite andb_false_r. apply IH.
      * rewrite Hcnt, total_chars_app, total_chars_singleton. reflexivity.
      * right. exists t. reflexivity.
    + rewrite andb_true_r.
      destruct (Nat.ltb_spec 4500 (cnt + length t)) as [Hlt | Hle].
      * constructor; [split; [discriminate | exact Hcur] |].
        apply IH; [rewrite total_chars_singleton; reflexivity |].
        right. exists t. reflexivity.
      * apply IH.
        -- rewrite Hcnt, total_chars_app, total_chars_singleton. reflexivity.
        -- left. rewrite total_chars_app, total_chars_singleton, <- Hcnt. exact Hle.
Qed.




Lemma batches_within_budget (todo : list str) :
  Forall (fun t => length t <= 4500) todo ->
  Forall (fun b => total_chars b <= 4500) (batches_from [] 0 todo).
Proof.
  intros Hall.
  pose proof (batches_from_budget todo [] 0 eq_refl (or_introl (Nat.le_0_l _))) as Hb.
  pose proof (batches_from_concat todo [] 0) as Hc. simpl in Hc.
  rewrite Forall_forall in Hall. rewrite Forall_forall in Hb.
  apply Forall_forall. intros b Hin.
  destruct (Hb b Hin) as [_ [Hle | [t ->]]]; [exact Hle |].
  rewrite total_chars_singleton. apply Hall. rewrite <- Hc.
  apply list_elem_of_In, in_concat. exists [t].
  split; [apply list_elem_of_In, Hin | left; reflexivity].
Qed.

(** *** The summary bound through the stages *)

Lemma set_summary_ok (t : str) (n : item) : summary_ok (set_summary (_truncate t 500) n).
Proof. unfold summary_ok. simpl. apply _truncate_length. Qed.

Lemma apply_desc_ok (desc : str) (n : item) : summary_ok n -> summary_ok (apply_desc desc n).
Proof.
  intros Hn. unfold apply_desc. destruct (_ && _); [apply set_summary_ok | exact Hn].
Qed.

Lemma enrich_ok (filtered : list item) :
  Forall summary_ok filtered -> Forall summary_ok (enrich filtered).
Proof.
  intros Hall. apply Forall_lookup. intros i n Hi.
  unfold enrich in Hi. rewrite list_lookup_imap in Hi.
  destruct (filtered !! i) as [m |] eqn:Hm; [| discriminate].
  simpl in Hi. injection Hi as <-.
  pose proof (proj1 (Forall_lookup _ _) Hall i m Hm) as Hok.
  destruct (needs_enrich m); [apply apply_desc_ok, Hok | exact Hok].
Qed.

Lemma apply_result_ok (st : list item * nat) (p : nat * option str) :
  Forall summary_ok st.1 -> Forall summary_ok (apply_result st p).1.
Proof.
  intros Hall. unfold apply_result. destruct p.2 as [result |]; [| exact Hall].
  destruct (_ && _); [| exact Hall]. simpl.
  apply Forall_alter; [exact Hall |]. intros n _ _. apply set_summary_ok.
Qed.

Lemma foldl_apply_result_ok (ps : list (nat * option str)) (st : list item * nat) :
  Forall summary_ok st.1 -> Forall summary_ok (foldl apply_result st ps).1.
Proof.
  revert st. induction ps as [| p ps IH]; intros st Hall; simpl; [exact Hall |].
  apply IH, apply_result_ok, Hall.
Qed.

Lemma _flush_batch_ok (st : tstate) :
  Forall summary_ok (items st) -> Forall summary_ok (items (_flush_batch st)).
Proof.
  intros Hall. unfold _flush_batch. destruct (batch_texts st); [exact Hall |].
  destruct (translate_batch _ _); simpl; [| exact Hall].
  apply foldl_apply_result_ok. exact Hall.
Qed.

Lemma batch_step_ok (st : tstate) (p : nat * str) :
  Forall summary_ok (items st) -> Forall summary_ok (items (batch_step st p)).
Proof.
  intros Hall. unfold batch_step. simpl.
  destruct (_ && _); simpl; [apply _flush_batch_ok, Hall | exact Hall].
Qed.

Lemma foldl_batch_step_ok (todo : list (nat * str)) (st : tstate) :
  Forall summary_ok (items st) ->
  Forall summary_ok (items (foldl batch_step st todo)).
Proof.
  revert st. induction todo as [| p todo IH]; intros st Hall; simpl; [exact Hall |].
  apply IH, batch_step_ok, Hall.
Qed.

Lemma _translate_summaries_ok (its : list item) :
  Forall summary_ok its -> Forall summary_ok (items (_translate_summaries its)).
Proof.
  intros Hall. unfold _translate_summaries.
  destruct (to_translate its); [exact Hall |].
  apply _flush_batch_ok, foldl_batch_step_ok. exact Hall.
Qed.

Lemma to_translate_summaries (its : list item) (p : nat * str) :
  p ∈ to_translate its -> exists n, its !! p.1 = Some n /\ p.2 = summary n.
Proof.
  unfold to_translate. intros Hp. apply list_elem_of_omap in Hp.
  destruct Hp as ([i n] & Hin & Hsel). simpl in Hsel.
  apply list_elem_of_lookup in Hin. destruct Hin as [k Hk].
  rewrite list_lookup_imap in Hk.
  destruct (its !! k) as [m |] eqn:Hm; [| discriminate].
  simpl in Hk. injection Hk as <- <-.
  destruct (_ && _); [| discriminate]. injection Hsel as <-.
  exists m. split; [exact Hm | reflexivity].
Qed.

Lemma to_translate_ok (its : list item) :
  Forall summary_ok its -> Forall (fun t : str => length t <= 501) ((to_translate its).*2).
Proof.
  intros Hall. apply Forall_fmap, Forall_forall. intros p Hp.
  destruct (to_translate_summaries its p Hp) as (n & Hn & E).
  unfold compose. rewrite E.
  exact (proj1 (Forall_lookup _ _) Hall _ _ Hn).
Qed.

(** *** The pipeline *)

Lemma gather_returns (srcs : list source_config) (acc : list item) :
  exists all_news,
    for_each (fun all_news s => its ← fetch_source s; Return (all_news ++ its)) srcs acc
    = Return all_news
    /\ (Forall summary_ok acc -> Forall summary_ok all_news).
Proof.
  revert acc. induction srcs as [| s srcs IH]; intros acc; simpl.
  - exists acc. split; [reflexivity | tauto].
  - destruct (fetch_source_returns s) as [l Hl]. rewrite Hl. simpl.
    destruct (IH (acc ++ l)) as (all_news & -> & Hok).
    exists all_news. split; [reflexivity |].
    intros Hacc. apply Hok, Forall_app. split; [exact Hacc |].
    eapply fetch_source_items, Hl.
Qed.

Lemma mapM_set_dt_returns (l : list item) :
  strptime_raises_only_ValueError ->
  exists ds, mapM set_dt l = Return ds /\ news <$> ds = l.
Proof.
  intros Hv. induction l as [| n l IH].
  - exists []. split; reflexivity.
  - destruct (_parse_time_returns (time n) Hv) as (r & Hr & _).
    destruct IH as (ds & Hds & E).
    exists ({| news := n; _dt := r |} :: ds). split; [| rewrite fmap_cons, E; reflexivity].
    change (mapM set_dt (n :: l))
      with (y ← set_dt n; k ← mapM set_dt l; mret (y :: k)).
    assert (Hn : set_dt n = Return {| news := n; _dt := r |}).
    { unfold set_dt. rewrite Hr. reflexivity. }
    rewrite Hn. simpl. rewrite Hds. reflexivity.
Qed.

Lemma filter_ok {A} (P : A -> Prop) (f : A -> bool) (l : list A) :
  Forall P l -> Forall P (List.filter f l).
Proof.
  rewrite !Forall_forall. intros H x Hx.
  apply list_elem_of_In, filter_In in Hx. apply H, list_elem_of_In, Hx.
Qed.

Lemma per_source_cap_ok (l : list item) :
  Forall summary_ok l -> Forall summary_ok (per_source_cap l).
Proof.
  rewrite !Forall_forall. intros H x Hx.
  apply H. exact (sublist_subseteq _ _ (per_source_cap_sublist l) x Hx).
Qed.

(** The list [fetch_all] returns, spelled out. *)
Lemma fetch_all_returns (sources : list source_config) :
  strptime_raises_only_ValueError ->
  exists all_news ds,
    fetch_all sources = Return (cutoff_and_sort now ds)
    /\ Forall summary_ok all_news
    /\ news <$> ds
       = items (_translate_summaries
                  (enrich (per_source_cap (List.filter _matches_keywords all_news)))).
Proof.
  intros Hv. unfold fetch_all.
  destruct (gather_returns (as_completed sources) []) as (all_news & -> & Hok). simpl.
  destruct (mapM_set_dt_returns
              (items (_translate_summaries
                        (enrich (per_source_cap (List.filter _matches_keywords all_news)))))
              Hv) as (ds & -> & E).
  simpl. exists all_news, ds.
  split; [reflexivity |]. split; [apply Hok; constructor | exact E].
Qed.

Lemma fetch_all_ok (sources : list source_config) (final : list dated) :
  strptime_raises_only_ValueError ->
  fetch_all sources = Return final -> Forall (fun n => summary_ok (news n)) final.
Proof.
  intros Hv Hf.
  destruct (fetch_all_returns sources Hv) as (all_news & ds & E & Hok & Hds).
  rewrite E in Hf. injection Hf as <-.
  assert (Hall : Forall (fun n => summary_ok (news n)) ds).
  { apply (proj1 (Forall_fmap news summary_ok ds)). rewrite Hds.
    apply _translate_summaries_ok, enrich_ok, per_source_cap_ok, filter_ok, Hok. }
  rewrite Forall_forall in Hall. apply Forall_forall. intros n Hn.
  apply cutoff_and_sort_elem in Hn. apply Hall, Hn.
Qed.

(** *** The claims about the fetched items *)

(** C2, as the code has it.  [_truncate] leaves a text of at most [n]
    characters alone and cuts a longer one to its first [n] characters
    followed by the ellipsis, [n + 1] characters in all.  The summary of
    every fetched item is a text cut at 500, so it has at most 501
    characters; the title of every item of the scrape and the API
    fetchers is a text cut at 80, so it has at most 81. *)
Theorem fetched_lengths :
  (forall (text : str) n,
      (length text <= n -> _truncate text n = text)
      /\ (n < length text ->
          _truncate text n = take n text ++ [ELLIPSIS]
          /\ length (_truncate text n) = n + 1))
  /\ (forall src n,
        n ∈ _fetch_rss src -> truncated_summary n /\ length (summary n) <= 501)
  /\ (forall src l n,
        _fetch_scrape src = Return l -> n ∈ l ->
        truncated_title n /\ truncated_summary n
        /\ length (title n) <= 81 /\ length (summary n) <= 501)
  /\ (forall src l n,
        _fetch_cls_api src = Return l -> n ∈ l ->
        truncated_title n /\ truncated_summary n
        /\ length (title n) <= 81 /\ length (summary n) <= 501).
Proof.
  split; [| split; [| split]].
  - intros text n. split; [apply _truncate_short |].
    intros H. rewrite _truncate_long by exact H. split; [reflexivity |].
    rewrite length_app, length_take. simpl. lia.
  - intros src n Hn. unfold _fetch_rss in Hn.
    apply list_elem_of_fmap in Hn. destruct Hn as (e & -> & _).
    split; [apply rss_item_summary | apply truncated_summary_ok, rss_item_summary].
  - intros src l n Hl Hn.
    pose proof (proj1 (Forall_forall _ _) (_fetch_scrape_items src l Hl) n Hn) as [Ht Hs].
    repeat split; try assumption;
      [apply truncated_title_length, Ht | apply truncated_summary_ok, Hs].
  - intros src l n Hl Hn.
    pose proof (proj1 (Forall_forall _ _) (_fetch_cls_api_items src l Hl) n Hn) as [Ht Hs].
    repeat split; try assumption;
      [apply truncated_title_length, Ht | apply truncated_summary_ok, Hs].
Qed.

(** The sibling fetchers do drop what has no title: every item of the
    scrape and of the API fetcher has a non-empty title. *)
Lemma scrape_and_api_titles_nonempty (src : source_config) (l : list item) :
  _fetch_scrape src = Return l \/ _fetch_cls_api src = Return l ->
  Forall (fun n => title n <> []) l.
Proof.
  intros [H | H]; [apply _fetch_scrape_items in H | apply _fetch_cls_api_items in H];
    (eapply Forall_impl; [exact H |]); intros n [Ht _];
    apply truncated_title_nonempty, Ht.
Qed.

(** C4. The list [fetch_all] returns has every item of known resolved
    time before every item of unknown time, and the known times in
    non-increasing order.  The clock is taken to read later than two
    weeks after [datetime.min], and [strptime] to raise nothing but
    ValueError. *)
Theorem final_list_ordered (sources : list source_config) :
  strptime_raises_only_ValueError ->
  (weeks 2 < now)%Z ->
  exists final, fetch_all sources = Return final /\ ordered_by_time final.
Proof.
  intros Hv Hnow.
  destruct (fetch_all_returns sources Hv) as (all_news & ds & E & _ & _).
  eexists. split; [exact E |]. apply cutoff_and_sort_ordered, Hnow.
Qed.


(** C9. Every summary stored on an item has at most 501 characters: those
    the three fetchers build, so whatever [fetch_source] returns; the
    ones enrichment writes; the ones translation writes; and so the ones
    in the list [fetch_all] returns.  Every text handed to the batcher
    is therefore far below the budget of 4500, and so is every batch. *)
Theorem summary_bound_invariant :
  (forall src l, fetch_source src = Return l -> Forall summary_ok l)
  /\ (forall desc n, summary_ok n -> summary_ok (apply_desc desc n))
  /\ (forall filtered, Forall summary_ok filtered -> Forall summary_ok (enrich filtered))
  /\ (forall its, Forall summary_ok its ->
                  Forall summary_ok (items (_translate_summaries its)))
  /\ (forall its, Forall summary_ok its ->
                  Forall (fun t : str => length t <= 501 /\ length t < 4500)
                         ((to_translate its).*2)
                  /\ Forall (fun b => total_chars b <= 4500)
                            (calls (_translate_summaries its)))
  /\ (strptime_raises_only_ValueError ->
      forall sources final,
        fetch_all sources = Return final ->
        Forall (fun n => summary_ok (news n)) final).
Proof.
  split; [apply fetch_source_items |].
  split; [apply apply_desc_ok |].
  split; [apply enrich_ok |].
  split; [apply _translate_summaries_ok |].
  split.
  - intros its Hok. split.
    + eapply Forall_impl; [apply to_translate_ok, Hok |]. simpl. intros t Ht. lia.
    + rewrite _translate_summaries_calls. apply batches_within_budget.
      eapply Forall_impl; [apply to_translate_ok, Hok |]. simpl. intros t Ht. lia.
  - intros Hv sources final. apply fetch_all_ok, Hv.
Qed.

(** C10. An item whose title is empty has a useless summary whatever the
    summary is, 150 characters or more included, since every string
    starts with the empty prefix; with a link that counts as true it is
    therefore always among the items to enrich.  The RSS fetcher builds
    such an item from an entry that has no title. *)
Theorem empty_title_always_useless :
  lower [] = [] ->
  (forall summary : str, _is_summary_useless [] summary = true)
  /\ (forall n, title n = [] -> truthy (link n) = true -> needs_enrich n = true)
  /\ (forall filtered i n,
        filtered !! i = Some n -> title n = [] -> truthy (link n) = true ->
        i ∈ need_enrich filtered)
  /\ (forall src e, e_title e = None -> title (rss_item src e) = []).
Proof.
  intros Hlower.
  assert (Hu : forall summary : str, _is_summary_useless [] summary = true).
  { intros summary. unfold _is_summary_useless.
    destruct (_ || _); [reflexivity |]. rewrite Hlower. simpl.
    destruct (strip (lower summary)); reflexivity. }
  assert (Hn : forall n, title n = [] -> truthy (link n) = true -> needs_enrich n = true).
  { intros n Ht Hl. unfold needs_enrich. rewrite Ht, Hu, Hl. reflexivity. }
  split; [exact Hu |]. split; [exact Hn |]. split.
  - intros filtered i n Hi Ht Hl. unfold need_enrich.
    apply list_elem_of_In, filter_In. split.
    + apply in_seq. apply lookup_lt_Some in Hi. lia.
    + rewrite Hi. apply Hn; assumption.
  - intros src e He. unfold rss_item. simpl. rewrite He. reflexivity.
Qed.

(** *** Further properties of the text helpers *)

(** X1. Cutting twice is cutting once, and the first [n] characters of a
    text always survive the cut. *)
Theorem _truncate_idempotent (text : str) (n : nat) :
  _truncate (_truncate text n) n = _truncate text n
  /\ take n (_truncate text n) = take n text.
Proof.
  destruct (Nat.le_gt_cases (length text) n) as [H | H].
  - rewrite (_truncate_short text n H). rewrite (_truncate_short text n H).
    split; reflexivity.
  - rewrite (_truncate_long text n H).
    assert (Hl : length (take n text) = n) by (rewrite length_take; lia).
    assert (Ht : take n (take n text ++ [ELLIPSIS]) = take n text).
    { apply take_app_length'. symmetry. exact Hl. }
    split; [| exact Ht].
    rewrite _truncate_long by (rewrite length_app, Hl; simpl; lia).
    rewrite Ht. reflexivity.
Qed.

Lemma sub_tags_pending_app (b rest : str) (buf : str) :
  Forall (fun c => c <> GT) b ->
  sub_tags (Some buf) (b ++ rest) = sub_tags (Some (rev b ++ buf)) rest.
Proof.
  intros Hb. revert buf. induction Hb as [| c b Hc Hb IH]; intros buf; [reflexivity |].
  simpl. destruct (N.eqb_spec c GT) as [-> | _]; [congruence |].
  rewrite IH, <- app_assoc. reflexivity.
Qed.

Lemma sub_tags_pending_open (b buf : str) :
  Forall (fun c => c <> GT) b ->
  sub_tags (Some buf) b = LT :: rev buf ++ b.
Proof.
  intros Hb. rewrite <- (app_nil_r b) at 1. rewrite sub_tags_pending_app by exact Hb.
  simpl. rewrite rev_app_distr, rev_involutive. reflexivity.
Qed.

Lemma sub_tags_fixed (s : str) :
  sub_tags None (sub_tags None s) = sub_tags None s
  /\ forall buf, Forall (fun c => c <> GT) buf ->
                 sub_tags None (sub_tags (Some buf) s) = sub_tags (Some buf) s.
Proof.
  induction s as [| c s [IHn IHs]].
  - split; [reflexivity |]. intros buf Hb. simpl.
    rewrite sub_tags_pending_open by (apply Forall_rev, Hb). reflexivity.
  - split.
    + simpl. destruct (N.eqb_spec c LT) as [-> | Hc].
      * apply IHs. constructor.
      * simpl. destruct (N.eqb_spec c LT); [congruence |]. rewrite IHn. reflexivity.
    + intros buf Hb. simpl. destruct (N.eqb_spec c GT) as [-> | Hc].
      * destruct buf; [| exact IHn]. simpl. rewrite IHn. reflexivity.
      * apply IHs. constructor; assumption.
Qed.

Lemma sub_tags_length (s : str) (pending : option str) :
  length (sub_tags pending s) <= pending_length pending + length s.
Proof.
  revert pending. induction s as [| c s IH]; intros pending.
  - destruct pending as [buf |]; simpl; [rewrite length_rev |]; lia.
  - destruct pending as [buf |]; simpl.
    + destruct (c =? GT)%N.
      * destruct buf; simpl; pose proof (IH None); simpl in *; lia.
      * pose proof (IH (Some (c :: buf))). simpl in *. lia.
    + destruct (c =? LT)%N; simpl.
      * pose proof (IH (Some [])). simpl in *. lia.
      * pose proof (IH None). simpl in *. lia.
Qed.

Lemma sub_tags_shrinks (a b c : str) (pending : option str) :
  b <> [] -> Forall (fun x => x <> GT) b ->
  length (sub_tags pending (a ++ LT :: b ++ GT :: c))
  < pending_length pending + length (a ++ LT :: b ++ GT :: c).
Proof.
  intros Hne Hb. revert pending. induction a as [| x a IH]; intros pending.
  - assert (Hclose : forall buf,
               sub_tags (Some buf) (b ++ GT :: c) = sub_tags None c).
    { intros buf. rewrite sub_tags_pending_app by exact Hb. simpl.
      destruct (rev b ++ buf) eqn:E; [| reflexivity].
      apply app_eq_nil in E. destruct E as [E _].
      apply (f_equal (@rev N)) in E. rewrite rev_involutive in E. contradiction. }
    pose proof (sub_tags_length c None) as Hc. simpl in Hc.
    destruct pending as [buf |]; simpl; rewrite Hclose, !length_app; simpl; lia.
  - destruct pending as [buf |]; simpl.
    + destruct (x =? GT)%N.
      * destruct buf; simpl; pose proof (IH None); simpl in *; lia.
      * pose proof (IH (Some (x :: buf))). simpl in *. lia.
    + destruct (x =? LT)%N; simpl.
      * pose proof (IH (Some [])). simpl in *. lia.
      * pose proof (IH None). simpl in *. lia.
Qed.

(** X2. The tag stripping of [_clean] leaves no tag behind: its result
    holds no '<', one or more characters other than '>', '>'; stripping
    again changes nothing; the result is never longer than the text; and
    a text without '<' comes back as it is. *)
Theorem sub_tags_leaves_no_tag (s : str) :
  (forall a b c, sub_tags None s = a ++ LT :: b ++ GT :: c ->
                 b = [] \/ GT ∈ b)
  /\ sub_tags None (sub_tags None s) = sub_tags None s
  /\ length (sub_tags None s) <= length s
  /\ (LT ∉ s -> sub_tags None s = s).
Proof.
  split; [| split; [| split]].
  - intros a b c E.
    destruct b as [| b0 b']; [left; reflexivity | right].
    destruct (decide (GT ∈ b0 :: b')) as [Hin | Hnot]; [exact Hin | exfalso].
    assert (Hb : Forall (fun x => x <> GT) (b0 :: b')).
    { apply Forall_forall. intros x Hx ->. contradiction. }
    pose proof (sub_tags_shrinks a (b0 :: b') c None ltac:(discriminate) Hb) as Hlt.
    rewrite <- E, (proj1 (sub_tags_fixed s)) in Hlt. simpl in Hlt. lia.
  - apply sub_tags_fixed.
  - apply (sub_tags_length s None).
  - induction s as [| x s IH]; intros Hn; [reflexivity |].
    simpl. destruct (N.eqb_spec x LT) as [-> | _].
    + exfalso. apply Hn. left.
    + rewrite IH; [reflexivity |]. intros H. apply Hn. right. exact H.
Qed.

Lemma sub_spaces_only_spaces (s : str) (in_run : bool) (c : N) :
  c ∈ sub_spaces in_run s -> isspace c = true -> c = SPACE.
Proof.
  revert in_run. induction s as [| x s IH]; intros in_run Hc Hs; simpl in Hc.
  - inversion Hc.
  - destruct (isspace x) eqn:Ex.
    + destruct in_run; [eapply IH; eassumption |].
      apply elem_of_cons in Hc. destruct Hc as [-> | Hc]; [reflexivity |].
      eapply IH; eassumption.
    + apply elem_of_cons in Hc. destruct Hc as [-> | Hc]; [congruence |].
      eapply IH; eassumption.
Qed.

Lemma sub_spaces_head (s : str) (c : N) (rest : str) :
  sub_spaces true s = c :: rest -> isspace c = false.
Proof.
  revert c rest. induction s as [| x s IH]; intros c rest E; simpl in E; [discriminate |].
  destruct (isspace x) eqn:Ex; [eapply IH, E |].
  injection E as <- _. exact Ex.
Qed.

Lemma sub_spaces_no_run (s : str) (in_run : bool) (a : str) (x y : N) (b : str) :
  sub_spaces in_run s = a ++ x :: y :: b -> isspace x = true -> isspace y = false.
Proof.
  revert in_run a. induction s as [| c s IH]; intros in_run a E Hx; simpl in E.
  - destruct a; discriminate.
  - destruct (isspace c) eqn:Ec.
    + destruct in_run; [eapply IH; eassumption |].
      destruct a as [| a0 a]; simpl in E.
      * injection E as _ E. eapply sub_spaces_head, E.
      * injection E as _ E. eapply IH; eassumption.
    + destruct a as [| a0 a]; simpl in E.
      * injection E as <- _. congruence.
      * injection E as _ E. eapply IH; eassumption.
Qed.

Lemma lstrip_suffix (s : str) : exists l, s = l ++ lstrip s.
Proof.
  induction s as [| c s [l IH]]; [exists []; reflexivity |].
  simpl. destruct (isspace c).
  - exists (c :: l). simpl. rewrite <- IH. reflexivity.
  - exists []. reflexivity.
Qed.

Lemma lstrip_head (s : str) (c : N) (rest : str) :
  lstrip s = c :: rest -> isspace c = false.
Proof.
  induction s as [| x s IH]; simpl; [discriminate |].
  destruct (isspace x) eqn:Ex; [exact IH |].
  intros [= <- _]. exact Ex.
Qed.

Lemma strip_infix (s : str) : exists l r, s = l ++ strip s ++ r.
Proof.
  unfold strip, rstrip.
  destruct (lstrip_suffix s) as [l El].
  destruct (lstrip_suffix (rev (lstrip s))) as [r Er].
  exists l, (rev r). rewrite <- rev_app_distr, <- Er, rev_involutive. exact El.
Qed.

Lemma strip_ends (s : str) :
  (forall c rest, strip s = c :: rest -> isspace c = false)
  /\ (forall pre c, strip s = pre ++ [c] -> isspace c = false).
Proof.
  assert (Hlast : forall pre c, strip s = pre ++ [c] -> isspace c = false).
  { intros pre c E. unfold strip, rstrip in E.
    apply (f_equal (@rev N)) in E. rewrite rev_involutive, rev_app_distr in E.
    simpl in E. eapply lstrip_head, E. }
  split; [| exact Hlast].
  intros c rest E.
  destruct (lstrip s) as [| x t] eqn:Et.
  - unfold strip in E. rewrite Et in E. discriminate.
  - pose proof (lstrip_head s x t Et) as Hx.
    unfold strip in E. rewrite Et in E. unfold rstrip in E.
    destruct (lstrip_suffix (rev (x :: t))) as [r Er].
    assert (E2 : x :: t = strip s ++ rev r).
    { unfold strip, rstrip. rewrite Et.
      rewrite <- rev_app_distr, <- Er, rev_involutive. reflexivity. }
    unfold strip, rstrip in E2. rewrite Et, E in E2.
    injection E2 as -> _. exact Hx.
Qed.

(** X3. Whatever [html.unescape] does, the text [_clean] returns has its
    white space normalised: every white-space character in it is a plain
    space, no two stand together, and none stands first or last. *)
Theorem _clean_ws_normal (text : str) : ws_normal (_clean text).
Proof.
  unfold _clean. destruct (is_empty text).
  { repeat split; intros.
    - inversion H.
    - destruct a; discriminate.
    - discriminate.
    - destruct pre; discriminate. }
  set (t := sub_spaces false (unescape (sub_tags None text))).
  destruct (strip_infix t) as (l & r & Et).
  destruct (strip_ends t) as [Hh Hl].
  split; [| split; [| split]].
  - intros c Hc. apply (sub_spaces_only_spaces (unescape (sub_tags None text)) false).
    fold t. rewrite Et. apply elem_of_app. right. apply elem_of_app. left. exact Hc.
  - intros a x y b E.
    apply (sub_spaces_no_run (unescape (sub_tags None text)) false (l ++ a) x y (b ++ r)).
    fold t. rewrite Et at 1. rewrite E, <- !app_assoc. reflexivity.
  - exact Hh.
  - exact Hl.
Qed.

(** *** Further properties of the fetchers *)

Lemma rss_entries_skip (pre rest : list str) :
  Forall feed_gives_nothing pre ->
  rss_entries (pre ++ rest) [] = rss_entries rest [].
Proof.
  induction 1 as [| url pre Hu _ IH]; [reflexivity |].
  simpl. destruct Hu as [[e ->] | ->]; exact IH.
Qed.

Lemma rss_entries_length (urls : list str) (entries : list entry) :
  length entries <= MAX_ITEMS_PER_SOURCE ->
  length (rss_entries urls entries) <= MAX_ITEMS_PER_SOURCE.
Proof.
  revert entries. induction urls as [| url urls IH]; intros entries He; simpl; [exact He |].
  destruct (fetch_feed url) as [es | e]; [| apply IH, He].
  destruct (take MAX_ITEMS_PER_SOURCE es) as [| x t] eqn:E.
  - apply IH. simpl. lia.
  - rewrite <- E, length_take. lia.
Qed.

(** X4. The feed walk: the first URL, primary then alternatives in
    order, whose feed has an entry decides the result, which is the
    first five entries of that feed, in feed order, whatever the later
    URLs would give; when no URL yields an entry the result is empty;
    and there are never more than five items. *)
Theorem _fetch_rss_first_feed_wins (src : source_config) :
  length (_fetch_rss src) <= 5
  /\ (forall pre url post es,
        src_url src :: src_alt_urls src = pre ++ url :: post ->
        Forall feed_gives_nothing pre ->
        fetch_feed url = Return es -> es <> [] ->
        _fetch_rss src = rss_item src <$> take 5 es)
  /\ (Forall feed_gives_nothing (src_url src :: src_alt_urls src) ->
      _fetch_rss src = []).
Proof.
  unfold _fetch_rss. split; [| split].
  - rewrite length_fmap. apply rss_entries_length. simpl. lia.
  - intros pre url post es Hurls Hpre Hes Hne.
    rewrite Hurls, rss_entries_skip by exact Hpre. simpl. rewrite Hes.
    destruct es as [| e0 es]; [congruence |]. reflexivity.
  - intros Hall.
    rewrite <- (app_nil_r (src_url src :: src_alt_urls src)).
    rewrite rss_entries_skip by exact Hall. reflexivity.
Qed.

Lemma scrape_article_tagged (src : source_config) (sel : selectors_t) (art : Tag) (n : item) :
  scrape_article src sel art = Some n -> tagged_with src n.
Proof.
  unfold scrape_article. destruct (is_empty _); [discriminate |].
  intros [= <-]. split; reflexivity.
Qed.

Lemma cls_item_tagged (src : source_config) (it : pyval) (n : item) :
  cls_item src it = Return (Some n) -> tagged_with src n.
Proof.
  unfold cls_item. intros H. outcome_cases H.
  match type of H with
  | (if is_empty ?d then _ else _) = _ => destruct (is_empty d); [discriminate |]
  end.
  injection H as <-. split; reflexivity.
Qed.

Lemma cls_loop_tagged (src : source_config) (roll_data : list pyval) (results l : list item) :
  Forall (tagged_with src) results ->
  cls_loop src roll_data results = Return l ->
  Forall (tagged_with src) l.
Proof.
  revert results. induction roll_data as [| it rest IH]; simpl; intros results Hr H.
  - injection H as <-. exact Hr.
  - unfold mbind, outcome_bind in H.
    destruct (cls_item src it) as [[n |] | e] eqn:Hit; [| | discriminate].
    + eapply IH; [| exact H].
      apply Forall_app. split; [exact Hr |].
      constructor; [eapply cls_item_tagged, Hit | constructor].
    + eapply IH; [exact Hr | exact H].
Qed.

(** X5. Whatever the method, every item [fetch_source] returns carries
    the name and the category of the source it was asked for; the
    per-source cap counts by that name. *)
Theorem fetch_source_tags_items (src : source_config) (l : list item) :
  fetch_source src = Return l -> Forall (tagged_with src) l.
Proof.
  unfold fetch_source, try_except, fetch_dispatch.
  destruct (str_eqb (src_method src) (u "rss")).
  - intros [= <-]. apply Forall_forall. intros n Hn.
    unfold _fetch_rss in Hn. apply list_elem_of_fmap in Hn.
    destruct Hn as (e & -> & _). split; reflexivity.
  - destruct (str_eqb (src_method src) (u "cls_api")).
    + destruct (_fetch_cls_api src) as [l' | e] eqn:E; intros [= <-]; [| constructor].
      unfold _fetch_cls_api in E. outcome_cases E.
      eapply cls_loop_tagged; [constructor | exact E].
    + destruct (_fetch_scrape src) as [l' | e] eqn:E; intros [= <-]; [| constructor].
      unfold _fetch_scrape in E. outcome_cases E.
      destruct (src_selectors src) as [sel |]; [| discriminate].
      simpl in E. injection E as <-.
      apply Forall_forall. intros n Hn.
      apply list_elem_of_omap in Hn. destruct Hn as (art & _ & Hart).
      eapply scrape_article_tagged, Hart.
Qed.

Lemma omap_length_le {A B} (f : A -> option B) (l : list A) :
  length (omap f l) <= length l.
Proof. induction l as [| x l IH]; csimpl; [lia |]. destruct (f x); simpl; lia. Qed.

Lemma lstrip_slash_rev_keep (a : str) (c : N) (b : str) :
  c <> SLASH ->
  exists b', rstrip_slash (a ++ c :: b) = a ++ c :: b'.
Proof.
  intros Hc. unfold rstrip_slash.
  assert (H : forall x : str, exists b', lstrip_slash (x ++ c :: rev a) = b' ++ c :: rev a).
  { induction x as [| y x [b' IH]]; simpl.
    - destruct (N.eqb_spec c SLASH); [contradiction |]. exists []. reflexivity.
    - destruct (y =? SLASH)%N.
      + exists b'. exact IH.
      + exists (y :: x). reflexivity. }
  destruct (H (rev b)) as [b' Hb'].
  exists (rev b').
  rewrite rev_app_distr. simpl. rewrite <- app_assoc. simpl.
  rewrite Hb', rev_app_distr. simpl. rewrite rev_involutive, <- app_assoc. reflexivity.
Qed.

Lemma startswith_app (p rest : str) : startswith (p ++ rest) p = true.
Proof.
  induction p as [| c p IH]; simpl; [destruct rest; reflexivity |].
  rewrite N.eqb_refl. exact IH.
Qed.

Lemma rstrip_slash_http (url : str) :
  startswith url (u "http") = true ->
  forall rest, startswith (rstrip_slash url ++ rest) (u "http") = true.
Proof.
  intros H rest.
  destruct url as [| c1 [| c2 [| c3 [| c4 t]]]]; simpl in H;
    rewrite ?andb_false_r in H; try discriminate H.
  apply andb_true_iff in H. destruct H as [H1 H].
  apply andb_true_iff in H. destruct H as [H2 H].
  apply andb_true_iff in H. destruct H as [H3 H].
  apply andb_true_iff in H. destruct H as [H4 _].
  apply N.eqb_eq in H1, H2, H3, H4.
  vm_compute in H1, H2, H3, H4. subst.
  destruct (lstrip_slash_rev_keep [104; 116; 116]%N 112%N t) as [b' Hb]; [discriminate |].
  simpl app in Hb. rewrite Hb. exact (startswith_app (u "http") (b' ++ rest)).
Qed.

Lemma scrape_articles_length (soup : Soup) (sel : selectors_t) :
  length (scrape_articles soup sel) <= 5.
Proof.
  unfold scrape_articles.
  destruct (take MAX_ITEMS_PER_SOURCE (select soup (sel_article sel))) as [| x t] eqn:E.
  - rewrite length_take. unfold MAX_ITEMS_PER_SOURCE. lia.
  - rewrite <- E, length_take. unfold MAX_ITEMS_PER_SOURCE. lia.
Qed.

(** X6. The scrape fetcher returns at most five items, and resolves
    relative links: with a source URL that starts with http, the link of
    every item is a string that is empty or starts with http. *)
Theorem _fetch_scrape_capped_and_absolute (src : source_config) (l : list item) :
  _fetch_scrape src = Return l ->
  length l <= 5
  /\ (startswith (src_url src) (u "http") = true ->
      Forall (fun n => exists s : str,
                  link n = PStr s /\ (s = [] \/ startswith s (u "http") = true)) l).
Proof.
  unfold _fetch_scrape, mbind, outcome_bind.
  destruct (fetch_page (src_url src)) as [soup | e]; [| discriminate].
  destruct (src_selectors src) as [sel |]; [| discriminate].
  intros [= <-]. split.
  - etransitivity; [apply omap_length_le | apply scrape_articles_length].
  - intros Hurl. apply Forall_forall. intros n Hn.
    apply list_elem_of_omap in Hn. destruct Hn as (art & _ & Hart).
    unfold scrape_article in Hart.
    destruct (is_empty _); [discriminate |]. injection Hart as <-. simpl.
    eexists. split; [reflexivity |].
    destruct (if negb (is_a art) then select_one art (sel_title sel) else Some art)
      as [el |]; [| left; reflexivity].
    unfold scrape_link.
    match goal with
    | |- context [if negb (is_empty ?lk) && negb (startswith ?lk _) then _ else _] =>
        destruct (is_empty lk) eqn:Ee; simpl;
        [left; apply is_empty_true, Ee |
         right; destruct (startswith lk (u "http")) eqn:Es; simpl;
         [exact Es | apply rstrip_slash_http, Hurl]]
    end.
Qed.

(** *** Further properties of the stages *)

Lemma per_source_cap_count_le (l : list item) (s : str) :
  length (filter (fun n => source n = s) (per_source_cap l)) <= 5.
Proof. rewrite per_source_cap_filter, length_take. unfold MAX_ITEMS_PER_SOURCE. lia. Qed.

Lemma per_source_cap_id (l : list item) :
  (forall s, length (filter (fun n => source n = s) l) <= 5) ->
  per_source_cap l = l.
Proof.
  induction l as [| n l IH] using rev_ind; intros Hs; [reflexivity |].
  rewrite per_source_cap_snoc.
  assert (Hl : forall s, length (filter (fun m => source m = s) l) <= 5).
  { intros s. specialize (Hs s). rewrite filter_app, length_app in Hs. lia. }
  rewrite (IH Hl). f_equal.
  specialize (Hs (source n)). rewrite filter_app, length_app in Hs.
  rewrite (filter_cons_True _ n []) in Hs by reflexivity. simpl in Hs.
  rewrite bool_decide_eq_true_2; [reflexivity |]. unfold MAX_ITEMS_PER_SOURCE. lia.
Qed.

(** X7. After the cap no source has more than five items; a list in
    which no source has more than five passes unchanged; so capping
    twice is capping once. *)
Theorem per_source_cap_idempotent (l : list item) :
  (forall s, length (filter (fun n => source n = s) (per_source_cap l)) <= 5)
  /\ ((forall s, length (filter (fun n => source n = s) l) <= 5) ->
      per_source_cap l = l)
  /\ per_source_cap (per_source_cap l) = per_source_cap l.
Proof.
  split; [intros s; apply per_source_cap_count_le |].
  split; [apply per_source_cap_id |].
  apply per_source_cap_id. intros s. apply per_source_cap_count_le.
Qed.

Lemma same_but_summary_refl (n : item) : same_but_summary n n.
Proof. repeat split. Qed.

Lemma same_but_summary_set (t : str) (n : item) : same_but_summary n (set_summary t n).
Proof. repeat split. Qed.

Lemma same_but_summary_trans (a b c : item) :
  same_but_summary a b -> same_but_summary b c -> same_but_summary a c.
Proof.
  unfold same_but_summary. intros (H1 & H2 & H3 & H4 & H5) (G1 & G2 & G3 & G4 & G5).
  repeat split; congruence.
Qed.

Lemma same_but_summary_eq (n n' : item) :
  same_but_summary n n' -> summary n' = summary n -> n' = n.
Proof.
  destruct n, n'. unfold same_but_summary. simpl.
  intros (-> & -> & -> & -> & ->) ->. reflexivity.
Qed.

Lemma apply_desc_same (desc : str) (n : item) : same_but_summary n (apply_desc desc n).
Proof.
  unfold apply_desc. destruct (_ && _);
    [apply same_but_summary_set | apply same_but_summary_refl].
Qed.

Lemma apply_desc_not_shorter (desc : str) (n : item) :
  summary_ok n -> length (summary n) <= length (summary (apply_desc desc n)).
Proof.
  unfold summary_ok, apply_desc. intros Hok.
  destruct (negb (is_empty desc)); simpl; [| lia].
  destruct (Nat.ltb_spec (length (summary n)) (length desc)) as [Hlt | Hge]; simpl; [| lia].
  destruct (Nat.le_gt_cases (length desc) 500) as [H | H].
  - rewrite _truncate_short by exact H. lia.
  - rewrite _truncate_long by exact H. rewrite length_app, length_take.
    change (length [ELLIPSIS]) with 1. lia.
Qed.

(** X8. Enrichment keeps the list as long as it was and touches nothing
    but summaries: every item keeps its other fields, an item that was
    not selected (its summary is not useless, or its link is empty)
    stays as it is, and a summary within the 501 characters every stored
    summary has is never replaced by a shorter one. *)
Theorem enrich_only_summaries (filtered : list item) :
  length (enrich filtered) = length filtered
  /\ (forall i n, filtered !! i = Some n ->
        exists n', enrich filtered !! i = Some n'
                   /\ same_but_summary n n'
                   /\ (needs_enrich n = false -> n' = n)
                   /\ (summary_ok n -> length (summary n) <= length (summary n'))).
Proof.
  unfold enrich. split; [apply length_imap |].
  intros i n Hi. rewrite list_lookup_imap, Hi. simpl.
  eexists. split; [reflexivity |].
  destruct (needs_enrich n).
  - split; [apply apply_desc_same |]. split; [discriminate |].
    apply apply_desc_not_shorter.
  - split; [apply same_but_summary_refl |]. split; [reflexivity |]. lia.
Qed.

Lemma translation_of_refl (cand : list nat) (its : list item) :
  translation_of cand its its.
Proof.
  split; [reflexivity |]. intros i n Hi. exists n.
  split; [exact Hi |]. split; [apply same_but_summary_refl | left; reflexivity].
Qed.

Lemma apply_result_translation (cand : list nat) (its : list item)
      (st : list item * nat) (p : nat * option str) :
  p.1 ∈ cand ->
  translation_of cand its st.1 -> translation_of cand its (apply_result st p).1.
Proof.
  intros Hp [Hlen Hall]. unfold apply_result.
  destruct p.2 as [result |]; [| split; assumption].
  destruct (negb (is_empty result)); simpl; [| split; assumption].
  destruct (Nat.ltb_spec 10 (length result)) as [Hr | _]; [| split; assumption].
  simpl. split; [rewrite length_alter; exact Hlen |].
  intros i n Hi. destruct (Hall i n Hi) as (n' & Hn' & Hsame & Hsum).
  destruct (decide (p.1 = i)) as [E | Hne].
  - exists (set_summary (_truncate result 500) n').
    split; [rewrite E, list_lookup_alter_eq, Hn'; reflexivity |].
    split; [eapply same_but_summary_trans; [exact Hsame | apply same_but_summary_set] |].
    right. split; [rewrite <- E; exact Hp |].
    exists result. split; [exact Hr | reflexivity].
  - exists n'. split; [rewrite list_lookup_alter_ne by exact Hne; exact Hn' |].
    split; assumption.
Qed.

Lemma foldl_apply_result_translation (cand : list nat) (its : list item)
      (ps : list (nat * option str)) (st : list item * nat) :
  Forall (fun p => p.1 ∈ cand) ps ->
  translation_of cand its st.1 ->
  translation_of cand its (foldl apply_result st ps).1.
Proof.
  intros Hps. revert st. induction Hps as [| p ps Hp _ IH]; intros st Hst; [exact Hst |].
  simpl. apply IH, apply_result_translation; assumption.
Qed.

Lemma zip_fst_in {A B} (P : A -> Prop) (l : list A) (k : list B) :
  Forall P l -> Forall (fun p => P p.1) (zip l k).
Proof.
  intros Hl. revert k. induction Hl as [| x l Hx _ IH]; intros k; [constructor |].
  destruct k; [constructor |]. simpl. constructor; [exact Hx | apply IH].
Qed.

Lemma _flush_batch_translation (cand : list nat) (its : list item) (st : tstate) :
  Forall (fun i => i ∈ cand) (batch_indices st) ->
  translation_of cand its (items st) ->
  translation_of cand its (items (_flush_batch st)).
Proof.
  intros Hidx Hst. unfold _flush_batch. destruct (batch_texts st); [exact Hst |].
  destruct (translate_batch _ _) as [results | e]; simpl; [| exact Hst].
  apply (foldl_apply_result_translation cand its _ (items st, translated_count st));
    [apply (zip_fst_in (fun i => i ∈ cand)), Hidx | exact Hst].
Qed.

Lemma _flush_batch_indices (st : tstate) :
  batch_indices (_flush_batch st) = batch_indices st.
Proof.
  unfold _flush_batch. destruct (batch_texts st); [reflexivity |].
  destruct (translate_batch _ _); reflexivity.
Qed.

Lemma batch_step_translation (cand : list nat) (its : list item) (st : tstate)
      (p : nat * str) :
  p.1 ∈ cand ->
  Forall (fun i => i ∈ cand) (batch_indices st) ->
  translation_of cand its (items st) ->
  Forall (fun i => i ∈ cand) (batch_indices (batch_step st p))
  /\ translation_of cand its (items (batch_step st p)).
Proof.
  intros Hp Hidx Hst. unfold batch_step. destruct (_ && _); simpl.
  - split; [repeat constructor; exact Hp |].
    apply _flush_batch_translation; assumption.
  - split; [| exact Hst]. apply Forall_app. split; [exact Hidx |].
    repeat constructor. exact Hp.
Qed.

Lemma foldl_batch_step_translation (cand : list nat) (its : list item)
      (todo : list (nat * str)) (st : tstate) :
  Forall (fun p => p.1 ∈ cand) todo ->
  Forall (fun i => i ∈ cand) (batch_indices st) ->
  translation_of cand its (items st) ->
  Forall (fun i => i ∈ cand) (batch_indices (foldl batch_step st todo))
  /\ translation_of cand its (items (foldl batch_step st todo)).
Proof.
  intros Htodo. revert st.
  induction Htodo as [| p todo Hp _ IH]; intros st Hidx Hst; [split; assumption |].
  simpl. destruct (batch_step_translation cand its st p Hp Hidx Hst) as [H1 H2].
  apply IH; assumption.
Qed.

Lemma _translate_summaries_translation (its : list item) :
  translation_of ((to_translate its).*1) its (items (_translate_summaries its)).
Proof.
  unfold _translate_summaries.
  destruct (to_translate its) as [| p todo] eqn:E; [apply translation_of_refl |].
  rewrite <- E.
  assert (Hall : Forall (fun q : nat * str => q.1 ∈ (to_translate its).*1) (to_translate its)).
  { apply Forall_forall. intros q Hq. apply list_elem_of_fmap. exists q. split; [reflexivity | exact Hq]. }
  destruct (foldl_batch_step_translation ((to_translate its).*1) its
              (to_translate its) (tstate_init its) Hall) as [H1 H2].
  - constructor.
  - apply translation_of_refl.
  - apply _flush_batch_translation; assumption.
Qed.

Lemma to_translate_candidate (its : list item) (i : nat) :
  i ∈ (to_translate its).*1 ->
  exists n, its !! i = Some n
            /\ summary n <> [] /\ _is_chinese (summary n) = false.
Proof.
  intros Hi. apply list_elem_of_fmap in Hi. destruct Hi as ([j t] & -> & Hp). simpl.
  unfold to_translate in Hp. apply list_elem_of_omap in Hp.
  destruct Hp as ([k n] & Hin & Hsel). simpl in Hsel.
  apply list_elem_of_lookup in Hin. destruct Hin as [k' Hk].
  rewrite list_lookup_imap in Hk.
  destruct (its !! k') as [m |] eqn:Hm; [| discriminate].
  simpl in Hk. injection Hk as <- <-.
  destruct (is_empty (summary m)) eqn:He; [discriminate |].
  destruct (_is_chinese (summary m)) eqn:Hc; [discriminate |].
  simpl in Hsel. injection Hsel as <- _.
  exists m. split; [exact Hm |]. split; [apply is_empty_false, He | exact Hc].
Qed.

Lemma _flush_batch_down (st : tstate) :
  (forall k texts, exists e, translate_batch k texts = Raise e) ->
  items (_flush_batch st) = items st.
Proof.
  intros Hdown. unfold _flush_batch. destruct (batch_texts st) as [| t b]; [reflexivity |].
  destruct (Hdown (length (calls st)) (t :: b)) as [e ->]. reflexivity.
Qed.

Lemma foldl_batch_step_down (todo : list (nat * str)) (st : tstate) :
  (forall k texts, exists e, translate_batch k texts = Raise e) ->
  items (foldl batch_step st todo) = items st.
Proof.
  intros Hdown. revert st. induction todo as [| p todo IH]; intros st; [reflexivity |].
  simpl. rewrite IH. unfold batch_step. simpl.
  destruct (_ && _); simpl; [apply _flush_batch_down, Hdown | reflexivity].
Qed.

Lemma answered_by_mono (cs more : list (list str)) (s s' : str) :
  answered_by cs s s' -> answered_by (cs ++ more) s s'.
Proof.
  intros (k & batch & results & j & r & Hk & H).
  exists k, batch, results, j, r.
  split; [apply lookup_app_l_Some; exact Hk | exact H].
Qed.

Lemma translation_tied_refl (cs : list (list str)) (its : list item) :
  translation_tied cs its its.
Proof.
  split; [reflexivity |]. intros i n Hi. exists n.
  split; [exact Hi |]. split; [apply same_but_summary_refl | left; reflexivity].
Qed.

Lemma translation_tied_mono (cs more : list (list str)) (its l : list item) :
  translation_tied cs its l -> translation_tied (cs ++ more) its l.
Proof.
  intros [Hlen Hall]. split; [exact Hlen |]. intros i n Hi.
  destruct (Hall i n Hi) as (n' & Hn' & Hsame & Hsum).
  exists n'. split; [exact Hn' |]. split; [exact Hsame |].
  destruct Hsum as [H | H]; [left; exact H | right; apply answered_by_mono, H].
Qed.

Lemma apply_result_tied (cs : list (list str)) (its : list item)
      (st : list item * nat) (p : nat * option str) :
  (exists n, its !! p.1 = Some n
             /\ forall r, p.2 = Some r -> 10 < length r ->
                          answered_by cs (summary n) (_truncate r 500)) ->
  translation_tied cs its st.1 -> translation_tied cs its (apply_result st p).1.
Proof.
  intros (m & Hm & Hans) [Hlen Hall]. unfold apply_result.
  destruct p.2 as [result |] eqn:Ep; [| split; assumption].
  destruct (negb (is_empty result)); simpl; [| split; assumption].
  destruct (Nat.ltb_spec 10 (length result)) as [Hr | _]; [| split; assumption].
  simpl. split; [rewrite length_alter; exact Hlen |].
  intros i n Hi. destruct (Hall i n Hi) as (n' & Hn' & Hsame & Hsum).
  destruct (decide (p.1 = i)) as [E | Hne].
  - exists (set_summary (_truncate result 500) n').
    split; [rewrite E, list_lookup_alter_eq, Hn'; reflexivity |].
    split; [eapply same_but_summary_trans; [exact Hsame | apply same_but_summary_set] |].
    right. rewrite E, Hi in Hm. injection Hm as <-.
    exact (Hans result eq_refl Hr).
  - exists n'. split; [rewrite list_lookup_alter_ne by exact Hne; exact Hn' |].
    split; assumption.
Qed.

Lemma foldl_apply_result_tied (cs : list (list str)) (its : list item)
      (ps : list (nat * option str)) (st : list item * nat) :
  Forall (fun p => exists n, its !! p.1 = Some n
                             /\ forall r, p.2 = Some r -> 10 < length r ->
                                  answered_by cs (summary n) (_truncate r 500)) ps ->
  translation_tied cs its st.1 ->
  translation_tied cs its (foldl apply_result st ps).1.
Proof.
  intros Hps. revert st. induction Hps as [| p ps Hp _ IH]; intros st Hst; [exact Hst |].
  simpl. apply IH, apply_result_tied; assumption.
Qed.

Lemma _flush_batch_tied (its : list item) (st : tstate) :
  batch_aligned its st ->
  translation_tied (calls st) its (items st) ->
  translation_tied (calls (_flush_batch st)) its (items (_flush_batch st)).
Proof.
  intros [_ Hal] Hst. unfold _flush_batch.
  destruct (batch_texts st) as [| t b] eqn:Eb; [exact Hst |].
  destruct (translate_batch _ _) as [results | e] eqn:Et; simpl.
  - apply foldl_apply_result_tied; [| apply translation_tied_mono, Hst].
    apply Forall_forall. intros p Hp.
    apply list_elem_of_lookup in Hp as [j Hj].
    apply lookup_zip_with_Some in Hj as (i & ro & -> & Hi & Hro).
    destruct (Hal j i Hi) as (n & Hn & Htxt).
    exists n. split; [exact Hn |]. simpl. intros r -> Hr.
    exists (length (calls st)), (t :: b), results, j, r.
    split; [apply list_lookup_middle; reflexivity |].
    repeat split; assumption.
  - apply translation_tied_mono, Hst.
Qed.

Lemma batch_step_tied (its : list item) (st : tstate) (p : nat * str) :
  (exists n, its !! p.1 = Some n /\ p.2 = summary n) ->
  batch_aligned its st ->
  translation_tied (calls st) its (items st) ->
  batch_aligned its (batch_step st p)
  /\ translation_tied (calls (batch_step st p)) its (items (batch_step st p)).
Proof.
  intros (n & Hn & Ep) Hal Hst. unfold batch_step, batch_aligned.
  destruct (_ && _); simpl.
  - split; [| apply _flush_batch_tied; assumption].
    split; [reflexivity |]. intros j i Hj.
    apply list_lookup_singleton_Some in Hj as [-> <-].
    exists n. split; [exact Hn |]. rewrite Ep. reflexivity.
  - split; [| exact Hst]. destruct Hal as [Hlen Hal].
    split; [rewrite !length_app, Hlen; reflexivity |].
    intros j i Hj. apply lookup_app_Some in Hj as [Hj | [Hge Hj]].
    + destruct (Hal j i Hj) as (m & Hm & Ht).
      exists m. split; [exact Hm | apply lookup_app_l_Some, Ht].
    + apply list_lookup_singleton_Some in Hj as [Hj <-].
      exists n. split; [exact Hn |].
      assert (E : j = length (batch_texts st)) by lia.
      rewrite E, Ep. apply list_lookup_middle. reflexivity.
Qed.

Lemma foldl_batch_step_tied (its : list item) (todo : list (nat * str)) (st : tstate) :
  Forall (fun p => exists n, its !! p.1 = Some n /\ p.2 = summary n) todo ->
  batch_aligned its st ->
  translation_tied (calls st) its (items st) ->
  batch_aligned its (foldl batch_step st todo)
  /\ translation_tied (calls (foldl batch_step st todo)) its
       (items (foldl batch_step st todo)).
Proof.
  intros Htodo. revert st.
  induction Htodo as [| p todo Hp _ IH]; intros st Hal Hst; [split; assumption |].
  simpl. destruct (batch_step_tied its st p Hp Hal Hst) as [H1 H2].
  apply IH; assumption.
Qed.

Lemma _translate_summaries_tied (its : list item) :
  translation_tied (calls (_translate_summaries its)) its
    (items (_translate_summaries its)).
Proof.
  unfold _translate_summaries.
  destruct (to_translate its) as [| p todo] eqn:E; [apply translation_tied_refl |].
  rewrite <- E.
  assert (Hall : Forall (fun q : nat * str =>
                           exists n, its !! q.1 = Some n /\ q.2 = summary n)
                   (to_translate its)).
  { apply Forall_forall. intros q Hq. apply to_translate_summaries, Hq. }
  destruct (foldl_batch_step_tied its (to_translate its) (tstate_init its) Hall)
    as [H1 H2].
  - split; [reflexivity |]. intros j i Hj. discriminate Hj.
  - apply translation_tied_refl.
  - apply _flush_batch_tied; assumption.
Qed.

(** X9. Translation keeps the list as long as it was and touches nothing
    but the summaries of its candidates: every item keeps its other
    fields; a summary is left as it was or replaced by what the
    translator answered for it, that is, the text the translator
    returned at the position this summary had in a batch handed over, a
    text of more than 10 characters, cut at 500; an item whose summary
    is empty or already Chinese stays as it is; and when every call to
    the translator fails, the whole list stays as it is. *)
Theorem _translate_summaries_only_candidates (its : list item) :
  length (items (_translate_summaries its)) = length its
  /\ (forall i n, its !! i = Some n ->
        exists n', items (_translate_summaries its) !! i = Some n'
                   /\ same_but_summary n n'
                   /\ (summary n' = summary n
                       \/ answered_by (calls (_translate_summaries its))
                            (summary n) (summary n'))
                   /\ (summary n = [] \/ _is_chinese (summary n) = true -> n' = n))
  /\ ((forall k texts, exists e, translate_batch k texts = Raise e) ->
      items (_translate_summaries its) = its).
Proof.
  destruct (_translate_summaries_translation its) as [Hlen Hall].
  destruct (_translate_summaries_tied its) as [_ Htied].
  split; [exact Hlen |]. split.
  - intros i n Hi. destruct (Hall i n Hi) as (n' & Hn' & Hsame & Hsum).
    destruct (Htied i n Hi) as (n'' & Hn'' & _ & Hans).
    rewrite Hn' in Hn''. injection Hn'' as <-.
    exists n'. split; [exact Hn' |]. split; [exact Hsame |]. split; [exact Hans |].
    intros Hnot. apply same_but_summary_eq; [exact Hsame |].
    destruct Hsum as [H | (Hc & _)]; [exact H | exfalso].
    destruct (to_translate_candidate its i Hc) as (m & Hm & Hne & Hzh).
    rewrite Hi in Hm. injection Hm as <-.
    destruct Hnot as [H | H]; congruence.
  - intros Hdown. unfold _translate_summaries.
    destruct (to_translate its); [reflexivity |].
    rewrite _flush_batch_down, foldl_batch_step_down by exact Hdown. reflexivity.
Qed.

(** *** Further properties of the pipeline *)

Lemma enrich_sources (l : list item) : source <$> enrich l = source <$> l.
Proof.
  apply list_eq. intros i. unfold enrich.
  rewrite !list_lookup_fmap, list_lookup_imap.
  destruct (l !! i) as [n |]; [| reflexivity]. simpl. f_equal.
  destruct (needs_enrich n); [| reflexivity]. apply apply_desc_same.
Qed.

Lemma _translate_summaries_sources (its : list item) :
  source <$> items (_translate_summaries its) = source <$> its.
Proof.
  destruct (_translate_summaries_translation its) as [Hlen Hall].
  apply list_eq. intros i. rewrite !list_lookup_fmap.
  destruct (its !! i) as [n |] eqn:Hi.
  - destruct (Hall i n Hi) as (n' & -> & Hsame & _). simpl. f_equal. apply Hsame.
  - apply lookup_ge_None in Hi. rewrite (proj2 (lookup_ge_None _ _)) by lia. reflexivity.
Qed.

Lemma filter_length_fmap {A B} (f : A -> B) (P : B -> Prop)
      `{!forall y, Decision (P y)} (l : list A) :
  length (filter (fun x => P (f x)) l) = length (filter P (f <$> l)).
Proof.
  induction l as [| x l IH]; [reflexivity |].
  rewrite fmap_cons, !filter_cons. destruct (decide (P (f x))); simpl; lia.
Qed.

Lemma filter_List_filter_length {A} (P : A -> Prop) `{!forall x, Decision (P x)}
      (f : A -> bool) (l : list A) :
  length (filter P (List.filter f l)) <= length (filter P l).
Proof.
  induction l as [| x l IH]; simpl; [lia |].
  rewrite (filter_cons P x l).
  destruct (f x); [rewrite filter_cons |]; destruct (decide (P x)); simpl; lia.
Qed.

Lemma cutoff_and_sort_perm (t : Z) (l : list dated) :
  cutoff_and_sort t l ≡ₚ List.filter (is_fresh (cutoff_of t)) l.
Proof. apply sort_desc_perm. Qed.

(** X10. In the list [fetch_all] returns no source has more than five
    items: the cap is applied before enrichment and translation, which
    keep names and positions, and the last stages only drop and
    reorder. *)
Theorem fetch_all_at_most_five_per_source (sources : list source_config)
        (final : list dated) (s : str) :
  strptime_raises_only_ValueError ->
  fetch_all sources = Return final ->
  length (filter (fun n => source (news n) = s) final) <= 5.
Proof.
  intros Hv Hf.
  destruct (fetch_all_returns sources Hv) as (all_news & ds & E & _ & Hds).
  rewrite E in Hf. injection Hf as <-.
  rewrite cutoff_and_sort_perm.
  etransitivity; [apply filter_List_filter_length |].
  assert (E1 : forall X : list dated,
             length (filter (fun d => source (news d) = s) X)
             = length (filter (fun n => source n = s) (news <$> X)))
    by (intros X; exact (filter_length_fmap news (fun n => source n = s) X)).
  assert (E2 : forall X : list item,
             length (filter (fun n => source n = s) X)
             = length (filter (fun x => x = s) (source <$> X)))
    by (intros X; exact (filter_length_fmap source (fun x => x = s) X)).
  rewrite E1, E2, Hds, _translate_summaries_sources, enrich_sources, <- E2.
  apply per_source_cap_count_le.
Qed.

Lemma filter_ext_in {A} (P Q : A -> Prop) `{!forall x, Decision (P x)}
      `{!forall x, Decision (Q x)} (l : list A) :
  (forall x, x ∈ l -> (P x <-> Q x)) -> filter P l = filter Q l.
Proof.
  induction l as [| x l IH]; intros Hext; [reflexivity |].
  rewrite !filter_cons.
  assert (Hx : P x <-> Q x) by (apply Hext; left).
  rewrite IH by (intros y Hy; apply Hext; right; exact Hy).
  destruct (decide (P x)), (decide (Q x)); tauto.
Qed.

Lemma filter_unknown_fresh (c : Z) (l : list dated) :
  filter (fun n => _dt n = None) (List.filter (is_fresh c) l)
  = filter (fun n => _dt n = None) l.
Proof.
  induction l as [| x l IH]; simpl; [reflexivity |].
  rewrite (filter_cons _ x l).
  destruct (is_fresh c x) eqn:Ef.
  - rewrite filter_cons, IH. reflexivity.
  - rewrite IH. destruct (decide (_dt x = None)) as [Hx | Hx]; [| reflexivity].
    unfold is_fresh in Ef. rewrite Hx in Ef. discriminate.
Qed.

(** X11. The last two stages lose and duplicate nothing: the final list
    is a rearrangement of the items that passed the freshness test;
    items of equal resolved time keep the order they came in; and, the
    clock reading later than two weeks after [datetime.min], so do the
    items of unknown time, which are exactly those of the input. *)
Theorem cutoff_and_sort_stable (t : Z) (l : list dated) :
  cutoff_and_sort t l ≡ₚ List.filter (is_fresh (cutoff_of t)) l
  /\ (forall k, filter (fun n => sort_key n = k) (cutoff_and_sort t l)
               = filter (fun n => sort_key n = k)
                   (List.filter (is_fresh (cutoff_of t)) l))
  /\ ((weeks 2 < t)%Z ->
      filter (fun n => _dt n = None) (cutoff_and_sort t l)
      = filter (fun n => _dt n = None) l).
Proof.
  split; [apply cutoff_and_sort_perm |].
  split; [intros k; apply sort_desc_stable |].
  intros Ht.
  assert (Hiff : forall X : list dated,
             (forall n, n ∈ X -> is_fresh (cutoff_of t) n = true) ->
             filter (fun n => _dt n = None) X = filter (fun n => sort_key n = 0%Z) X).
  { intros X HX. apply filter_ext_in. intros n Hn. specialize (HX n Hn).
    unfold is_fresh, sort_key, cutoff_of in *. destruct (_dt n) as [dt |].
    - apply Z.leb_le in HX. split; [discriminate | lia].
    - split; reflexivity. }
  rewrite <- (filter_unknown_fresh (cutoff_of t) l).
  rewrite (Hiff (cutoff_and_sort t l)),
          (Hiff (List.filter (is_fresh (cutoff_of t)) l)).
  - apply sort_desc_stable.
  - intros n Hn. apply list_elem_of_In, filter_In in Hn. apply Hn.
  - intros n Hn. apply cutoff_and_sort_elem in Hn. apply Hn.
Qed.

Lemma set_dt_inv (n : item) (d : dated) :
  set_dt n = Return d -> news d = n /\ _parse_time (time n) = Return (_dt d).
Proof.
  unfold set_dt, mbind, outcome_bind.
  destruct (_parse_time (time n)) as [r | e]; [| discriminate].
  intros [= <-]. split; reflexivity.
Qed.

Lemma mapM_set_dt_inv (l : list item) (ds : list dated) :
  mapM set_dt l = Return ds ->
  news <$> ds = l
  /\ Forall (fun d => _parse_time (time (news d)) = Return (_dt d)) ds.
Proof.
  revert ds. induction l as [| n l IH]; intros ds H.
  - injection H as <-. split; [reflexivity | constructor].
  - change (mapM set_dt (n :: l))
      with (y ← set_dt n; k ← mapM set_dt l; mret (y :: k)) in H.
    destruct (set_dt n) as [d | e] eqn:Ed; [| discriminate].
    destruct (mapM set_dt l) as [ds' | e]; [| discriminate].
    injection H as <-. destruct (IH ds' eq_refl) as [E Hall].
    destruct (set_dt_inv n d Ed) as [Hn Hp].
    split; [rewrite fmap_cons, E, Hn; reflexivity |].
    constructor; [rewrite Hn; exact Hp | exact Hall].
Qed.

(** X12. Every item of the list [fetch_all] returns passed the freshness
    test, and its resolved time is what [_parse_time] makes of its own
    raw time string: enrichment and translation, which run in between,
    leave the raw time alone. *)
Theorem fetch_all_items_fresh_and_dated (sources : list source_config)
        (final : list dated) :
  fetch_all sources = Return final ->
  Forall (fun n => is_fresh (cutoff_of now) n = true
                   /\ _parse_time (time (news n)) = Return (_dt n)) final.
Proof.
  unfold fetch_all. intros H. unfold mbind, outcome_bind in H.
  destruct (for_each _ _ _) as [all_news | e]; [| discriminate].
  destruct (mapM set_dt _) as [ds | e] eqn:Eds; [| discriminate].
  injection H as <-. apply mapM_set_dt_inv in Eds. destruct Eds as [_ Hall].
  rewrite Forall_forall in Hall. apply Forall_forall. intros n Hn.
  apply cutoff_and_sort_elem in Hn. destruct Hn as [Hin Hf].
  split; [exact Hf | apply Hall, Hin].
Qed.

Lemma gather_all_empty (srcs : list source_config) (acc : list item) :
  Forall (fun s => fetch_source s = Return []) srcs ->
  for_each (fun all_news s => its ← fetch_source s; Return (all_news ++ its)) srcs acc
  = Return acc.
Proof.
  intros H. revert acc. induction H as [| s srcs Hs _ IH]; intros acc; [reflexivity |].
  simpl. rewrite Hs. simpl. rewrite app_nil_r. apply IH.
Qed.

(** X13. When every source comes back empty-handed, [fetch_all] still
    returns, and what it returns is the empty list.  A source comes back
    empty-handed when its fetcher raises, whatever the method, and, for
    a feed source, when none of its URLs yields an entry (the feed
    fetcher raises nothing of its own). *)
Theorem fetch_all_every_source_down (sources : list source_config) :
  (forall s, (exists e, fetch_dispatch s = Raise e) -> fetch_source s = Return [])
  /\ (forall s, src_method s = u "rss" ->
                Forall feed_gives_nothing (src_url s :: src_alt_urls s) ->
                fetch_source s = Return [])
  /\ (Forall (fun s => fetch_source s = Return []) (as_completed sources) ->
      fetch_all sources = Return []).
Proof.
  split; [| split].
  - intros s [e He]. exact (fetch_source_failure s e He).
  - intros s Hm Hall. unfold fetch_source, fetch_dispatch, _fetch_rss.
    rewrite Hm. change (str_eqb (u "rss") (u "rss")) with true. cbv iota.
    rewrite <- (app_nil_r (src_url s :: src_alt_urls s)).
    rewrite rss_entries_skip by exact Hall. reflexivity.
  - intros H. unfold fetch_all. rewrite gather_all_empty by exact H. reflexivity.
Qed.

Lemma datetime_utc_valid (y m d : Z) (dt : datetime) :
  datetime_utc y m d = Return dt ->
  valid_utc_minute dt /\ year dt = y /\ month dt = m /\ day dt = d
  /\ hour dt = 0%Z /\ minute dt = 0%Z.
Proof.
  unfold datetime_utc. destruct (_ && _) eqn:E; [| discriminate].
  intros [= <-]. simpl.
  repeat (apply andb_true_iff in E; destruct E as [E ?]).
  unfold valid_utc_minute. simpl. repeat split; lia.
Qed.

Lemma replace_hour_minute_valid (dt dt' : datetime) (h mi : Z) :
  valid_utc_minute dt ->
  replace_hour_minute dt h mi = Return dt' ->
  valid_utc_minute dt' /\ year dt' = year dt /\ month dt' = month dt
  /\ day dt' = day dt /\ hour dt' = h /\ minute dt' = mi.
Proof.
  unfold replace_hour_minute. intros [Hv Htz]. destruct (_ && _) eqn:E; [| discriminate].
  intros [= <-]. simpl.
  repeat (apply andb_true_iff in E; destruct E as [E ?]).
  unfold valid_utc_minute. simpl. repeat split; try lia. exact Htz.
Qed.

(** X14. The pattern tier of [_parse_time] never makes up a date: what it
    returns is a day that exists in the calendar, at UTC, with the hour
    and the minute in range and the seconds zero, carrying the numbers
    read from the string; a date out of range gives unknown rather than
    a clamped date; and so does a good date next to an hour or a minute
    out of range, the date being discarded with it. *)
Theorem parse_by_pattern_valid (time_str : str) :
  (forall dt, parse_by_pattern time_str = Return (Some dt) ->
      valid_utc_minute dt
      /\ exists y m d, re_search match_date_here time_str = Some (y, m, d)
                       /\ year dt = y /\ month dt = m /\ day dt = d
                       /\ match re_search match_hm_here time_str with
                          | Some (h, mi) => hour dt = h /\ minute dt = mi
                          | None => hour dt = 0%Z /\ minute dt = 0%Z
                          end)
  /\ (forall y m d,
        re_search match_date_here time_str = Some (y, m, d) ->
        ~ (1 <= y <= 9999 /\ 1 <= m <= 12 /\ 1 <= d <= days_in_month y m)%Z ->
        parse_by_pattern time_str = Return None)
  /\ (forall y m d h mi,
        re_search match_date_here time_str = Some (y, m, d) ->
        re_search match_hm_here time_str = Some (h, mi) ->
        ~ (0 <= h <= 23 /\ 0 <= mi <= 59)%Z ->
        parse_by_pattern time_str = Return None).
Proof.
  unfold parse_by_pattern. split; [| split].
  - intros dt H.
    destruct (re_search match_date_here time_str) as [[[y m] d] |]; [| discriminate].
    unfold mbind, outcome_bind in H.
    destruct (datetime_utc y m d) as [dt0 | e] eqn:E0.
    + destruct (datetime_utc_valid y m d dt0 E0) as (Hv & Hy & Hm & Hd & Hh & Hmi).
      destruct (re_search match_hm_here time_str) as [[h mi] |].
      * destruct (replace_hour_minute dt0 h mi) as [dt1 | e] eqn:E1.
        -- injection H as <-.
           destruct (replace_hour_minute_valid dt0 dt1 h mi Hv E1)
             as (Hv1 & Hy1 & Hm1 & Hd1 & Hh1 & Hmi1).
           split; [exact Hv1 |]. exists y, m, d. repeat split; congruence.
        -- destruct e; discriminate.
      * injection H as <-. split; [exact Hv |]. exists y, m, d. repeat split; assumption.
    + destruct e; discriminate.
  - intros y m d -> Hbad. unfold datetime_utc.
    destruct (_ && _) eqn:E; [| reflexivity]. exfalso. apply Hbad.
    repeat (apply andb_true_iff in E; destruct E as [E ?]). lia.
  - intros y m d h mi -> -> Hbad. unfold mbind, outcome_bind.
    destruct (datetime_utc y m d) as [dt0 | e] eqn:E0.
    + unfold replace_hour_minute. destruct (_ && _) eqn:E; [| reflexivity].
      exfalso. apply Hbad.
      repeat (apply andb_true_iff in E; destruct E as [E ?]). lia.
    + destruct (datetime_utc_cases y m d) as [E | (dt & E & _)];
        rewrite E in E0; [injection E0 as <-; reflexivity | discriminate].
Qed.

(** *** A round trip through the pattern tier *)

Lemma digit_char_not_colon (d : Z) : (0 <= d <= 9)%Z -> digit_char d <> COLON.
Proof. unfold digit_char, COLON. lia. Qed.

Lemma digit_char_not_space (d : Z) : (0 <= d <= 9)%Z -> isspace (digit_char d) = false.
Proof.
  intros H.
  assert (E : (d = 0 \/ d = 1 \/ d = 2 \/ d = 3 \/ d = 4 \/ d = 5 \/ d = 6
               \/ d = 7 \/ d = 8 \/ d = 9)%Z) by lia.
  repeat (destruct E as [-> | E]; [reflexivity |]). subst. reflexivity.
Qed.

Lemma two_digit_bounds (v : Z) :
  (0 <= v <= 99)%Z -> (0 <= v / 10 <= 9 /\ 0 <= v mod 10 <= 9)%Z.
Proof.
  intros Hv. pose proof (Z.mod_pos_bound v 10). pose proof (Z.div_mod v 10). lia.
Qed.

Lemma four_digit_bounds (v : Z) :
  (0 <= v <= 9999)%Z -> (0 <= v / 100 <= 99 /\ 0 <= v mod 100 <= 99)%Z.
Proof.
  intros Hv. pose proof (Z.mod_pos_bound v 100). pose proof (Z.div_mod v 100). lia.
Qed.

Lemma two_digits_text (v : Z) (rest : str) :
  reads_ascii_digits -> (0 <= v <= 99)%Z ->
  two_digits (two_digit_text v ++ rest) = Some (v, rest).
Proof.
  intros Hd Hv. destruct (two_digit_bounds v Hv) as [H1 H2].
  unfold two_digits, two_digit_text. simpl.
  rewrite (Hd _ H1), (Hd _ H2). f_equal. f_equal.
  pose proof (Z.div_mod v 10). lia.
Qed.

Lemma four_digits_text (v : Z) (rest : str) :
  reads_ascii_digits -> (0 <= v <= 9999)%Z ->
  four_digits (four_digit_text v ++ rest) = Some (v, rest).
Proof.
  intros Hd Hv. destruct (four_digit_bounds v Hv) as [H1 H2].
  unfold four_digits, four_digit_text.
  rewrite <- app_assoc.
  rewrite (two_digits_text _ _ Hd H1), (two_digits_text _ _ Hd H2).
  f_equal. f_equal. pose proof (Z.div_mod v 100). lia.
Qed.

Lemma digits_1_2_text (v : Z) (rest : str) :
  reads_ascii_digits -> (0 <= v <= 99)%Z ->
  exists alts, digits_1_2 (two_digit_text v ++ rest) = (v, rest) :: alts.
Proof.
  intros Hd Hv. unfold digits_1_2. rewrite two_digits_text by assumption.
  eexists. reflexivity.
Qed.

Lemma match_hm_here_no_colon (c x1 x2 : N) (rest : str) :
  x1 <> COLON -> x2 <> COLON -> match_hm_here (c :: x1 :: x2 :: rest) = None.
Proof.
  intros H1 H2. unfold match_hm_here, digits_1_2, two_digits, one_digit.
  destruct (digit_value c); [| reflexivity].
  destruct (digit_value x1); simpl.
  - destruct (N.eqb_spec x2 COLON); [contradiction |].
    destruct (N.eqb_spec x1 COLON); [contradiction |]. reflexivity.
  - destruct (N.eqb_spec x1 COLON); [contradiction |]. reflexivity.
Qed.

Lemma re_search_hm_skip (P : str) (a b : N) (tail : str) :
  Forall (fun c => c <> COLON) P -> a <> COLON -> b <> COLON ->
  re_search match_hm_here (P ++ a :: b :: COLON :: tail)
  = re_search match_hm_here (a :: b :: COLON :: tail).
Proof.
  intros HP Ha Hb. induction HP as [| c P Hc HP IH]; [reflexivity |].
  change ((c :: P) ++ a :: b :: COLON :: tail)
    with (c :: (P ++ a :: b :: COLON :: tail)).
  assert (Hnone : match_hm_here (c :: (P ++ a :: b :: COLON :: tail)) = None).
  { destruct HP as [| p1 P' Hp1 HP]; [apply match_hm_here_no_colon; assumption |].
    destruct HP as [| p2 P'' Hp2 HP]; apply match_hm_here_no_colon; assumption. }
  simpl re_search. rewrite Hnone. exact IH.
Qed.

Lemma re_search_here {B} (here : str -> option B) (s : str) (b : B) :
  here s = Some b -> re_search here s = Some b.
Proof. intros H. destruct s; simpl; rewrite H; reflexivity. Qed.

Lemma date_sep_not_colon (c : N) :
  is_date_sep1 c = true \/ is_date_sep2 c = true -> c <> COLON.
Proof.
  unfold is_date_sep1, is_date_sep2, COLON. intros [H | H] ->; discriminate H.
Qed.

Lemma pattern_tier_round_trip (y m d : Z) (sep1 sep2 : N) (mid : str) (h mi : Z) :
  reads_ascii_digits ->
  (1 <= y <= 9999 /\ 1 <= m <= 12 /\ 1 <= d <= days_in_month y m
   /\ 0 <= h <= 23 /\ 0 <= mi <= 59)%Z ->
  is_date_sep1 sep1 = true -> is_date_sep2 sep2 = true ->
  Forall (fun c => c <> COLON) mid ->
  parse_by_pattern (date_time_text y m d sep1 sep2 mid h mi)
  = Return (Some {| year := y; month := m; day := d; hour := h; minute := mi;
                    second := 0; microsecond := 0; tzinfo := Some 0%Z |}).
Proof.
  intros Hd (Hy & Hm & Hday & Hh & Hmi) Hs1 Hs2 Hmid.
  assert (Hd31 : (days_in_month y m <= 31)%Z).
  { unfold days_in_month. repeat destruct (_ =? _)%Z; simpl; try destruct (is_leap y); lia. }
  assert (Hdate : re_search match_date_here (date_time_text y m d sep1 sep2 mid h mi)
                  = Some (y, m, d)).
  { unfold date_time_text.
    assert (Hhere : match_date_here
                      (four_digit_text y ++ sep1 :: two_digit_text m ++ sep2
                         :: two_digit_text d ++ mid ++ two_digit_text h
                         ++ COLON :: two_digit_text mi) = Some (y, m, d)).
    { unfold match_date_here. rewrite four_digits_text by (try exact Hd; lia).
      rewrite Hs1.
      destruct (digits_1_2_text m (sep2 :: two_digit_text d ++ mid ++ two_digit_text h
                                     ++ COLON :: two_digit_text mi) Hd ltac:(lia))
        as [alts ->].
      cbn [first_match fst snd]. rewrite Hs2.
      destruct (digits_1_2_text d (mid ++ two_digit_text h ++ COLON :: two_digit_text mi)
                  Hd ltac:(lia)) as [alts' ->].
      reflexivity. }
    apply re_search_here, Hhere. }
  assert (Hhm : re_search match_hm_here (date_time_text y m d sep1 sep2 mid h mi)
                = Some (h, mi)).
  { unfold date_time_text.
    pose proof two_digit_bounds as Hdiv.
    assert (Hdig2 : forall v, (0 <= v <= 99)%Z ->
                              Forall (fun c => c <> COLON) (two_digit_text v)).
    { intros v Hv. destruct (Hdiv v Hv).
      repeat constructor; apply digit_char_not_colon; assumption. }
    assert (Hpre : Forall (fun c => c <> COLON)
                          (four_digit_text y ++ sep1 :: two_digit_text m ++ sep2
                             :: two_digit_text d ++ mid)).
    { unfold four_digit_text.
      destruct (four_digit_bounds y ltac:(lia)) as [Hy1 Hy2].
      apply Forall_app. split.
      - apply Forall_app. split; apply Hdig2; assumption.
      - constructor; [apply date_sep_not_colon; left; exact Hs1 |].
        apply Forall_app. split; [apply Hdig2; lia |].
        constructor; [apply date_sep_not_colon; right; exact Hs2 |].
        apply Forall_app. split; [apply Hdig2; lia | exact Hmid]. }
    destruct (Hdiv h ltac:(lia)) as [Hh1 Hh2].
    assert (Es : four_digit_text y ++ sep1 :: two_digit_text m ++ sep2
                   :: two_digit_text d ++ mid ++ two_digit_text h
                   ++ COLON :: two_digit_text mi
                 = (four_digit_text y ++ sep1 :: two_digit_text m ++ sep2
                      :: two_digit_text d ++ mid)
                   ++ digit_char (h / 10) :: digit_char (h mod 10)
                   :: COLON :: two_digit_text mi).
    { unfold four_digit_text, two_digit_text. simpl.
      repeat f_equal; try (rewrite <- app_assoc; reflexivity). }
    rewrite Es.
    rewrite (re_search_hm_skip _ _ _ _ Hpre
               (digit_char_not_colon _ Hh1) (digit_char_not_colon _ Hh2)).
    apply re_search_here.
    change (digit_char (h / 10) :: digit_char (h mod 10) :: COLON :: two_digit_text mi)
      with (two_digit_text h ++ COLON :: two_digit_text mi).
    unfold match_hm_here.
    destruct (digits_1_2_text h (COLON :: two_digit_text mi) Hd ltac:(lia))
      as [alts ->].
    cbn [first_match fst snd]. rewrite N.eqb_refl.
    rewrite <- (app_nil_r (two_digit_text mi)).
    rewrite two_digits_text by (try exact Hd; lia). reflexivity. }
  unfold parse_by_pattern. rewrite Hdate, Hhm.
  unfold datetime_utc.
  replace ((1 <=? y) && (y <=? 9999) && (1 <=? m) && (m <=? 12) && (1 <=? d)
           && (d <=? days_in_month y m))%Z with true
    by (symmetry; repeat (apply andb_true_iff; split); apply Z.leb_le; lia).
  simpl. unfold replace_hour_minute. simpl.
  replace ((0 <=? h) && (h <=? 23) && (0 <=? mi) && (mi <=? 59))%Z with true
    by (symmetry; repeat (apply andb_true_iff; split); apply Z.leb_le; lia).
  reflexivity.
Qed.

Lemma try_formats_all_fail (time_str : str) (fmts : list str) :
  (forall fmt, strptime time_str fmt = Raise ValueError) ->
  try_formats time_str fmts = Return None.
Proof.
  intros H. induction fmts as [| fmt rest IH]; [reflexivity |].
  simpl. rewrite H. exact IH.
Qed.

Lemma lstrip_id (c : N) (rest : str) : isspace c = false -> lstrip (c :: rest) = c :: rest.
Proof. intros H. simpl. rewrite H. reflexivity. Qed.

Lemma strip_id (c : N) (body : str) (z : N) :
  isspace c = false -> isspace z = false ->
  strip (c :: body ++ [z]) = c :: body ++ [z].
Proof.
  intros Hc Hz.
  assert (E1 : rev (c :: body ++ [z]) = z :: rev (c :: body)).
  { change (c :: body ++ [z]) with ((c :: body) ++ [z]).
    rewrite rev_app_distr. reflexivity. }
  unfold strip, rstrip.
  rewrite (lstrip_id c _ Hc), E1, (lstrip_id z _ Hz), <- E1, rev_involutive.
  reflexivity.
Qed.

(** X15. Round trip.  A date and a time of day written year first with
    zero-padded fields, with any of the separators the pattern accepts
    (so also the Chinese year and month marks) and any text free of
    colons before the hour, is read back exactly, at UTC, when neither
    library parser takes the string. *)
Theorem _parse_time_round_trip (y m d : Z) (sep1 sep2 : N) (mid : str) (h mi : Z) :
  reads_ascii_digits ->
  (1 <= y <= 9999 /\ 1 <= m <= 12 /\ 1 <= d <= days_in_month y m
   /\ 0 <= h <= 23 /\ 0 <= mi <= 59)%Z ->
  is_date_sep1 sep1 = true -> is_date_sep2 sep2 = true ->
  Forall (fun c => c <> COLON) mid ->
  (exists e, parsedate_to_datetime (date_time_text y m d sep1 sep2 mid h mi) = Raise e) ->
  (forall fmt, strptime (date_time_text y m d sep1 sep2 mid h mi) fmt = Raise ValueError) ->
  _parse_time (date_time_text y m d sep1 sep2 mid h mi)
  = Return (Some {| year := y; month := m; day := d; hour := h; minute := mi;
                    second := 0; microsecond := 0; tzinfo := Some 0%Z |}).
Proof.
  intros Hd Hr Hs1 Hs2 Hmid [e He] Hfmt.
  pose proof (pattern_tier_round_trip y m d sep1 sep2 mid h mi Hd Hr Hs1 Hs2 Hmid) as Hp.
  destruct Hr as (Hy & Hm & Hday & Hh & Hmi).
  assert (Hstrip : strip (date_time_text y m d sep1 sep2 mid h mi)
                   = date_time_text y m d sep1 sep2 mid h mi).
  { assert (Es : date_time_text y m d sep1 sep2 mid h mi
                 = digit_char ((y / 100) / 10)
                   :: (digit_char ((y / 100) mod 10) :: digit_char ((y mod 100) / 10)
                       :: digit_char ((y mod 100) mod 10) :: sep1 :: digit_char (m / 10)
                       :: digit_char (m mod 10) :: sep2 :: digit_char (d / 10)
                       :: digit_char (d mod 10) :: mid
                       ++ [digit_char (h / 10); digit_char (h mod 10); COLON;
                           digit_char (mi / 10)])
                   ++ [digit_char (mi mod 10)]).
    { unfold date_time_text, four_digit_text, two_digit_text. simpl.
      rewrite <- app_assoc. reflexivity. }
    rewrite Es. apply strip_id; apply digit_char_not_space.
    - destruct (four_digit_bounds y ltac:(lia)) as [Hy1 _].
      apply (two_digit_bounds _ Hy1).
    - apply (two_digit_bounds mi). lia. }
  assert (Hne : is_empty (date_time_text y m d sep1 sep2 mid h mi) = false).
  { unfold date_time_text, four_digit_text, two_digit_text. reflexivity. }
  unfold _parse_time. rewrite Hne, Hstrip, He.
  rewrite try_formats_all_fail by exact Hfmt. simpl. exact Hp.
Qed.

(** *** The card of one item *)

Lemma count_app (c : N) (a b : str) :
  count c (a ++ b) = count c a + count c b.
Proof.
  unfold count. rewrite List.filter_app, length_app. reflexivity.
Qed.

Lemma count_replace_self (c : N) (r s : str) :
  count c r = 0 -> count c (replace_char c r s) = 0.
Proof.
  intros Hr. induction s as [| x s IH]; [reflexivity |].
  cbn [replace_char]. rewrite count_app, IH.
  destruct (x =? c)%N eqn:E; [rewrite Hr; reflexivity |].
  unfold count. cbn [List.filter]. rewrite N.eqb_sym, E. reflexivity.
Qed.

Lemma count_replace_other (c c' : N) (r s : str) :
  count c r = 0 -> count c s = 0 -> count c (replace_char c' r s) = 0.
Proof.
  intros Hr. induction s as [| x s IH]; [reflexivity |].
  intros Hs. change (x :: s) with ([x] ++ s) in Hs. rewrite count_app in Hs.
  cbn [replace_char]. rewrite count_app, IH by lia.
  destruct (x =? c')%N; [rewrite Hr; reflexivity | lia].
Qed.

(** What [html.escape] returns holds none of the four characters that
    open or close markup or an attribute value. *)
Lemma html_escape_inert (s : str) :
  count LT (html_escape s) = 0 /\ count GT (html_escape s) = 0
  /\ count QUOTE (html_escape s) = 0 /\ count APOSTROPHE (html_escape s) = 0.
Proof.
  unfold html_escape. repeat split.
  - do 2 (apply count_replace_other; [reflexivity |]).
    apply count_replace_other; [reflexivity |].
    apply count_replace_self. reflexivity.
  - do 2 (apply count_replace_other; [reflexivity |]).
    apply count_replace_self. reflexivity.
  - apply count_replace_other; [reflexivity |].
    apply count_replace_self. reflexivity.
  - apply count_replace_self. reflexivity.
Qed.

Lemma colors_get_inert (cat : str) (c : N) :
  c = LT \/ c = GT \/ c = QUOTE \/ c = APOSTROPHE ->
  let col := colors_get cat CATEGORY_COLORS (u "#eeeeee", u "#333333") in
  count c col.1 = 0 /\ count c col.2 = 0.
Proof.
  intros Hc. unfold CATEGORY_COLORS. cbn [colors_get].
  repeat (match goal with
          | |- context [if str_eqb cat ?k then _ else _] =>
              destruct (str_eqb cat k)
          end);
    destruct Hc as [-> | [-> | [-> | ->]]]; split; reflexivity.
Qed.

Lemma _category_badge_counts (cat : str) :
  count LT (_category_badge cat) = 2 /\ count GT (_category_badge cat) = 2
  /\ count QUOTE (_category_badge cat) = 4
  /\ count APOSTROPHE (_category_badge cat) = 0.
Proof.
  destruct (html_escape_inert cat) as (E1 & E2 & E3 & E4).
  destruct (colors_get_inert cat LT ltac:(auto)) as [L1 L2].
  destruct (colors_get_inert cat GT ltac:(auto)) as [G1 G2].
  destruct (colors_get_inert cat QUOTE ltac:(auto 6)) as [Q1 Q2].
  destruct (colors_get_inert cat APOSTROPHE ltac:(auto 6)) as [A1 A2].
  cbv zeta in L1, L2, G1, G2, Q1, Q2, A1, A2.
  unfold _category_badge, quoted. cbv zeta.
  repeat split; rewrite !count_app;
    rewrite ?E1, ?E2, ?E3, ?E4, ?L1, ?L2, ?G1, ?G2, ?Q1, ?Q2, ?A1, ?A2;
    reflexivity.
Qed.

(** X16 ([_news_card], [_category_badge]): the markup of a card does not
    depend on the texts of the item.  Whatever the title, the summary, the
    source, the time, the category and the address hold, the card of an
    item without a link has 12 opening and 12 closing angle brackets
    (its own tags), 14 double quotes and no apostrophe; a link that is a
    non-empty string adds a single anchor: 14, 14 and 20.  A link that is
    truthy without being a string is never rendered: the call raises
    [AttributeError]. *)
Theorem _news_card_markup_fixed (n : item) :
  (truthy (link n) = false ->
   exists card, _news_card n = Return card
     /\ count LT card = 12 /\ count GT card = 12
     /\ count QUOTE card = 14 /\ count APOSTROPHE card = 0)
  /\ (forall l, link n = PStr l -> is_empty l = false ->
      exists card, _news_card n = Return card
        /\ count LT card = 14 /\ count GT card = 14
        /\ count QUOTE card = 20 /\ count APOSTROPHE card = 0)
  /\ (truthy (link n) = true -> (forall l, link n <> PStr l) ->
      _news_card n = Raise AttributeError).
Proof.
  destruct (html_escape_inert (title n)) as (T1 & T2 & T3 & T4).
  destruct (html_escape_inert (summary n)) as (S1 & S2 & S3 & S4).
  destruct (html_escape_inert (source n)) as (O1 & O2 & O3 & O4).
  destruct (html_escape_inert (time n)) as (I1 & I2 & I3 & I4).
  destruct (_category_badge_counts (category n)) as (B1 & B2 & B3 & B4).
  assert (M : forall c, count c (html_escape (source n)) = 0 ->
                        count c (html_escape (time n)) = 0 ->
                        count c [32; 183; 32]%N = 0 ->
                        count c (if is_empty (html_escape (time n))
                                 then html_escape (source n)
                                 else html_escape (source n) ++ [32; 183; 32]%N
                                        ++ html_escape (time n)) = 0).
  { intros c H1 H2 H3. destruct (is_empty _); [exact H1 |].
    rewrite !count_app, H1, H2, H3. reflexivity. }
  pose proof (M LT O1 I1 eq_refl) as M1.
  pose proof (M GT O2 I2 eq_refl) as M2.
  pose proof (M QUOTE O3 I3 eq_refl) as M3.
  pose proof (M APOSTROPHE O4 I4 eq_refl) as M4.
  clear M. split; [| split].
  - intros Hl. unfold _news_card. cbv zeta. rewrite Hl.
    eexists. split; [reflexivity |]. unfold quoted.
    repeat split; rewrite !count_app;
      rewrite ?T1, ?T2, ?T3, ?T4, ?S1, ?S2, ?S3, ?S4,
              ?M1, ?M2, ?M3, ?M4, ?B1, ?B2, ?B3, ?B4;
      reflexivity.
  - intros l El Hne. unfold _news_card. cbv zeta. rewrite El.
    destruct (html_escape_inert l) as (L1 & L2 & L3 & L4).
    cbn [truthy]. rewrite Hne. cbn [negb html_escape_val].
    eexists. split; [reflexivity |]. unfold quoted.
    repeat split; rewrite !count_app;
      rewrite ?T1, ?T2, ?T3, ?T4, ?S1, ?S2, ?S3, ?S4, ?L1, ?L2, ?L3, ?L4,
              ?M1, ?M2, ?M3, ?M4, ?B1, ?B2, ?B3, ?B4;
      reflexivity.
  - intros Hl Hns. unfold _news_card. cbv zeta. rewrite Hl.
    destruct (link n) as [| b | z | m e | l | l | kvs] eqn:El;
      try reflexivity.
    exfalso. exact (Hns l eq_refl).
Qed.

(** *** The description of an article *)

Lemma gather_texts_all (P : str -> Prop) (keep : str -> bool) (tags : list Tag) :
  (forall raw, keep (_clean raw) = true -> P (_clean raw)) ->
  forall acc, Forall P acc -> Forall P (gather_texts keep acc tags).
Proof.
  intros Hk. induction tags as [| t tags IH]; intros acc Hacc; [exact Hacc |].
  cbn [gather_texts]. cbv zeta.
  destruct (keep (_clean (get_text t))) eqn:E; [| apply IH; exact Hacc].
  assert (Hacc' : Forall P (acc ++ [_clean (get_text t)])).
  { apply Forall_app. split; [exact Hacc |].
    constructor; [apply Hk; exact E | constructor]. }
  destruct (400 <=? _); [exact Hacc' | apply IH; exact Hacc'].
Qed.

Lemma join_length_head (sep : N) (p : str) (rest : list str) :
  length p <= length (join sep (p :: rest)).
Proof.
  destruct rest as [| q rest]; cbn [join]; [lia |].
  rewrite length_app. lia.
Qed.

Lemma meta_desc_cleaned (tag : option Tag) (desc : str) :
  meta_desc tag = Some desc -> cleaned_text desc.
Proof.
  unfold meta_desc. destruct tag as [t |]; [| discriminate]. cbv zeta.
  destruct (negb _); [| discriminate].
  destruct (not_generic _); [| discriminate]. cbn [andb].
  destruct (30 <? _) eqn:E; [| discriminate].
  intros [= <-]. split; [apply Nat.ltb_lt; exact E | eexists; reflexivity].
Qed.

Lemma after_meta_cleaned (soup : Soup) (best_meta desc : str) :
  best_meta = [] \/ cleaned_text best_meta ->
  after_meta soup best_meta = Some desc ->
  exists parts, desc = join SPACE parts /\ Forall cleaned_text parts.
Proof.
  intros Hb. unfold after_meta. cbv zeta.
  match goal with
  | |- context [gather_texts ?k [] ?tags] =>
      assert (Hg : Forall cleaned_text (gather_texts k [] tags));
      [| generalize dependent (gather_texts k [] tags)]
  end.
  { apply gather_texts_all; [| constructor].
    intros raw Hk. apply andb_prop in Hk as [Hk _].
    apply Nat.ltb_lt in Hk. split; [lia | eexists; reflexivity]. }
  intros paragraphs Hg.
  destruct (negb (bool_decide (paragraphs = [])) && _).
  - intros [= <-]. exists paragraphs. split; [reflexivity | exact Hg].
  - destruct (is_empty best_meta) eqn:E; [discriminate |]. cbn [negb].
    intros [= <-]. destruct Hb as [-> | Hb]; [discriminate E |].
    exists [best_meta]. split; [reflexivity |].
    constructor; [exact Hb | constructor].
Qed.

Lemma page_description_cleaned (soup : Soup) (desc : str) :
  page_description soup = Some desc ->
  exists parts, desc = join SPACE parts /\ Forall cleaned_text parts.
Proof.
  assert (One : forall d, cleaned_text d ->
            exists parts, d = join SPACE parts /\ Forall cleaned_text parts).
  { intros d Hd. exists [d]. split; [reflexivity |].
    constructor; [exact Hd | constructor]. }
  unfold page_description.
  destruct (meta_desc (find_meta soup (u "property") _)) as [d |] eqn:E1.
  - apply meta_desc_cleaned in E1.
    destruct (150 <=? length d).
    + intros [= <-]. apply One. exact E1.
    + apply after_meta_cleaned. right. exact E1.
  - destruct (meta_desc (find_meta soup (u "name") _)) as [d |] eqn:E2.
    + apply meta_desc_cleaned in E2.
      destruct (150 <=? length d).
      * intros [= <-]. apply One. exact E2.
      * apply after_meta_cleaned. right. exact E2.
    + apply after_meta_cleaned. left. reflexivity.
Qed.

Lemma _fetch_ddg_snippet_cleaned (url : str) :
  exists parts, _fetch_ddg_snippet url = join SPACE parts
                /\ Forall cleaned_text parts.
Proof.
  unfold _fetch_ddg_snippet.
  match goal with
  | |- context [match ?m with Return _ => _ | Raise _ => _ end] =>
      destruct m as [snippets | e] eqn:E
  end.
  2: { exists []. split; [reflexivity | constructor]. }
  destruct snippets as [| p rest].
  { exists []. split; [reflexivity | constructor]. }
  exists (p :: rest). split; [reflexivity |].
  unfold mbind, outcome_bind in E.
  destruct (match _resolve_google_news_url url with
            | PStr real_url => _ | _ => _ end) as [query | ?];
    [| discriminate E].
  destruct (quote query) as [q | ?]; [| discriminate E].
  destruct (get_search _) as [soup | ?]; [| discriminate E].
  injection E as E. rewrite <- E.
  apply gather_texts_all; [| constructor].
  intros raw Hk. apply Nat.ltb_lt in Hk. split; [lia | eexists; reflexivity].
Qed.

(** X17 ([_fetch_og_description], [_fetch_ddg_snippet]): whatever the
    network and the pages answer, the description of an article is a run
    of texts joined by single spaces, each of them a result of [_clean]
    longer than 30 characters.  So a description is either empty or
    longer than 30 characters: a short fragment is never returned. *)
Theorem _fetch_og_description_never_short (url : str) :
  (exists parts, _fetch_og_description_str url = join SPACE parts
                 /\ Forall cleaned_text parts)
  /\ (_fetch_og_description_str url = []
      \/ 30 < length (_fetch_og_description_str url)).
Proof.
  assert (H : exists parts, _fetch_og_description_str url = join SPACE parts
                            /\ Forall cleaned_text parts).
  { unfold _fetch_og_description_str.
    unfold mbind, outcome_bind.
    destruct (get_article _) as [soup | ?];
      [| apply _fetch_ddg_snippet_cleaned].
    destruct (page_description soup) as [d |] eqn:E;
      [| apply _fetch_ddg_snippet_cleaned].
    apply page_description_cleaned in E. exact E. }
  split; [exact H |].
  destruct H as (parts & -> & Hp).
  destruct parts as [| p rest]; [left; reflexivity | right].
  apply Forall_cons in Hp as [[Hp _] _].
  pose proof (join_length_head SPACE p rest). lia.
Qed.

(** *** The API fetcher and a malformed entry *)

Lemma cls_loop_raises (src : source_config) (bad : pyval) (roll_data : list pyval) :
  bad ∈ roll_data -> (exists e, cls_item src bad = Raise e) ->
  forall results, exists e, cls_loop src roll_data results = Raise e.
Proof.
  intros Hin [e He]. induction roll_data as [| it rest IH]; intros results.
  { inversion Hin. }
  cbn [cls_loop]. unfold mbind, outcome_bind.
  destruct (cls_item src it) as [r | e'] eqn:E; [| exists e'; reflexivity].
  apply elem_of_cons in Hin as [-> | Hin]; [congruence |].
  apply IH. exact Hin.
Qed.

(** X18 ([_fetch_cls_api], [fetch_source]): the API fetcher is all or
    nothing.  When the list under data.roll_data holds one entry that is
    not an object, wherever it stands, the fetcher raises, and
    [fetch_source] returns the empty list for the source: the well-formed
    entries next to it are lost with it. *)
Theorem _fetch_cls_api_all_or_nothing (src : source_config) (data d : pyval)
        (roll_data : list pyval) (bad : pyval) :
  fetch_json (src_url src) = Return data ->
  py_get data (u "data") (PDict []) = Return d ->
  py_get d (u "roll_data") (PList []) = Return (PList roll_data) ->
  bad ∈ roll_data -> (forall kvs, bad <> PDict kvs) ->
  (exists e, _fetch_cls_api src = Raise e)
  /\ (src_method src = u "cls_api" -> fetch_source src = Return []).
Proof.
  intros Hj Hd Hr Hin Hbad.
  assert (Hb : exists e, cls_item src bad = Raise e).
  { exists AttributeError.
    destruct bad as [| b | z | m e | t | l | kvs]; try reflexivity.
    exfalso. exact (Hbad kvs eq_refl). }
  assert (H : exists e, _fetch_cls_api src = Raise e).
  { unfold _fetch_cls_api. rewrite Hj. cbn [mbind outcome_bind].
    rewrite Hd. cbn [mbind outcome_bind]. rewrite Hr.
    cbn [mbind outcome_bind py_iter].
    apply (cls_loop_raises src bad); assumption. }
  split; [exact H |].
  intros Hm. destruct H as [e He].
  unfold fetch_source, fetch_dispatch. rewrite Hm, He. reflexivity.
Qed.

End GenNews.

(** ** The pipeline in the small world *)

Abbreviation toy_fetch_scrape :=
  (_fetch_scrape toy_unescape unit nat toy_fetch_page toy_select toy_select_one
     toy_get_text toy_get_text toy_is_a toy_get_href toy_find_a).
Abbreviation toy_fetch_source :=
  (fetch_source toy_unescape toy_fetch_feed unit nat toy_fetch_page toy_select
     toy_select_one toy_get_text toy_get_text toy_is_a toy_get_href toy_find_a
     toy_fetch_json toy_strftime_localtime).
Abbreviation toy_fetch_all :=
  (fetch_all toy_unescape toy_fetch_feed unit nat toy_fetch_page toy_select
     toy_select_one toy_get_text toy_get_text toy_is_a toy_get_href toy_find_a
     toy_fetch_json toy_strftime_localtime toy_lower toy_fetch_og_description
     toy_translate_batch toy_parsedate toy_strptime toy_digit_value
     toy_matches_keywords toy_as_completed toy_now).
Abbreviation toy_parse_time := (_parse_time toy_parsedate toy_strptime toy_digit_value).
Abbreviation toy_sources := [toy_rss; toy_untitled; toy_scrape; toy_api; toy_bad_api].

Lemma toy_strptime_ok : strptime_raises_only_ValueError toy_strptime.
Proof. intros s fmt e H. injection H as <-. reflexivity. Qed.

(** C1. The RSS fetcher does not drop an entry without a title: the feed
    whose only entry has none comes back as one item, and the title of
    that item is empty; [fetch_source] hands it on. *)
Theorem rss_untitled_entry_kept :
  title <$> _fetch_rss toy_unescape toy_fetch_feed toy_untitled = [[]]
  /\ exists n, toy_fetch_source toy_untitled = Return [n] /\ title n = [].
Proof.
  split; [vm_compute; reflexivity |].
  eexists. split; vm_compute; reflexivity.
Qed.

(** The claim of C2 as the specification words it fails on the page of
    the small world: the item scraped from it has a title of 81
    characters and a summary of 501. *)
Lemma scraped_item_over_the_caps :
  exists n,
    toy_fetch_scrape toy_scrape = Return [n]
    /\ ~ (length (title n) <= 80) /\ ~ (length (summary n) <= 500).
Proof.
  eexists. split; [vm_compute; reflexivity |].
  split; vm_compute; lia.
Qed.

Lemma fetched_lengths_witness :
  exists l,
    toy_fetch_scrape toy_scrape = Return l
    /\ forall n, n ∈ l ->
                 truncated_title n /\ truncated_summary n
                 /\ length (title n) <= 81 /\ length (summary n) <= 501.
Proof.
  pose proof (fetched_lengths toy_unescape toy_fetch_feed unit nat toy_fetch_page
                toy_select toy_select_one toy_get_text toy_get_text toy_is_a
                toy_get_href toy_find_a toy_fetch_json toy_strftime_localtime)
    as (_ & _ & Hs & _).
  destruct (toy_fetch_scrape toy_scrape) as [l | e] eqn:E;
    [| vm_compute in E; discriminate E].
  exists l. split; [reflexivity |].
  intros n Hn. exact (Hs toy_scrape l n E Hn).
Defined.

Lemma per_source_cap_spec_witness :
  Forall (fun n => source n = u "Example") (replicate 8 (ex_item []))
  /\ length (replicate 8 (ex_item [])) = 8
  /\ per_source_cap (replicate 8 (ex_item [])) = take 5 (replicate 8 (ex_item []))
  /\ length (per_source_cap (replicate 8 (ex_item []))) = 5.
Proof.
  assert (H1 : Forall (fun n => source n = u "Example") (replicate 8 (ex_item []))).
  { simpl. repeat constructor. }
  assert (H2 : length (replicate 8 (ex_item [])) = 8) by reflexivity.
  split; [exact H1 |]. split; [exact H2 |].
  exact (proj2 (proj2 (per_source_cap_spec (replicate 8 (ex_item []))))
           (u "Example") H1 H2).
Defined.

Lemma final_list_ordered_witness :
  strptime_raises_only_ValueError toy_strptime
  /\ (weeks 2 < toy_now)%Z
  /\ exists final, toy_fetch_all toy_sources = Return final /\ ordered_by_time final.
Proof.
  pose proof toy_strptime_ok as H1.
  assert (H2 : (weeks 2 < toy_now)%Z) by (vm_compute; reflexivity).
  split; [exact H1 |]. split; [exact H2 |].
  exact (final_list_ordered toy_unescape toy_fetch_feed unit nat toy_fetch_page
           toy_select toy_select_one toy_get_text toy_get_text toy_is_a
           toy_get_href toy_find_a toy_fetch_json toy_strftime_localtime toy_lower
           toy_fetch_og_description toy_translate_batch toy_parsedate toy_strptime
           toy_digit_value toy_matches_keywords toy_as_completed toy_now
           toy_sources H1 H2).
Defined.

Lemma freshness_cutoff_spec_witness :
  instant (midnight_utc 2026 10 22) = (toy_now - days 13)%Z
  /\ instant (midnight_utc 2026 10 20) = (toy_now - days 15)%Z
  /\ (toy_dated (Some (midnight_utc 2026 10 22))
        ∈ cutoff_and_sort toy_now
            [ toy_dated (Some (midnight_utc 2026 10 22));
              toy_dated (Some (midnight_utc 2026 10 20));
              toy_dated None ])
  /\ (toy_dated (Some (midnight_utc 2026 10 20))
        ∉ cutoff_and_sort toy_now
            [ toy_dated (Some (midnight_utc 2026 10 22));
              toy_dated (Some (midnight_utc 2026 10 20));
              toy_dated None ])
  /\ (toy_dated None
        ∈ cutoff_and_sort toy_now
            [ toy_dated (Some (midnight_utc 2026 10 22));
              toy_dated (Some (midnight_utc 2026 10 20));
              toy_dated None ])
  /\ cutoff_and_sort toy_now
       [ toy_dated (Some (midnight_utc 2026 10 22));
         toy_dated (Some (midnight_utc 2026 10 20));
         toy_dated None ]
     = [ toy_dated (Some (midnight_utc 2026 10 22)); toy_dated None ]
  /\ exists final,
       toy_fetch_all toy_sources = Return final /\ final <> []
       /\ Forall (fun n => ~ stale toy_now n) final.
Proof.
  assert (H13 : instant (midnight_utc 2026 10 22) = (toy_now - days 13)%Z)
    by (vm_compute; reflexivity).
  assert (H15 : instant (midnight_utc 2026 10 20) = (toy_now - days 15)%Z)
    by (vm_compute; reflexivity).
  pose proof (freshness_cutoff_spec toy_unescape toy_fetch_feed unit nat
                toy_fetch_page toy_select toy_select_one toy_get_text toy_get_text
                toy_is_a toy_get_href toy_find_a toy_fetch_json
                toy_strftime_localtime toy_lower toy_fetch_og_description
                toy_translate_batch toy_parsedate toy_strptime toy_digit_value
                toy_matches_keywords toy_as_completed toy_now toy_now
                [ toy_dated (Some (midnight_utc 2026 10 22));
                  toy_dated (Some (midnight_utc 2026 10 20));
                  toy_dated None ]) as (_ & _ & Hk & Hd & Hu & Hall).
  split; [exact H13 |]. split; [exact H15 |].
  split; [| split; [| split; [| split]]].
  - apply (Hk (toy_dated (Some (midnight_utc 2026 10 22)))
              (midnight_utc 2026 10 22));
      [apply elem_of_cons; left; reflexivity | reflexivity | exact H13].
  - exact (Hd (toy_dated (Some (midnight_utc 2026 10 20)))
              (midnight_utc 2026 10 20) eq_refl H15).
  - apply (Hu (toy_dated None)); [| reflexivity].
    do 2 (apply elem_of_cons; right). apply elem_of_cons. left. reflexivity.
  - vm_compute. reflexivity.
  - destruct (toy_fetch_all toy_sources) as [final | e] eqn:E;
      [| vm_compute in E; discriminate E].
    exists final. split; [reflexivity |].
    split; [intros ->; vm_compute in E; discriminate E |].
    exact (Hall toy_sources final E).
Defined.

Lemma _parse_time_total_witness :
  strptime_raises_only_ValueError toy_strptime
  /\ (forall time_str : str,
         exists r, toy_parse_time time_str = Return r /\ aware_or_unknown r)
  /\ (forall s1 s2 : str, s1 = s2 -> toy_parse_time s1 = toy_parse_time s2).
Proof.
  pose proof toy_strptime_ok as H1.
  split; [exact H1 |].
  exact (_parse_time_total toy_parsedate toy_strptime toy_digit_value H1).
Defined.



Lemma fetch_source_never_raises_witness :
  src_method toy_bad_api = u "cls_api"
  /\ toy_fetch_json (src_url toy_bad_api) = Return (PList [])
  /\ (forall kvs, PList [] <> PDict kvs)
  /\ toy_fetch_source toy_bad_api = Return [].
Proof.
  assert (H1 : src_method toy_bad_api = u "cls_api") by reflexivity.
  assert (H2 : toy_fetch_json (src_url toy_bad_api) = Return (PList []))
    by (vm_compute; reflexivity).
  assert (H3 : forall kvs, PList [] <> PDict kvs) by (intros kvs; discriminate).
  pose proof (fetch_source_never_raises toy_unescape toy_fetch_feed unit nat
                toy_fetch_page toy_select toy_select_one toy_get_text toy_get_text
                toy_is_a toy_get_href toy_find_a toy_fetch_json
                toy_strftime_localtime toy_bad_api) as (_ & _ & _ & Hshape & _).
  split; [exact H1 |]. split; [exact H2 |]. split; [exact H3 |].
  exact (Hshape (PList []) H1 H2 H3).
Defined.

Lemma summary_bound_invariant_witness :
  strptime_raises_only_ValueError toy_strptime
  /\ exists final,
       toy_fetch_all toy_sources = Return final
       /\ Forall (fun n => summary_ok (news n)) final.
Proof.
  pose proof toy_strptime_ok as H1.
  split; [exact H1 |].
  eexists. split; [vm_compute; reflexivity |].
  eapply (proj2 (proj2 (proj2 (proj2 (proj2
            (summary_bound_invariant toy_unescape toy_fetch_feed unit nat
               toy_fetch_page toy_select toy_select_one toy_get_text toy_get_text
               toy_is_a toy_get_href toy_find_a toy_fetch_json
               toy_strftime_localtime toy_lower toy_fetch_og_description
               toy_translate_batch toy_parsedate toy_strptime toy_digit_value
               toy_matches_keywords toy_as_completed toy_now)))))
            H1 toy_sources).
  vm_compute. reflexivity.
Defined.

Lemma empty_title_always_useless_witness :
  toy_lower [] = []
  /\ (forall summary : str, _is_summary_useless toy_lower [] summary = true)
  /\ needs_enrich toy_lower (rss_item toy_unescape toy_untitled untitled_entry) = true.
Proof.
  assert (H1 : toy_lower [] = []) by reflexivity.
  pose proof (empty_title_always_useless toy_unescape toy_lower H1)
    as (Hu & Hn & _ & _).
  split; [exact H1 |]. split; [exact Hu |].
  apply Hn; reflexivity.
Defined.

(** ** The further properties in the small world *)

Lemma sub_tags_leaves_no_tag_witness :
  (LT ∉ u "oil up") /\ sub_tags None (u "oil up") = u "oil up".
Proof.
  assert (H : LT ∉ u "oil up").
  { intros H. vm_compute in H.
    repeat (apply elem_of_cons in H as [H | H]; [discriminate H |]).
    inversion H. }
  split; [exact H |].
  exact (proj2 (proj2 (proj2 (sub_tags_leaves_no_tag (u "oil up")))) H).
Defined.

Lemma _fetch_rss_first_feed_wins_witness :
  Forall (feed_gives_nothing toy_fetch_feed) [u "https://toy.example/down"]
  /\ exists es,
       toy_fetch_feed (u "https://toy.example/rss") = Return es
       /\ es <> []
       /\ _fetch_rss toy_unescape toy_fetch_feed toy_fallback
          = rss_item toy_unescape toy_fallback <$> take 5 es.
Proof.
  assert (Hpre : Forall (feed_gives_nothing toy_fetch_feed)
                   [u "https://toy.example/down"]).
  { constructor; [| constructor]. left. exists RequestException.
    vm_compute. reflexivity. }
  split; [exact Hpre |].
  destruct (toy_fetch_feed (u "https://toy.example/rss")) as [es | e] eqn:E;
    [| vm_compute in E; discriminate E].
  assert (Hne : es <> []).
  { intros ->. vm_compute in E. discriminate E. }
  exists es. split; [reflexivity |]. split; [exact Hne |].
  exact (proj1 (proj2 (_fetch_rss_first_feed_wins toy_unescape toy_fetch_feed
                         toy_fallback))
           [u "https://toy.example/down"] (u "https://toy.example/rss") [] es
           eq_refl Hpre E Hne).
Defined.

Lemma fetch_source_tags_items_witness :
  exists l,
    toy_fetch_source toy_rss = Return l /\ l <> []
    /\ Forall (tagged_with toy_rss) l.
Proof.
  destruct (toy_fetch_source toy_rss) as [l | e] eqn:E;
    [| vm_compute in E; discriminate E].
  exists l. split; [reflexivity |].
  split; [intros ->; vm_compute in E; discriminate E |].
  exact (fetch_source_tags_items toy_unescape toy_fetch_feed unit nat toy_fetch_page toy_select
           toy_select_one toy_get_text toy_get_text toy_is_a toy_get_href toy_find_a
           toy_fetch_json toy_strftime_localtime toy_rss l E).
Defined.

Lemma _fetch_scrape_capped_and_absolute_witness :
  startswith (src_url toy_scrape) (u "http") = true
  /\ exists l,
       toy_fetch_scrape toy_scrape = Return l
       /\ length l <= 5
       /\ Forall (fun n => exists s : str,
                    link n = PStr s /\ (s = [] \/ startswith s (u "http") = true)) l.
Proof.
  assert (H : startswith (src_url toy_scrape) (u "http") = true) by reflexivity.
  split; [exact H |].
  destruct (toy_fetch_scrape toy_scrape) as [l | e] eqn:E;
    [| vm_compute in E; discriminate E].
  exists l. split; [reflexivity |].
  pose proof (_fetch_scrape_capped_and_absolute toy_unescape unit nat toy_fetch_page
                toy_select toy_select_one toy_get_text toy_get_text toy_is_a
                toy_get_href toy_find_a toy_scrape l E) as [H1 H2].
  split; [exact H1 | exact (H2 H)].
Defined.

Lemma per_source_cap_idempotent_witness :
  (forall s, length (filter (fun n => source n = s) (replicate 3 (ex_item []))) <= 5)
  /\ per_source_cap (replicate 3 (ex_item [])) = replicate 3 (ex_item []).
Proof.
  assert (H : forall s, length (filter (fun n => source n = s)
                                  (replicate 3 (ex_item []))) <= 5).
  { intros s. etransitivity; [apply length_filter |]. simpl. lia. }
  split; [exact H |].
  exact (proj1 (proj2 (per_source_cap_idempotent (replicate 3 (ex_item [])))) H).
Defined.

Lemma enrich_only_summaries_witness :
  [ex_item (u "Brent steady")] !! 0 = Some (ex_item (u "Brent steady"))
  /\ needs_enrich toy_lower (ex_item (u "Brent steady")) = false
  /\ enrich toy_lower toy_fetch_og_description [ex_item (u "Brent steady")] !! 0
     = Some (ex_item (u "Brent steady")).
Proof.
  assert (H1 : [ex_item (u "Brent steady")] !! 0 = Some (ex_item (u "Brent steady")))
    by reflexivity.
  assert (H2 : needs_enrich toy_lower (ex_item (u "Brent steady")) = false)
    by reflexivity.
  split; [exact H1 |]. split; [exact H2 |].
  destruct (proj2 (enrich_only_summaries toy_lower toy_fetch_og_description
                     [ex_item (u "Brent steady")])
              0 (ex_item (u "Brent steady")) H1) as (n' & E & _ & Hsame & _).
  rewrite E. f_equal. exact (Hsame H2).
Defined.

Lemma _translate_summaries_only_candidates_witness :
  [ex_item (u "Brent steady as OPEC holds output")] !! 0
  = Some (ex_item (u "Brent steady as OPEC holds output"))
  /\ exists n',
       items (_translate_summaries toy_translate_fixed
                [ex_item (u "Brent steady as OPEC holds output")]) !! 0 = Some n'
       /\ summary n' = u "translated summary"
       /\ answered_by toy_translate_fixed
            (calls (_translate_summaries toy_translate_fixed
                      [ex_item (u "Brent steady as OPEC holds output")]))
            (u "Brent steady as OPEC holds output") (summary n').
Proof.
  assert (H : [ex_item (u "Brent steady as OPEC holds output")] !! 0
              = Some (ex_item (u "Brent steady as OPEC holds output")))
    by reflexivity.
  split; [exact H |].
  destruct (proj1 (proj2 (_translate_summaries_only_candidates toy_translate_fixed
                            [ex_item (u "Brent steady as OPEC holds output")]))
              0 (ex_item (u "Brent steady as OPEC holds output")) H)
    as (n' & Hn' & _ & Hsum & _).
  assert (E : items (_translate_summaries toy_translate_fixed
                       [ex_item (u "Brent steady as OPEC holds output")]) !! 0
              = Some (ex_item (u "translated summary")))
    by (vm_compute; reflexivity).
  exists n'. split; [exact Hn' |].
  rewrite E in Hn'. injection Hn' as <-.
  split; [reflexivity |].
  destruct Hsum as [Heq | Ha]; [vm_compute in Heq; discriminate Heq | exact Ha].
Defined.

Lemma fetch_all_at_most_five_per_source_witness :
  strptime_raises_only_ValueError toy_strptime
  /\ exists final,
       toy_fetch_all toy_sources = Return final /\ final <> []
       /\ length (filter (fun n => source (news n) = u "Feed") final) <= 5.
Proof.
  pose proof toy_strptime_ok as H1.
  split; [exact H1 |].
  destruct (toy_fetch_all toy_sources) as [final | e] eqn:E;
    [| vm_compute in E; discriminate E].
  exists final. split; [reflexivity |].
  split; [intros ->; vm_compute in E; discriminate E |].
  exact (fetch_all_at_most_five_per_source toy_unescape toy_fetch_feed unit nat toy_fetch_page toy_select
           toy_select_one toy_get_text toy_get_text toy_is_a toy_get_href toy_find_a
           toy_fetch_json toy_strftime_localtime toy_lower toy_fetch_og_description
           toy_translate_batch toy_parsedate toy_strptime toy_digit_value
           toy_matches_keywords toy_as_completed toy_now toy_sources final (u "Feed") H1 E).
Defined.

Lemma cutoff_and_sort_stable_witness :
  (weeks 2 < toy_now)%Z
  /\ filter (fun n => _dt n = None)
       (cutoff_and_sort toy_now
          [toy_dated None; toy_dated (Some (midnight_utc 2026 11 3)); toy_dated None])
     = [toy_dated None; toy_dated None].
Proof.
  assert (H : (weeks 2 < toy_now)%Z) by (vm_compute; reflexivity).
  split; [exact H |].
  rewrite (proj2 (proj2 (cutoff_and_sort_stable toy_now
             [toy_dated None; toy_dated (Some (midnight_utc 2026 11 3));
              toy_dated None])) H).
  reflexivity.
Defined.

Lemma fetch_all_items_fresh_and_dated_witness :
  exists final,
    toy_fetch_all toy_sources = Return final /\ final <> []
    /\ Forall (fun n => is_fresh (cutoff_of toy_now) n = true
                        /\ toy_parse_time (time (news n)) = Return (_dt n)) final.
Proof.
  destruct (toy_fetch_all toy_sources) as [final | e] eqn:E;
    [| vm_compute in E; discriminate E].
  exists final. split; [reflexivity |].
  split; [intros ->; vm_compute in E; discriminate E |].
  exact (fetch_all_items_fresh_and_dated toy_unescape toy_fetch_feed unit nat toy_fetch_page toy_select
           toy_select_one toy_get_text toy_get_text toy_is_a toy_get_href toy_find_a
           toy_fetch_json toy_strftime_localtime toy_lower toy_fetch_og_description
           toy_translate_batch toy_parsedate toy_strptime toy_digit_value
           toy_matches_keywords toy_as_completed toy_now toy_sources final E).
Defined.

Lemma fetch_all_every_source_down_witness :
  Forall (fun s => toy_fetch_source s = Return [])
    (toy_as_completed [toy_dead_feed; toy_dead_page; toy_bad_api])
  /\ toy_fetch_all [toy_dead_feed; toy_dead_page; toy_bad_api] = Return [].
Proof.
  assert (H : Forall (fun s => toy_fetch_source s = Return [])
                (toy_as_completed [toy_dead_feed; toy_dead_page; toy_bad_api])).
  { unfold toy_as_completed. repeat constructor; vm_compute; reflexivity. }
  split; [exact H |].
  exact (proj2 (proj2
           (fetch_all_every_source_down toy_unescape toy_fetch_feed unit nat
              toy_fetch_page toy_select toy_select_one toy_get_text toy_get_text
              toy_is_a toy_get_href toy_find_a toy_fetch_json
              toy_strftime_localtime toy_lower toy_fetch_og_description
              toy_translate_batch toy_parsedate toy_strptime toy_digit_value
              toy_matches_keywords toy_as_completed toy_now
              [toy_dead_feed; toy_dead_page; toy_bad_api])) H).
Defined.

Lemma parse_by_pattern_valid_witness :
  exists dt,
    parse_by_pattern toy_digit_value (u "posted 2026-11-03 at 09:30") = Return (Some dt)
    /\ valid_utc_minute dt
    /\ year dt = 2026%Z /\ hour dt = 9%Z /\ minute dt = 30%Z.
Proof.
  destruct (parse_by_pattern toy_digit_value (u "posted 2026-11-03 at 09:30"))
    as [[dt |] | e] eqn:E; try (vm_compute in E; discriminate E).
  exists dt. split; [reflexivity |].
  destruct (proj1 (parse_by_pattern_valid toy_digit_value
                     (u "posted 2026-11-03 at 09:30")) dt E)
    as (Hv & y & m & d & Hd & Hy & _ & _ & Hhm).
  split; [exact Hv |].
  assert (Ed : re_search (match_date_here toy_digit_value)
                 (u "posted 2026-11-03 at 09:30") = Some (2026, 11, 3)%Z)
    by (vm_compute; reflexivity).
  assert (Eh : re_search (match_hm_here toy_digit_value)
                 (u "posted 2026-11-03 at 09:30") = Some (9, 30)%Z)
    by (vm_compute; reflexivity).
  rewrite Ed in Hd. rewrite Eh in Hhm. injection Hd as <- _ _.
  destruct Hhm as [Hh Hm]. split; [exact Hy |]. split; [exact Hh | exact Hm].
Defined.

Lemma _parse_time_round_trip_witness :
  reads_ascii_digits toy_digit_value
  /\ (1 <= 29 <= days_in_month 2024 2)%Z
  /\ toy_parse_time (date_time_text 2024 2 29 45 45 (u " at ") 9 5)
     = Return (Some {| year := 2024; month := 2; day := 29; hour := 9; minute := 5;
                       second := 0; microsecond := 0; tzinfo := Some 0%Z |}).
Proof.
  assert (H1 : reads_ascii_digits toy_digit_value).
  { intros d Hd.
    assert (Hc : (d = 0 \/ d = 1 \/ d = 2 \/ d = 3 \/ d = 4 \/ d = 5 \/ d = 6
                  \/ d = 7 \/ d = 8 \/ d = 9)%Z) by lia.
    repeat (destruct Hc as [-> | Hc]; [reflexivity |]). subst d. reflexivity. }
  assert (H2 : (1 <= 29 <= days_in_month 2024 2)%Z).
  { assert (E : days_in_month 2024 2 = 29%Z) by reflexivity. rewrite E. lia. }
  split; [exact H1 |]. split; [exact H2 |].
  apply (_parse_time_round_trip toy_parsedate toy_strptime toy_digit_value).
  - exact H1.
  - assert (E : days_in_month 2024 2 = 29%Z) by reflexivity. rewrite E. lia.
  - reflexivity.
  - reflexivity.
  - repeat constructor; discriminate.
  - exists ValueError. reflexivity.
  - intros fmt. reflexivity.
Defined.

Lemma _news_card_markup_fixed_witness :
  link toy_card_item = PStr (u "https://toy.example/?a=1&b=<2>")
  /\ is_empty (u "https://toy.example/?a=1&b=<2>") = false
  /\ exists card,
       _news_card toy_card_item = Return card
       /\ count LT card = 14 /\ count GT card = 14
       /\ count QUOTE card = 20 /\ count APOSTROPHE card = 0.
Proof.
  assert (H1 : link toy_card_item = PStr (u "https://toy.example/?a=1&b=<2>"))
    by reflexivity.
  assert (H2 : is_empty (u "https://toy.example/?a=1&b=<2>") = false)
    by reflexivity.
  split; [exact H1 |]. split; [exact H2 |].
  exact (proj1 (proj2 (_news_card_markup_fixed toy_card_item))
           (u "https://toy.example/?a=1&b=<2>") H1 H2).
Defined.

Lemma _fetch_cls_api_all_or_nothing_witness :
  PStr (u "maintenance")
    ∈ [ PDict [(u "content", PStr (u "LNG cargo diverted to Asia"))];
        PStr (u "maintenance") ]
  /\ (forall kvs, PStr (u "maintenance") <> PDict kvs)
  /\ (exists e, _fetch_cls_api toy_unescape toy_fetch_json_mixed
                  toy_strftime_localtime toy_api = Raise e)
  /\ fetch_source toy_unescape toy_fetch_feed unit nat toy_fetch_page toy_select
       toy_select_one toy_get_text toy_get_text toy_is_a toy_get_href toy_find_a
       toy_fetch_json_mixed toy_strftime_localtime toy_api = Return [].
Proof.
  assert (H1 : PStr (u "maintenance")
                 ∈ [ PDict [(u "content", PStr (u "LNG cargo diverted to Asia"))];
                     PStr (u "maintenance") ]).
  { apply elem_of_cons. right. apply elem_of_cons. left. reflexivity. }
  assert (H2 : forall kvs, PStr (u "maintenance") <> PDict kvs).
  { intros kvs H. discriminate H. }
  split; [exact H1 |]. split; [exact H2 |].
  pose proof (_fetch_cls_api_all_or_nothing toy_unescape toy_fetch_feed unit nat
                toy_fetch_page toy_select toy_select_one toy_get_text toy_get_text
                toy_is_a toy_get_href toy_find_a toy_fetch_json_mixed
                toy_strftime_localtime toy_api _ _ _ _
                eq_refl eq_refl eq_refl H1 H2) as [Ha Hb].
  split; [exact Ha | exact (Hb eq_refl)].
Defined.
